(** * compress_video.py: a shallow embedding and its verified properties

    The script measures a video file, derives a video bitrate from a size
    budget and the probed duration, and runs one encoding pass.  Python
    floats are IEEE 754 binary64 values; they are modelled with the Standard
    Library's [SpecFloat] operations at precision 53 and [emax] 1024.
    Python integers are [Z].  Exceptions, [sys.exit], the file system and
    the two external tools are modelled with an exception-and-state monad
    over an abstract operating system. *)

From Stdlib Require Import ZArith Bool List String Ascii Lia DecimalString.
From Stdlib Require DecimalPos DecimalZ.
From Stdlib Require Import Reals Lra.
From Stdlib Require Import Floats.SpecFloat.
Import ListNotations.
Local Open Scope Z_scope.

(** ** Python numbers *)

Module Py.

Definition prec : Z := 53.
Definition emax : Z := 1024.

(** A Python [float]. *)
Definition float := spec_float.

(** The exceptions the script can meet.  [SystemExit] is what [sys.exit]
    raises; [CalledProcessError] is what [subprocess.run(..., check=True)]
    raises on a non-zero return code. *)
Inductive exn :=
| SystemExit (code : Z)
| CalledProcessError (returncode : Z) (cmd : list string)
| ValueError
| OverflowError
| ZeroDivisionError
| OSError.

(** The result of evaluating a pure Python expression. *)
Inductive result (A : Type) :=
| Ok (a : A)
| Err (e : exn).
Arguments Ok {A} a.
Arguments Err {A} e.

Definition rbind {A B} (r : result A) (k : A -> result B) : result B :=
  match r with
  | Ok a => k a
  | Err e => Err e
  end.

(** A Python number: the script's arithmetic is dynamically typed, and
    [target_size_mb] may be an [int] (as in the entry point) or a [float]. *)
Inductive num :=
| Int (z : Z)
| Float (f : float).

Definition is_nan (f : float) : bool :=
  match f with S754_nan => true | _ => false end.

Definition is_inf (f : float) : bool :=
  match f with S754_infinity _ => true | _ => false end.

Definition is_zero (f : float) : bool :=
  match f with S754_zero _ => true | _ => false end.

Definition is_finite (f : float) : bool :=
  match f with S754_zero _ | S754_finite _ _ _ => true | _ => false end.

(** [float(i)] for an [int] [i]: rounded to nearest-even, [OverflowError]
    when the rounded value does not fit. *)
Definition float_of_int (z : Z) : result float :=
  let f := binary_normalize prec emax z 0 false in
  if is_inf f then Err OverflowError else Ok f.

(** [a / b] on two [int]s: the correctly rounded quotient. *)
Definition int_truediv (a b : Z) : result float :=
  match b with
  | Z0 => Err ZeroDivisionError
  | _ =>
    match a with
    | Z0 => Ok (S754_zero (b <? 0))
    | _ =>
      let '(mz, ez, lz) := SFdiv_core_binary prec emax (Z.abs a) 0 (Z.abs b) 0 in
      let f := binary_round_aux prec emax (xorb (a <? 0) (b <? 0)) mz ez lz in
      if is_inf f then Err OverflowError else Ok f
    end
  end.

Definition float_truediv (x y : float) : result float :=
  if is_zero y then Err ZeroDivisionError else Ok (SFdiv prec emax x y).

Definition to_float (n : num) : result float :=
  match n with
  | Int z => float_of_int z
  | Float f => Ok f
  end.

(** [a * b] *)
Definition mul (a b : num) : result num :=
  match a, b with
  | Int x, Int y => Ok (Int (x * y))
  | _, _ =>
    rbind (to_float a) (fun x =>
    rbind (to_float b) (fun y =>
    Ok (Float (SFmul prec emax x y))))
  end.

(** [a - b] *)
Definition sub (a b : num) : result num :=
  match a, b with
  | Int x, Int y => Ok (Int (x - y))
  | _, _ =>
    rbind (to_float a) (fun x =>
    rbind (to_float b) (fun y =>
    Ok (Float (SFsub prec emax x y))))
  end.

(** [a / b] (true division) *)
Definition truediv (a b : num) : result num :=
  match a, b with
  | Int x, Int y => rbind (int_truediv x y) (fun f => Ok (Float f))
  | _, _ =>
    rbind (to_float a) (fun x =>
    rbind (to_float b) (fun y =>
    rbind (float_truediv x y) (fun f => Ok (Float f))))
  end.

(** Truncation toward zero of a finite float. *)
Definition trunc (f : float) : Z :=
  match f with
  | S754_finite s m e =>
    let a := match e with
             | Zneg p => Z.pos m / 2 ^ Z.pos p
             | _ => Z.pos m * 2 ^ e
             end in
    if s then - a else a
  | _ => 0
  end.

(** Rounding toward minus infinity of a finite float. *)
Definition floor (f : float) : Z :=
  match f with
  | S754_finite s m e =>
    match e with
    | Zneg p => (if s then Z.neg m else Z.pos m) / 2 ^ Z.pos p
    | _ => (if s then Z.neg m else Z.pos m) * 2 ^ e
    end
  | _ => 0
  end.

(** [int(x)] *)
Definition int (n : num) : result Z :=
  match n with
  | Int z => Ok z
  | Float f =>
    if is_nan f then Err ValueError
    else if is_inf f then Err OverflowError
    else Ok (trunc f)
  end.

(** [math.floor(x)] *)
Definition math_floor (n : num) : result Z :=
  match n with
  | Int z => Ok z
  | Float f =>
    if is_nan f then Err ValueError
    else if is_inf f then Err OverflowError
    else Ok (floor f)
  end.

(** Exact comparison of a float with an integer, as Python's mixed
    comparison does it.  [None] when the float is a NaN. *)
Definition compare_float_int (f : float) (z : Z) : option comparison :=
  match f with
  | S754_nan => None
  | S754_infinity s => Some (if s then Lt else Gt)
  | S754_zero _ => Some (0 ?= z)
  | S754_finite s m e =>
    let sm := if s then Z.neg m else Z.pos m in
    Some match e with
         | Zneg p => sm ?= z * 2 ^ Z.pos p
         | _ => sm * 2 ^ e ?= z
         end
  end.

Definition compare (a b : num) : option comparison :=
  match a, b with
  | Int x, Int y => Some (x ?= y)
  | Float x, Float y => SFcompare x y
  | Float x, Int y => compare_float_int x y
  | Int x, Float y => option_map CompOpp (compare_float_int y x)
  end.

(** [a <= b] *)
Definition le (a b : num) : bool :=
  match compare a b with
  | Some (Lt | Eq) => true
  | _ => false
  end.

(** [a < b] *)
Definition lt (a b : num) : bool :=
  match compare a b with
  | Some Lt => true
  | _ => false
  end.

(** The literal [0.95]: the binary64 value nearest to 95/100. *)
Definition lit_0_95 : float := S754_finite false 8556839292003942 (-53).

End Py.

Notation "x <-? c ;; k" := (Py.rbind c (fun x => k))
  (at level 61, c at next level, right associativity).

(** ** The bitrate calculation (compress_video.py, lines 62-68) *)

Definition audio_bitrate_kbps : Z := 128.

Definition target_video_bitrate (target_size_mb duration : Py.num)
  : Py.result Z :=
  t8 <-? Py.mul target_size_mb (Py.Int 8) ;;
  t8k <-? Py.mul t8 (Py.Int 1024) ;;
  target_size_bits <-? Py.mul t8k (Py.Int 1024) ;;
  per_second <-? Py.truediv target_size_bits duration ;;
  target_total_bitrate_kbps <-? Py.truediv per_second (Py.Int 1000) ;;
  target_video_bitrate_kbps <-?
    Py.sub target_total_bitrate_kbps (Py.Int audio_bitrate_kbps) ;;
  scaled <-? Py.mul target_video_bitrate_kbps (Py.Float Py.lit_0_95) ;;
  Py.int scaled.

(** The formula as the specification writes it,
    [floor(((t * 8 * 1024 * 1024) / d / 1000 - 128) * 0.95)]: the same
    arithmetic, with [floor] where the script has [int]. *)
Definition spec_video_kbps (target_size_mb duration : Py.num)
  : Py.result Z :=
  t8 <-? Py.mul target_size_mb (Py.Int 8) ;;
  t8k <-? Py.mul t8 (Py.Int 1024) ;;
  bits <-? Py.mul t8k (Py.Int 1024) ;;
  per_second <-? Py.truediv bits duration ;;
  total <-? Py.truediv per_second (Py.Int 1000) ;;
  video <-? Py.sub total (Py.Int 128) ;;
  scaled <-? Py.mul video (Py.Float Py.lit_0_95) ;;
  Py.math_floor scaled.

(** ** The operating system and the Python runtime *)

(** What a started process leaves behind: its return code and what it wrote
    to standard output; or the failure to start it at all. *)
Inductive proc_outcome :=
| ProcExit (returncode : Z) (stdout : string)
| ProcSpawnFailed.

(** The calls the script makes to the outside, in the order it makes them. *)
Inductive event :=
| EvExists (path : string)
| EvGetsize (path : string)
| EvRun (cmd : list string)
| EvPrint (line : string).

Definition is_run (e : event) : bool :=
  match e with EvRun _ => true | _ => false end.

Definition runs_tool (tool : string) (e : event) : bool :=
  match e with
  | EvRun (c :: _) => String.eqb c tool
  | _ => false
  end.

Definition reads_size_of (path : string) (e : event) : bool :=
  match e with
  | EvGetsize p => String.eqb p path
  | _ => false
  end.

Definition nl : string := String (ascii_of_nat 10) EmptyString.

(** U+2713 in UTF-8. *)
Definition check_mark : string :=
  String (ascii_of_nat 226) (String (ascii_of_nat 156)
    (String (ascii_of_nat 147) EmptyString)).

(** [str(i)] for an [int]. *)
Definition str_int (z : Z) : string :=
  NilZero.string_of_int (Z.to_int z).

Definition exit_status {A} (r : Py.result A) : Z :=
  match r with
  | Py.Ok _ => 0
  | Py.Err (Py.SystemExit c) => c mod 256
  | Py.Err _ => 1
  end.

(** The machine the script runs on: the world outside the interpreter, and
    the interpreter's builtins. *)
Class machine := {
  (** The state of the file system and of whatever else the tools see. *)
  world : Type;
  (** [os.stat(path).st_size]; [None] when [os.stat] fails. *)
  stat_size : world -> string -> option Z;
  (** Starting a command and waiting for it: the tool may change the world. *)
  run_process : list string -> world -> world * proc_outcome;
  (** [s.strip()] *)
  str_strip : string -> string;
  (** [float(s)]; [None] is a [ValueError]. *)
  float_of_str : string -> option Py.float;
  (** [format(x, ".nf")] *)
  format_fixed : nat -> Py.num -> string;
  (** [str(x)] on a float *)
  str_float : Py.float -> string;
  (** [str(e)] on an exception *)
  str_exn : Py.exn -> string
}.

Section Script.

Context {m : machine}.

Definition str_num (n : Py.num) : string :=
  match n with
  | Py.Int z => str_int z
  | Py.Float f => str_float f
  end.

Record state := { st_world : world; st_log : list event }.

Definition M (A : Type) : Type := state -> state * Py.result A.

Definition ret {A} (a : A) : M A := fun s => (s, Py.Ok a).

Definition bind {A B} (c : M A) (k : A -> M B) : M B :=
  fun s =>
    match c s with
    | (s', Py.Ok a) => k a s'
    | (s', Py.Err e) => (s', Py.Err e)
    end.

Definition raise {A} (e : Py.exn) : M A := fun s => (s, Py.Err e).

Definition lift {A} (r : Py.result A) : M A := fun s => (s, r).

Definition emit (e : event) : M unit :=
  fun s => ({| st_world := st_world s; st_log := st_log s ++ [e] |}, Py.Ok tt).

(** [try: body except subprocess.CalledProcessError as e: handler] *)
Definition try_except_called_process_error {A} (body : M A)
  (handler : Py.exn -> M A) : M A :=
  fun s =>
    match body s with
    | (s', Py.Err (Py.CalledProcessError rc cmd)) =>
        handler (Py.CalledProcessError rc cmd) s'
    | r => r
    end.

Notation "x <- c ;; k" := (bind c (fun x => k))
  (at level 61, c at next level, right associativity).
Notation "c ;;; k" := (bind c (fun _ => k))
  (at level 61, right associativity).

Definition print (line : string) : M unit := emit (EvPrint line).

Definition sys_exit {A} (code : Z) : M A := raise (Py.SystemExit code).

Definition os_path_exists (path : string) : M bool :=
  fun s =>
    ({| st_world := st_world s; st_log := st_log s ++ [EvExists path] |},
     Py.Ok (match stat_size (st_world s) path with
            | Some _ => true
            | None => false
            end)).

Definition os_path_getsize (path : string) : M Z :=
  fun s =>
    ({| st_world := st_world s; st_log := st_log s ++ [EvGetsize path] |},
     match stat_size (st_world s) path with
     | Some n => Py.Ok n
     | None => Py.Err Py.OSError
     end).

(** [subprocess.run(cmd, check=True)]: the captured standard output. *)
Definition subprocess_run (cmd : list string) : M string :=
  fun s =>
    let '(w', o) := run_process cmd (st_world s) in
    ({| st_world := w'; st_log := st_log s ++ [EvRun cmd] |},
     match o with
     | ProcExit rc out =>
         if rc =? 0 then Py.Ok out else Py.Err (Py.CalledProcessError rc cmd)
     | ProcSpawnFailed => Py.Err Py.OSError
     end).

(** [float(s)] *)
Definition py_float (s : string) : M Py.num :=
  match float_of_str s with
  | Some f => ret (Py.Float f)
  | None => raise Py.ValueError
  end.

(** ** The script *)

Definition ffprobe_cmd (input_file : string) : list string :=
  ["ffprobe"; "-v"; "error"; "-show_entries"; "format=duration";
   "-of"; "default=noprint_wrappers=1:nokey=1"; input_file]%string.

Definition get_video_duration (input_file : string) : M Py.num :=
  let cmd := ffprobe_cmd input_file in
  try_except_called_process_error
    (out <- subprocess_run cmd ;;
     py_float (str_strip out))
    (fun e =>
       print ("Error getting video duration: " ++ str_exn e) ;;;
       sys_exit 1).

Definition get_file_size_mb (file_path : string) : M Py.num :=
  size <- os_path_getsize file_path ;;
  lift (Py.truediv (Py.Int size) (Py.Int (1024 * 1024))).

Definition ffmpeg_cmd (input_file output_file : string)
  (target_video_bitrate_kbps : Z) : list string :=
  ["ffmpeg";
   "-i"; input_file;
   "-c:v"; "libx264";
   "-b:v"; str_int target_video_bitrate_kbps ++ "k";
   "-c:a"; "aac";
   "-b:a"; str_int audio_bitrate_kbps ++ "k";
   "-preset"; "medium";
   "-movflags"; "+faststart";
   "-y";
   output_file]%string.

(** [((current - compressed) / current) * 100] *)
Definition reduction_percent (current_size_mb compressed_size_mb : Py.num)
  : Py.result Py.num :=
  saved <-? Py.sub current_size_mb compressed_size_mb ;;
  ratio <-? Py.truediv saved current_size_mb ;;
  Py.mul ratio (Py.Int 100).

(** The [try] block that ends [compress_video]. *)
Definition run_encoder (input_file output_file : string)
  (current_size_mb : Py.num) (target_video_bitrate_kbps : Z) : M unit :=
  let cmd := ffmpeg_cmd input_file output_file target_video_bitrate_kbps in
  try_except_called_process_error
    (subprocess_run cmd ;;;
     compressed_size_mb <- get_file_size_mb output_file ;;
     reduction <- lift (reduction_percent current_size_mb compressed_size_mb) ;;
     print (nl ++ check_mark ++ " Compression complete!") ;;;
     print ("Original size: " ++ format_fixed 2 current_size_mb ++ " MB") ;;;
     print ("Compressed size: " ++ format_fixed 2 compressed_size_mb ++ " MB") ;;;
     print ("Size reduction: " ++ format_fixed 1 reduction ++ "%") ;;;
     print ("Output file: " ++ output_file))
    (fun e =>
       print ("Error during compression: " ++ str_exn e) ;;;
       sys_exit 1).

(** What follows the early exits of [compress_video]. *)
Definition encode (input_file output_file : string) (target_size_mb : Py.num)
  (current_size_mb : Py.num) : M unit :=
  duration <- get_video_duration input_file ;;
  print ("Video duration: " ++ format_fixed 2 duration ++ " seconds") ;;;
  target_video_bitrate_kbps <-
    lift (target_video_bitrate target_size_mb duration) ;;
  print ("Target video bitrate: " ++ str_int target_video_bitrate_kbps ++ "k") ;;;
  print ("Target audio bitrate: " ++ str_int audio_bitrate_kbps ++ "k") ;;;
  print (nl ++ "Compressing video...") ;;;
  run_encoder input_file output_file current_size_mb target_video_bitrate_kbps.

Definition compress_video (input_file output_file : string)
  (target_size_mb : Py.num) : M unit :=
  found <- os_path_exists input_file ;;
  (if negb found then
     print ("Error: Input file '" ++ input_file ++ "' not found!") ;;;
     sys_exit 1
   else ret tt) ;;;
  current_size_mb <- get_file_size_mb input_file ;;
  print ("Current video size: " ++ format_fixed 2 current_size_mb ++ " MB") ;;;
  if Py.le current_size_mb target_size_mb then
    print ("Video is already under " ++ str_num target_size_mb
           ++ " MB. No compression needed!")
  else
    encode input_file output_file target_size_mb current_size_mb.

(** [compress_video(input_file, output_file)]: the target size defaults to
    100. *)
Definition default_target_size_mb : Py.num := Py.Int 100.

Definition compress_video_default (input_file output_file : string) : M unit :=
  compress_video input_file output_file default_target_size_mb.

(** [os.path.getsize(path) / (1024 * 1024)] in a given world. *)
Definition measured_mb (w : world) (path : string) : Py.result Py.num :=
  match stat_size w path with
  | Some n => Py.truediv (Py.Int n) (Py.Int (1024 * 1024))
  | None => Py.Err Py.OSError
  end.

(** The state after some more calls. *)
Definition logged (s : state) (evs : list event) : state :=
  {| st_world := st_world s; st_log := st_log s ++ evs |}.

(** The run gets as far as the encoder: the input exists and is larger than
    the target, the probe answers [out], which reads as the duration [d], and
    the bitrate calculation returns [v].  [w1] is the world the probe left. *)
Definition reaches_encoder (input_file : string) (target_size_mb : Py.num)
  (s : state) (cur : Py.num) (w1 : world) (d : Py.float) (v : Z) : Prop :=
  measured_mb (st_world s) input_file = Py.Ok cur /\
  Py.le cur target_size_mb = false /\
  exists out,
    run_process (ffprobe_cmd input_file) (st_world s) = (w1, ProcExit 0 out) /\
    float_of_str (str_strip out) = Some d /\
    target_video_bitrate target_size_mb (Py.Float d) = Py.Ok v.

(** What has been logged when the encoder is about to start. *)
Definition before_encoder (input_file : string) (cur : Py.num) (d : Py.float)
  (v : Z) : list event :=
  [EvExists input_file;
   EvGetsize input_file;
   EvPrint ("Current video size: " ++ format_fixed 2 cur ++ " MB");
   EvRun (ffprobe_cmd input_file);
   EvPrint ("Video duration: " ++ format_fixed 2 (Py.Float d) ++ " seconds");
   EvPrint ("Target video bitrate: " ++ str_int v ++ "k");
   EvPrint ("Target audio bitrate: " ++ str_int audio_bitrate_kbps ++ "k");
   EvPrint (nl ++ "Compressing video...")].

(** The lines of the completion summary. *)
Definition completion_summary (output_file : string) (cur comp red : Py.num)
  : list event :=
  [EvPrint (nl ++ check_mark ++ " Compression complete!");
   EvPrint ("Original size: " ++ format_fixed 2 cur ++ " MB");
   EvPrint ("Compressed size: " ++ format_fixed 2 comp ++ " MB");
   EvPrint ("Size reduction: " ++ format_fixed 1 red ++ "%");
   EvPrint ("Output file: " ++ output_file)].

(** The entry point ([if __name__ == "__main__":]). *)
Definition input_video : string :=
  "asset/DESFRALDE CONSCIENTE VD PROMO 001.mp4".
Definition output_video : string :=
  "asset/DESFRALDE CONSCIENTE VD PROMO 001_compressed.mp4".
Definition target_size : Py.num := Py.Int 80.

Fixpoint str_repeat (s : string) (n : nat) : string :=
  match n with
  | O => EmptyString
  | S n' => s ++ str_repeat s n'
  end.

Definition main : M unit :=
  print (str_repeat "=" 60) ;;;
  print "VIDEO COMPRESSION SCRIPT" ;;;
  print (str_repeat "=" 60) ;;;
  print ("Input: " ++ input_video) ;;;
  print ("Output: " ++ output_video) ;;;
  print ("Target size: " ++ str_num target_size ++ " MB") ;;;
  print (str_repeat "=" 60) ;;;
  print "" ;;;
  compress_video input_video output_video target_size.

End Script.


(** ** A concrete machine, for running the script on examples *)

Module Sample.

(** Paths and their sizes in bytes; the first entry for a path wins. *)
Definition world := list (string * Z).

Fixpoint stat_size (w : world) (path : string) : option Z :=
  match w with
  | [] => None
  | (p, n) :: w' => if String.eqb p path then Some n else stat_size w' path
  end.

(** The two tools: the probe prints [probe] and leaves the world alone; the
    encoder writes [encoded] bytes to its last argument. *)
Record tools := {
  probe : proc_outcome;
  encoder : proc_outcome;
  encoded : Z
}.

Definition run_process (t : tools) (cmd : list string) (w : world)
  : world * proc_outcome :=
  match cmd with
  | c :: args =>
    if String.eqb c "ffprobe" then (w, probe t)
    else if String.eqb c "ffmpeg" then
      ((List.last args EmptyString, encoded t) :: w, encoder t)
    else (w, ProcSpawnFailed)
  | [] => (w, ProcSpawnFailed)
  end.

Definition is_space (c : ascii) : bool :=
  match nat_of_ascii c with
  | 9%nat | 10%nat | 11%nat | 12%nat | 13%nat | 32%nat => true
  | _ => false
  end.

Fixpoint lstrip (s : string) : string :=
  match s with
  | String c s' => if is_space c then lstrip s' else s
  | EmptyString => s
  end.

Fixpoint str_rev_onto (s acc : string) : string :=
  match s with
  | String c s' => str_rev_onto s' (String c acc)
  | EmptyString => acc
  end.

Definition str_strip (s : string) : string :=
  str_rev_onto (lstrip (str_rev_onto (lstrip s) EmptyString)) EmptyString.

Definition digit_of (c : ascii) : option Z :=
  let n := Z.of_nat (nat_of_ascii c) in
  if (48 <=? n) && (n <=? 57) then Some (n - 48) else None.

(** Reads [ddd] or [ddd.ddd]: the digits as an integer, the number of digits
    after the point, and how many digits were seen. *)
Fixpoint read_decimal (s : string) (acc : Z) (frac : option Z) (seen : nat)
  : option (Z * Z * nat) :=
  match s with
  | EmptyString => Some (acc, match frac with Some k => k | None => 0 end, seen)
  | String c s' =>
    if Ascii.eqb c "."%char then
      match frac with
      | None => read_decimal s' acc (Some 0) seen
      | Some _ => None
      end
    else
      match digit_of c with
      | Some d =>
        read_decimal s' (10 * acc + d) (option_map Z.succ frac) (S seen)
      | None => None
      end
  end.

(** [float(s)] on plain unsigned decimals: the quotient of the digits by the
    power of ten, correctly rounded. *)
Definition float_of_str (s : string) : option Py.float :=
  match read_decimal s 0 None 0 with
  | Some (n, k, S _) =>
    match Py.int_truediv n (10 ^ k) with
    | Py.Ok f => Some f
    | Py.Err _ => None
    end
  | _ => None
  end.

Fixpoint pad_left (width : nat) (s : string) : string :=
  match width with
  | O => s
  | S w => if (String.length s <=? w)%nat then pad_left w (String "0"%char s) else s
  end.

(** Rounding of a quotient of non-negative integers to the nearest integer,
    ties to even. *)
Definition div_half_even (a b : Z) : Z :=
  let q := a / b in
  let r := a mod b in
  match 2 * r ?= b with
  | Lt => q
  | Gt => q + 1
  | Eq => if Z.even q then q else q + 1
  end.

Definition format_fixed_float (digits : nat) (f : Py.float) : string :=
  match f with
  | S754_nan => "nan"
  | S754_infinity s => if s then "-inf" else "inf"
  | _ =>
    let scale := 10 ^ Z.of_nat digits in
    let '(s, n) :=
      match f with
      | S754_finite s m (Zneg p) => (s, div_half_even (Z.pos m * scale) (2 ^ Z.pos p))
      | S754_finite s m e => (s, Z.pos m * 2 ^ e * scale)
      | S754_zero s => (s, 0)
      | _ => (false, 0)
      end in
    ((if s then "-" else "") ++ str_int (n / scale) ++
     match digits with
     | O => ""
     | _ => "." ++ pad_left digits (str_int (n mod scale))
     end)%string
  end.

Definition format_fixed (digits : nat) (x : Py.num) : string :=
  match Py.to_float x with
  | Py.Ok f => format_fixed_float digits f
  | Py.Err _ => "OverflowError"
  end.

(** A stand-in for [repr] of a float: one digit after the point. *)
Definition str_float (f : Py.float) : string := format_fixed_float 1 f.

Fixpoint join (sep : string) (l : list string) : string :=
  match l with
  | [] => ""
  | [s] => s
  | s :: l' => s ++ sep ++ join sep l'
  end.

Definition str_exn (e : Py.exn) : string :=
  match e with
  | Py.CalledProcessError rc cmd =>
    "Command '[" ++ join ", " (map (fun s => "'" ++ s ++ "'") cmd)
    ++ "]' returned non-zero exit status " ++ str_int rc ++ "."
  | Py.SystemExit c => str_int c
  | Py.ValueError => "ValueError"
  | Py.OverflowError => "OverflowError"
  | Py.ZeroDivisionError => "ZeroDivisionError"
  | Py.OSError => "OSError"
  end%string.

Definition os (t : tools) : machine :=
  Build_machine world stat_size (run_process t) str_strip float_of_str
    format_fixed str_float str_exn.

Definition MB : Z := 1024 * 1024.

(** A 200 MB promo video that lasts ten minutes; encoding gives 78 MB. *)
Definition promo : world := [(input_video, 200 * MB)].

Definition good_tools : tools :=
  {| probe := ProcExit 0 ("600.000000" ++ nl);
     encoder := ProcExit 0 "";
     encoded := 78 * MB |}.

(** The floats 600.0, 100.0, 5242.88 and 100000.0. *)
Definition f600 : Py.float := S754_finite false 5277655813324800 (-43).
Definition f100 : Py.float := S754_finite false 7036874417766400 (-46).
Definition f5242_88 : Py.float := S754_finite false 5764607523034235 (-40).
Definition f100000 : Py.float := S754_finite false 6871947673600000 (-36).

(** The smallest positive float, 5e-324. *)
Definition f_tiny : Py.float := S754_finite false 1 (-1074).

(** A file that is exactly 80 MB. *)
Definition exact_fit : world := [("a.mp4"%string, 80 * MB)].

(** A probe that fails, one whose output is not a number, and an encoder
    that fails after writing 1 MB. *)
Definition failing_probe : tools :=
  {| probe := ProcExit 1 ""; encoder := ProcExit 0 ""; encoded := 78 * MB |}.

Definition garbled_probe : tools :=
  {| probe := ProcExit 0 ("N/A" ++ nl); encoder := ProcExit 0 "";
     encoded := 78 * MB |}.

Definition failing_encoder : tools :=
  {| probe := ProcExit 0 ("600.000000" ++ nl);
     encoder := ProcExit 1 "";
     encoded := 1 * MB |}.

(** A probe that reports a duration of 100000 seconds. *)
Definition long_video : tools :=
  {| probe := ProcExit 0 ("100000" ++ nl);
     encoder := ProcExit 0 "";
     encoded := 78 * MB |}.

Definition at_log (t : tools) (w : world) (log : list event) : @state (os t) :=
  @Build_state (os t) w log.

Definition start (t : tools) (w : world) : @state (os t) := at_log t w [].

End Sample.

(** ** What floats mean: values, the format, rounding to nearest *)

(** Powers of two as reals. *)
Definition bpow (e : Z) : R := powerRZ 2 e.


(** The real number a float stands for (0 for infinities and NaN). *)
Definition float_value (f : spec_float) : R :=
  match f with
  | S754_finite s m e => (IZR (if s then Z.neg m else Z.pos m) * bpow e)%R
  | _ => 0%R
  end.

Definition signed (s : bool) (x : R) : R := if s then (- x)%R else x.

(** Where a real sits between two consecutive multiples of [2^e]. *)

Definition inbetween (m e : Z) (x : R) (l : location) : Prop :=
  match l with
  | loc_Exact => x = (IZR m * bpow e)%R
  | loc_Inexact c =>
    (IZR m * bpow e < x < IZR (m + 1) * bpow e)%R /\
    match c with
    | Lt => (2 * x < IZR (2 * m + 1) * bpow e)%R
    | Eq => (2 * x = IZR (2 * m + 1) * bpow e)%R
    | Gt => (IZR (2 * m + 1) * bpow e < 2 * x)%R
    end
  end.

Section Format.

Variables prec emax : Z.

(** The reals with a [prec]-bit significand and an exponent from [emin] up
    (no upper bound on the exponent). *)
Definition format (x : R) : Prop :=
  exists k E : Z, x = (IZR k * bpow E)%R /\ Z.abs k < 2 ^ prec /\ SpecFloat.emin prec emax <= E.

(** [r] is a point of the format nearest to [x]. *)
Definition nearest (x r : R) : Prop :=
  format r /\ forall f, format f -> (Rabs (r - x) <= Rabs (f - x))%R.

(** A significand-exponent pair in normal or subnormal position. *)
Definition positioned (m e : Z) : Prop :=
  0 <= m < 2 ^ prec /\ SpecFloat.emin prec emax <= e /\ (e = SpecFloat.emin prec emax \/ 2 ^ (prec - 1) <= m).

(** [f] is a valid finite float nearest to [x]. *)
Definition rounds_to (x : R) (f : spec_float) : Prop :=
  valid_binary prec emax f = true /\ Py.is_finite f = true /\ nearest x (float_value f).

(** A bound that is a point of the format below [2^emax]: what is at most
    that far from zero rounds to a finite float. *)
Definition in_range (y : R) : Prop :=
  format y /\ (0 <= y < bpow emax)%R.

End Format.

(** ** The bitrate calculation in stages *)

(** The real number a Python number stands for. *)
Definition num_value (n : Py.num) : R :=
  match n with
  | Py.Int z => IZR z
  | Py.Float f => float_value f
  end.

(** Every float the interpreter holds is a valid binary64 value. *)
Definition valid_num (n : Py.num) : Prop :=
  match n with
  | Py.Int _ => True
  | Py.Float f => valid_binary Py.prec Py.emax f = true
  end.

Definition finite_num (n : Py.num) : Prop :=
  match n with
  | Py.Int _ => True
  | Py.Float f => Py.is_finite f = true
  end.

(** The floats 8.0, 1024.0, 1000.0 and 128.0, which [float(8)],
    [float(1024)], [float(1000)] and [float(128)] return. *)
Definition f8 : Py.float := S754_finite false 4503599627370496 (-49).
Definition f1024 : Py.float := S754_finite false 4503599627370496 (-42).
Definition f1000 : Py.float := S754_finite false 8796093022208000 (-43).
Definition f128 : Py.float := S754_finite false 4503599627370496 (-45).

(** The stages of the bitrate calculation.  [dividend] is the float that is
    divided by the duration, [scaled_of] what [int] is applied to. *)
Definition dividend (target_size_mb : Py.num) : Py.result Py.float :=
  match target_size_mb with
  | Py.Int z => Py.float_of_int (z * 8 * 1024 * 1024)
  | Py.Float f =>
    Py.Ok (SFmul Py.prec Py.emax
             (SFmul Py.prec Py.emax (SFmul Py.prec Py.emax f f8) f1024) f1024)
  end.

Definition scaled_of (b d : Py.float) : Py.float :=
  SFmul Py.prec Py.emax
    (SFsub Py.prec Py.emax
       (SFdiv Py.prec Py.emax (SFdiv Py.prec Py.emax b d) f1000) f128)
    Py.lit_0_95.

(** A step of the calculation seen as a function on floats: it gives a
    finite result only on a finite argument, keeps validity, and is monotone
    on the values. *)
Definition stage (g : Py.float -> Py.float) : Prop :=
  (forall x, Py.is_finite (g x) = true -> Py.is_finite x = true) /\
  (forall x, valid_binary Py.prec Py.emax x = true ->
             Py.is_finite (g x) = true ->
             valid_binary Py.prec Py.emax (g x) = true) /\
  (forall x y,
     valid_binary Py.prec Py.emax x = true ->
     valid_binary Py.prec Py.emax y = true ->
     Py.is_finite (g x) = true -> Py.is_finite (g y) = true ->
     (float_value x <= float_value y)%R ->
     (float_value (g x) <= float_value (g y))%R).

(** The value handed to [int] in the bitrate calculation:
    [((t * 8 * 1024 * 1024) / d / 1000 - 128) * 0.95]. *)
Definition scaled_bitrate (target_size_mb duration : Py.num)
  : Py.result Py.num :=
  t8 <-? Py.mul target_size_mb (Py.Int 8) ;;
  t8k <-? Py.mul t8 (Py.Int 1024) ;;
  bits <-? Py.mul t8k (Py.Int 1024) ;;
  per_second <-? Py.truediv bits duration ;;
  total <-? Py.truediv per_second (Py.Int 1000) ;;
  video <-? Py.sub total (Py.Int audio_bitrate_kbps) ;;
  Py.mul video (Py.Float Py.lit_0_95).

(** ** Machines on which something goes wrong *)

Module Faulty.

(** The probe and the encoder end as given; the encoder writes [written]
    bytes to its last argument, or nothing at all. *)
Definition run_process (probe encoder : proc_outcome) (written : option Z)
  (cmd : list string) (w : Sample.world) : Sample.world * proc_outcome :=
  match cmd with
  | c :: args =>
    if String.eqb c "ffprobe" then (w, probe)
    else if String.eqb c "ffmpeg" then
      (match written with
       | Some n => (List.last args EmptyString, n) :: w
       | None => w
       end, encoder)
    else (w, ProcSpawnFailed)
  | [] => (w, ProcSpawnFailed)
  end.

Definition os (probe encoder : proc_outcome) (written : option Z) : machine :=
  Build_machine Sample.world Sample.stat_size
    (run_process probe encoder written)
    Sample.str_strip Sample.float_of_str Sample.format_fixed Sample.str_float
    Sample.str_exn.

Definition ten_minutes : proc_outcome := ProcExit 0 ("600.000000" ++ nl).

(** No [ffmpeg] on the machine; an [ffmpeg] that reports success and writes
    nothing; a probe that reports a duration of 0. *)
Definition no_encoder : machine := os ten_minutes ProcSpawnFailed None.
Definition idle_encoder : machine := os ten_minutes (ProcExit 0 "") None.
Definition zero_duration : machine :=
  os (ProcExit 0 ("0.000000" ++ nl)) (ProcExit 0 "") (Some (78 * Sample.MB)).

Definition start (m : machine) (w : @world m) : @state m :=
  @Build_state m w [].

End Faulty.

(** ** The lines the entry point prints first (lines 111-118) *)

Definition banner : list event :=
  [EvPrint (str_repeat "=" 60);
   EvPrint "VIDEO COMPRESSION SCRIPT";
   EvPrint (str_repeat "=" 60);
   EvPrint ("Input: " ++ input_video);
   EvPrint ("Output: " ++ output_video);
   EvPrint ("Target size: " ++ str_int 80 ++ " MB");
   EvPrint (str_repeat "=" 60);
   EvPrint ""].

(** A promo video of 90 MB. *)
Definition promo_90 : Sample.world := [(input_video, 90 * Sample.MB)].

(** * Properties of the script *)

Section ScriptProperties.

Context {m : machine}.

Lemma get_file_size_mb_run (s : state) (path : string) :
  get_file_size_mb path s =
  (logged s [EvGetsize path], measured_mb (st_world s) path).
Proof.
  unfold get_file_size_mb, bind, os_path_getsize, lift, measured_mb, logged.
  destruct (stat_size (st_world s) path); reflexivity.
Qed.

(** C5: a missing input file is reported, the process stops with status 1,
    and no external tool was started: the only calls are the existence check
    and the error message. *)
Theorem missing_input_exits (input_file output_file : string)
  (target_size_mb : Py.num) (s : state) :
  stat_size (st_world s) input_file = None ->
  let evs := [EvExists input_file;
              EvPrint ("Error: Input file '" ++ input_file ++ "' not found!")] in
  compress_video input_file output_file target_size_mb s =
    (logged s evs, Py.Err (Py.SystemExit 1)) /\
  exit_status (snd (compress_video input_file output_file target_size_mb s)) <> 0 /\
  existsb is_run evs = false.
Proof.
  intros Hmissing evs.
  assert (Hrun : compress_video input_file output_file target_size_mb s =
                 (logged s evs, Py.Err (Py.SystemExit 1))).
  { unfold compress_video, bind, os_path_exists, print, emit, sys_exit,
      raise, logged; simpl.
    rewrite Hmissing; simpl. rewrite <- app_assoc. reflexivity. }
  rewrite Hrun. repeat split; simpl; discriminate.
Qed.

Lemma measured_mb_exists (w : world) (path : string) (x : Py.num) :
  measured_mb w path = Py.Ok x -> exists n, stat_size w path = Some n.
Proof.
  unfold measured_mb. destruct (stat_size w path) as [n|]; [eauto | discriminate].
Qed.

Lemma compress_video_reaches_encoder (input_file output_file : string)
  (target_size_mb : Py.num) (s : state) cur w1 d v :
  reaches_encoder input_file target_size_mb s cur w1 d v ->
  compress_video input_file output_file target_size_mb s =
  run_encoder input_file output_file cur v
    {| st_world := w1;
       st_log := st_log s ++ before_encoder input_file cur d v |}.
Proof.
  intros (Hcur & Hle & out & Hprobe & Hparse & Hrate).
  destruct (measured_mb_exists _ _ _ Hcur) as [n Hn].
  unfold compress_video, bind at 1, os_path_exists. rewrite Hn. simpl.
  unfold bind at 1. unfold ret. unfold bind at 1.
  rewrite get_file_size_mb_run. simpl. rewrite Hcur.
  unfold bind at 1, print, emit; simpl. rewrite Hle.
  unfold encode, bind at 1, get_video_duration,
    try_except_called_process_error, bind at 1, subprocess_run; simpl.
  rewrite Hprobe; simpl. unfold py_float. rewrite Hparse. unfold ret.
  unfold bind at 1; simpl. unfold bind at 1, lift. rewrite Hrate.
  unfold bind at 1; simpl. unfold bind at 1; simpl. unfold bind at 1; simpl.
  unfold before_encoder. repeat rewrite <- app_assoc. reflexivity.
Qed.

Lemma run_encoder_success (input_file output_file : string) (cur : Py.num)
  (v : Z) (s1 : state) w2 out comp red :
  run_process (ffmpeg_cmd input_file output_file v) (st_world s1)
    = (w2, ProcExit 0 out) ->
  measured_mb w2 output_file = Py.Ok comp ->
  reduction_percent cur comp = Py.Ok red ->
  run_encoder input_file output_file cur v s1 =
  ({| st_world := w2;
      st_log := st_log s1 ++
        EvRun (ffmpeg_cmd input_file output_file v) ::
        EvGetsize output_file ::
        completion_summary output_file cur comp red |}, Py.Ok tt).
Proof.
  intros Hrun Hcomp Hred.
  unfold run_encoder, try_except_called_process_error, bind at 1,
    subprocess_run. rewrite Hrun. simpl.
  unfold bind at 1. rewrite get_file_size_mb_run. simpl. rewrite Hcomp.
  unfold bind at 1, lift. rewrite Hred.
  unfold bind, print, emit; simpl.
  unfold completion_summary. repeat rewrite <- app_assoc. reflexivity.
Qed.

Lemma run_encoder_failure (input_file output_file : string) (cur : Py.num)
  (v : Z) (s1 : state) w2 rc out :
  run_process (ffmpeg_cmd input_file output_file v) (st_world s1)
    = (w2, ProcExit rc out) ->
  rc <> 0 ->
  run_encoder input_file output_file cur v s1 =
  ({| st_world := w2;
      st_log := st_log s1 ++
        [EvRun (ffmpeg_cmd input_file output_file v);
         EvPrint ("Error during compression: " ++
                  str_exn (Py.CalledProcessError rc
                             (ffmpeg_cmd input_file output_file v)))] |},
   Py.Err (Py.SystemExit 1)).
Proof.
  intros Hrun Hrc.
  unfold run_encoder, try_except_called_process_error, bind at 1,
    subprocess_run. rewrite Hrun.
  apply Z.eqb_neq in Hrc. rewrite Hrc. simpl.
  unfold bind, print, emit, sys_exit, raise; simpl.
  rewrite <- app_assoc. reflexivity.
Qed.

(** The early return: what [compress_video] does when Python finds the
    measured size [<=] the target. *)
Lemma compress_video_short_circuit (input_file output_file : string)
  (target_size_mb : Py.num) (s : state) (cur : Py.num) :
  measured_mb (st_world s) input_file = Py.Ok cur ->
  Py.le cur target_size_mb = true ->
  compress_video input_file output_file target_size_mb s =
    (logged s
       [EvExists input_file;
        EvGetsize input_file;
        EvPrint ("Current video size: " ++ format_fixed 2 cur ++ " MB");
        EvPrint ("Video is already under " ++ str_num target_size_mb
                 ++ " MB. No compression needed!")],
     Py.Ok tt).
Proof.
  intros Hcur Hle.
  destruct (measured_mb_exists _ _ _ Hcur) as [n Hn].
  unfold compress_video, bind at 1, os_path_exists. rewrite Hn. simpl.
  unfold bind at 1. unfold ret. unfold bind at 1.
  rewrite get_file_size_mb_run. simpl. rewrite Hcur.
  unfold bind at 1, print, emit; simpl. rewrite Hle.
  unfold logged; simpl. repeat rewrite <- app_assoc. reflexivity.
Qed.

(** C6: the three outcomes of [get_video_duration] once the probe has run.
    A non-zero return code is reported and ends in [sys.exit(1)]; an output
    that [float] rejects raises [ValueError], which nothing catches, so the
    interpreter stops with status 1; otherwise the parsed float is returned. *)
Theorem get_video_duration_outcomes (input_file : string) (s : state)
  (w1 : world) (rc : Z) (out : string) :
  run_process (ffprobe_cmd input_file) (st_world s) = (w1, ProcExit rc out) ->
  let s1 := {| st_world := w1;
               st_log := st_log s ++ [EvRun (ffprobe_cmd input_file)] |} in
  (rc <> 0 ->
     get_video_duration input_file s =
       (logged s1 [EvPrint ("Error getting video duration: " ++
                     str_exn (Py.CalledProcessError rc (ffprobe_cmd input_file)))],
        Py.Err (Py.SystemExit 1)) /\
     exit_status (snd (get_video_duration input_file s)) <> 0) /\
  (rc = 0 -> float_of_str (str_strip out) = None ->
     get_video_duration input_file s = (s1, Py.Err Py.ValueError) /\
     exit_status (snd (get_video_duration input_file s)) <> 0) /\
  (rc = 0 -> forall f, float_of_str (str_strip out) = Some f ->
     get_video_duration input_file s = (s1, Py.Ok (Py.Float f))).
Proof.
  intros Hrun s1.
  assert (Hfail : rc <> 0 ->
     get_video_duration input_file s =
       (logged s1 [EvPrint ("Error getting video duration: " ++
                     str_exn (Py.CalledProcessError rc (ffprobe_cmd input_file)))],
        Py.Err (Py.SystemExit 1))).
  { intros Hrc. unfold get_video_duration, try_except_called_process_error,
      bind at 1, subprocess_run. rewrite Hrun.
    apply Z.eqb_neq in Hrc. rewrite Hrc. simpl.
    unfold bind, print, emit, sys_exit, raise, logged; simpl.
    rewrite <- app_assoc. reflexivity. }
  assert (Hparsed : rc = 0 ->
     get_video_duration input_file s =
       (s1, match float_of_str (str_strip out) with
            | Some f => Py.Ok (Py.Float f)
            | None => Py.Err Py.ValueError
            end)).
  { intros ->. unfold get_video_duration, try_except_called_process_error,
      bind, subprocess_run. rewrite Hrun. simpl. unfold py_float.
    destruct (float_of_str (str_strip out)); reflexivity. }
  split; [| split].
  - intros Hrc. rewrite (Hfail Hrc). split; [reflexivity | simpl; discriminate].
  - intros Hrc Hparse. rewrite (Hparsed Hrc), Hparse.
    split; [reflexivity | simpl; discriminate].
  - intros Hrc f Hparse. rewrite (Hparsed Hrc), Hparse. reflexivity.
Qed.

(** Whatever stops the probe stops the script: [compress_video] neither
    catches nor changes an exception of [get_video_duration]. *)
Lemma probe_failure_stops_script (input_file output_file : string)
  (target_size_mb : Py.num) (s : state) (cur : Py.num) s1 e :
  measured_mb (st_world s) input_file = Py.Ok cur ->
  Py.le cur target_size_mb = false ->
  get_video_duration input_file
    (logged s [EvExists input_file; EvGetsize input_file;
               EvPrint ("Current video size: " ++ format_fixed 2 cur ++ " MB")])
    = (s1, Py.Err e) ->
  compress_video input_file output_file target_size_mb s = (s1, Py.Err e).
Proof.
  intros Hcur Hle Hprobe.
  destruct (measured_mb_exists _ _ _ Hcur) as [n Hn].
  unfold compress_video, bind at 1, os_path_exists. rewrite Hn. simpl.
  unfold bind at 1. unfold ret. unfold bind at 1.
  rewrite get_file_size_mb_run. simpl. rewrite Hcur.
  unfold bind at 1, print, emit; simpl. rewrite Hle.
  unfold encode, bind at 1.
  unfold logged in Hprobe; simpl in Hprobe.
  repeat rewrite <- app_assoc. simpl. rewrite Hprobe. reflexivity.
Qed.

(** The encoder is the first thing [run_encoder] calls, whatever follows. *)
Lemma run_encoder_starts_encoder (input_file output_file : string)
  (cur : Py.num) (v : Z) (s1 : state) :
  exists rest,
    st_log (fst (run_encoder input_file output_file cur v s1)) =
    st_log s1 ++ EvRun (ffmpeg_cmd input_file output_file v) :: rest.
Proof.
  unfold run_encoder, try_except_called_process_error, bind at 1, subprocess_run.
  destruct (run_process _ (st_world s1)) as [w2 [rc out|]]; simpl.
  - destruct (rc =? 0); simpl.
    + unfold bind at 1. rewrite get_file_size_mb_run. simpl.
      destruct (measured_mb w2 output_file) as [comp|e].
      * unfold bind at 1, lift.
        destruct (reduction_percent cur comp) as [red|e].
        -- unfold bind, print, emit; simpl. repeat rewrite <- app_assoc.
           eexists. reflexivity.
        -- destruct e; simpl;
             try (rewrite <- app_assoc; eexists; reflexivity).
           unfold bind, print, emit, sys_exit, raise; simpl.
           repeat rewrite <- app_assoc. eexists. reflexivity.
      * destruct e; simpl;
          try (rewrite <- app_assoc; eexists; reflexivity).
        unfold bind, print, emit, sys_exit, raise; simpl.
        repeat rewrite <- app_assoc. eexists. reflexivity.
    + unfold bind, print, emit, sys_exit, raise; simpl.
      rewrite <- app_assoc. eexists. reflexivity.
  - eexists. reflexivity.
Qed.

(** C10: when the encoder returns a non-zero code, what follows its start is
    one error line and [sys.exit(1)]: the output's size is not read, no line
    of the completion summary is printed, the encoder is not started again,
    and the world is the one the encoder left. *)
Theorem encoder_failure_stops (input_file output_file : string)
  (target_size_mb : Py.num) (s : state) cur w1 d v w2 rc out :
  reaches_encoder input_file target_size_mb s cur w1 d v ->
  run_process (ffmpeg_cmd input_file output_file v) w1 = (w2, ProcExit rc out) ->
  rc <> 0 ->
  let after :=
    [EvRun (ffmpeg_cmd input_file output_file v);
     EvPrint ("Error during compression: " ++
              str_exn (Py.CalledProcessError rc
                         (ffmpeg_cmd input_file output_file v)))] in
  compress_video input_file output_file target_size_mb s =
    ({| st_world := w2;
        st_log := st_log s ++ before_encoder input_file cur d v ++ after |},
     Py.Err (Py.SystemExit 1)) /\
  exit_status (snd (compress_video input_file output_file target_size_mb s)) <> 0 /\
  existsb (reads_size_of output_file) after = false /\
  (forall comp red e,
     In e (completion_summary output_file cur comp red) -> ~ In e after) /\
  List.length (filter is_run after) = 1%nat.
Proof.
  intros Hreach Hrun Hrc after.
  assert (Hcv : compress_video input_file output_file target_size_mb s =
    ({| st_world := w2;
        st_log := st_log s ++ before_encoder input_file cur d v ++ after |},
     Py.Err (Py.SystemExit 1))).
  { rewrite (compress_video_reaches_encoder _ output_file _ _ _ _ _ _ Hreach).
    rewrite (run_encoder_failure _ _ _ _ _ w2 rc out); simpl; auto.
    rewrite <- app_assoc. reflexivity. }
  rewrite Hcv. repeat split; try (simpl; discriminate); try reflexivity.
  intros comp red e Hin Hafter.
  simpl in Hin, Hafter.
  destruct Hafter as [<- | [<- | []]];
    repeat (destruct Hin as [Hin | Hin]; [discriminate Hin |]); exact Hin.
Qed.

(** The bitrate reaches the encoder as it was computed: the run that gets to
    the encoder starts it with [ffmpeg_cmd] at [v], whose seventh word is
    [str(v)] followed by [k]. *)
Lemma bitrate_passed_through (input_file output_file : string)
  (target_size_mb : Py.num) (s : state) cur w1 d v :
  reaches_encoder input_file target_size_mb s cur w1 d v ->
  (exists rest,
     st_log (fst (compress_video input_file output_file target_size_mb s)) =
     st_log s ++ before_encoder input_file cur d v ++
     EvRun (ffmpeg_cmd input_file output_file v) :: rest) /\
  nth_error (ffmpeg_cmd input_file output_file v) 6 = Some (str_int v ++ "k")%string.
Proof.
  intros Hreach.
  rewrite (compress_video_reaches_encoder _ output_file _ _ _ _ _ _ Hreach).
  destruct (run_encoder_starts_encoder input_file output_file cur v
              {| st_world := w1;
                 st_log := st_log s ++ before_encoder input_file cur d v |})
    as [rest Hrest].
  split; [| reflexivity].
  exists rest. rewrite Hrest. simpl. rewrite <- app_assoc. reflexivity.
Qed.

End ScriptProperties.

(** ** The script on concrete machines *)

Lemma missing_input_exits_witness :
  exit_status (snd (compress_video (m := Sample.os Sample.good_tools)
    "does/not/exist.mp4" "out.mp4" (Py.Int 80)
    (Sample.start Sample.good_tools Sample.promo))) <> 0.
Proof.
  apply (missing_input_exits (m := Sample.os Sample.good_tools)
           "does/not/exist.mp4" "out.mp4" (Py.Int 80)
           (Sample.start Sample.good_tools Sample.promo)).
  reflexivity.
Defined.

Lemma get_video_duration_outcomes_witness :
  get_video_duration (m := Sample.os Sample.good_tools) input_video
    (Sample.start Sample.good_tools Sample.promo) =
  (Sample.at_log Sample.good_tools Sample.promo
     [EvRun (ffprobe_cmd input_video)],
   Py.Ok (Py.Float Sample.f600)).
Proof.
  apply (get_video_duration_outcomes (m := Sample.os Sample.good_tools)
           input_video (Sample.start Sample.good_tools Sample.promo)
           Sample.promo 0 ("600.000000" ++ nl)%string).
  - reflexivity.
  - reflexivity.
  - reflexivity.
Defined.

Lemma encoder_failure_stops_witness :
  snd (compress_video (m := Sample.os Sample.failing_encoder)
    input_video output_video target_size
    (Sample.start Sample.failing_encoder Sample.promo)) =
  Py.Err (Py.SystemExit 1).
Proof.
  pose proof (encoder_failure_stops (m := Sample.os Sample.failing_encoder)
    input_video output_video target_size
    (Sample.start Sample.failing_encoder Sample.promo)
    (Py.Float (S754_finite false 7036874417766400 (-45)))
    Sample.promo Sample.f600 940
    ((output_video, 1 * Sample.MB) :: Sample.promo) 1 "") as H.
  destruct H as [Hrun _].
  - repeat split. exists ("600.000000" ++ nl)%string. repeat split.
  - reflexivity.
  - discriminate.
  - rewrite Hrun. reflexivity.
Defined.

(** ** The bitrate calculation on concrete inputs *)

(** C2, as the specification states it, fails: for 80 MB and 600 seconds the
    calculation does not return 941. *)
Lemma bitrate_80_600_is_not_941 :
  target_video_bitrate (Py.Int 80) (Py.Float Sample.f600) <> Py.Ok 941.
Proof. vm_compute. discriminate. Qed.

(** C2, amended: for 80 MB and 600 seconds the calculation returns 940,
    whether the duration is the float the probe gives or the integer 600. *)
Theorem bitrate_80_600_is_940 :
  target_video_bitrate (Py.Int 80) (Py.Float Sample.f600) = Py.Ok 940 /\
  target_video_bitrate (Py.Int 80) (Py.Int 600) = Py.Ok 940.
Proof. split; vm_compute; reflexivity. Qed.

(** C1, as the specification states it, fails in two ways, both on positive
    inputs.  Where the scaled value is negative and not an integer the script
    does not return the floor: for 1 MB and 100 seconds it returns -41 and
    the formula with [floor] gives -42.  And the script does not return on
    every input: for 80 MB and a duration of 5e-324 seconds the quotient
    overflows to infinity and [int] raises [OverflowError]. *)
Lemma int_is_not_floor :
  (Py.lt (Py.Int 0) (Py.Int 1) = true /\
   Py.lt (Py.Int 0) (Py.Float Sample.f100) = true /\
   target_video_bitrate (Py.Int 1) (Py.Float Sample.f100) = Py.Ok (-41) /\
   spec_video_kbps (Py.Int 1) (Py.Float Sample.f100) = Py.Ok (-42) /\
   target_video_bitrate (Py.Int 1) (Py.Float Sample.f100)
     <> spec_video_kbps (Py.Int 1) (Py.Float Sample.f100)) /\
  (Py.lt (Py.Int 0) (Py.Int 80) = true /\
   Py.lt (Py.Int 0) (Py.Float Sample.f_tiny) = true /\
   valid_binary Py.prec Py.emax Sample.f_tiny = true /\
   target_video_bitrate (Py.Int 80) (Py.Float Sample.f_tiny)
     = Py.Err Py.OverflowError).
Proof. repeat split; vm_compute; discriminate || reflexivity. Qed.

(** C7: positive inputs exist for which the computed bitrate is zero
    (80 MB, 5242.88 s) or negative (80 MB, 100000 s), and a run that gets to
    the encoder with a bitrate [v <= 0] starts the encoder with that very
    [v]: the word after [-b:v] is [str(v)] followed by [k]. *)
Theorem nonpositive_bitrate_unclamped :
  (Py.lt (Py.Int 0) (Py.Float Sample.f5242_88) = true /\
   target_video_bitrate (Py.Int 80) (Py.Float Sample.f5242_88) = Py.Ok 0) /\
  (Py.lt (Py.Int 0) (Py.Float Sample.f100000) = true /\
   target_video_bitrate (Py.Int 80) (Py.Float Sample.f100000) = Py.Ok (-115)) /\
  forall (m : machine) (input_file output_file : string)
    (target_size_mb : Py.num) (s : state) cur w1 d v,
    reaches_encoder input_file target_size_mb s cur w1 d v ->
    v <= 0 ->
    (exists rest,
       st_log (fst (compress_video input_file output_file target_size_mb s)) =
       st_log s ++ before_encoder input_file cur d v ++
       EvRun (ffmpeg_cmd input_file output_file v) :: rest) /\
    nth_error (ffmpeg_cmd input_file output_file v) 6
      = Some (str_int v ++ "k")%string.
Proof.
  split; [| split].
  - split; vm_compute; reflexivity.
  - split; vm_compute; reflexivity.
  - intros m input_file output_file target_size_mb s cur w1 d v Hreach _.
    apply (bitrate_passed_through _ _ _ _ _ _ _ _ Hreach).
Qed.

Lemma nonpositive_bitrate_unclamped_witness :
  nth_error (st_log (fst (compress_video (m := Sample.os Sample.long_video)
    input_video output_video target_size
    (Sample.start Sample.long_video Sample.promo)))) 8 =
  Some (EvRun ["ffmpeg"; "-i"; input_video; "-c:v"; "libx264";
               "-b:v"; "-115k"; "-c:a"; "aac"; "-b:a"; "128k";
               "-preset"; "medium"; "-movflags"; "+faststart"; "-y";
               output_video]%string).
Proof.
  destruct nonpositive_bitrate_unclamped as (_ & _ & H).
  destruct (H (Sample.os Sample.long_video) input_video output_video
              target_size (Sample.start Sample.long_video Sample.promo)
              (Py.Float (S754_finite false 7036874417766400 (-45)))
              Sample.promo Sample.f100000 (-115)) as [[rest Hlog] _].
  - repeat split. exists ("100000" ++ nl)%string. repeat split.
  - discriminate.
  - rewrite Hlog. reflexivity.
Defined.

(** * Floating-point rounding

    What [binary_round_aux] and the operations built on it compute, in terms
    of real numbers. *)

(** ** Powers of two *)

Lemma bpow_gt_0 (e : Z) : (0 < bpow e)%R.
Proof. apply powerRZ_lt. lra. Qed.

Lemma bpow_plus (a b : Z) : bpow (a + b) = (bpow a * bpow b)%R.
Proof. apply powerRZ_add. lra. Qed.

Lemma bpow_0 : bpow 0 = 1%R.
Proof. reflexivity. Qed.

Lemma bpow_1 : bpow 1 = 2%R.
Proof. unfold bpow. simpl. lra. Qed.

Lemma bpow_IZR (n : Z) : 0 <= n -> bpow n = IZR (2 ^ n).
Proof.
  intros Hn. destruct n as [|p|p]; [reflexivity | | lia].
  unfold bpow. rewrite <- Zpower_pos_powerRZ. reflexivity.
Qed.

Lemma pow2_pos (n : Z) : 0 <= n -> 0 < 2 ^ n.
Proof. intros. apply Z.pow_pos_nonneg; lia. Qed.

Lemma bpow_le (a b : Z) : a <= b -> (bpow a <= bpow b)%R.
Proof.
  intros Hab. replace b with (a + (b - a)) by lia.
  rewrite bpow_plus, (bpow_IZR (b - a)) by lia.
  pose proof (bpow_gt_0 a). pose proof (pow2_pos (b - a) ltac:(lia)).
  assert (1 <= IZR (2 ^ (b - a)))%R by (apply IZR_le; lia).
  nra.
Qed.

Lemma bpow_lt (a b : Z) : a < b -> (bpow a < bpow b)%R.
Proof.
  intros Hab. replace b with (a + 1 + (b - a - 1)) by lia.
  rewrite !bpow_plus, bpow_1, (bpow_IZR (b - a - 1)) by lia.
  pose proof (bpow_gt_0 a). pose proof (pow2_pos (b - a - 1) ltac:(lia)).
  assert (1 <= IZR (2 ^ (b - a - 1)))%R by (apply IZR_le; lia).
  nra.
Qed.

(** [m * 2^e] brought to a smaller exponent. *)
Lemma scale_down (m e e' : Z) : e' <= e ->
  (IZR m * bpow e = IZR (m * 2 ^ (e - e')) * bpow e')%R.
Proof.
  intros H. rewrite mult_IZR, <- bpow_IZR by lia.
  rewrite Rmult_assoc, <- bpow_plus. f_equal. f_equal. lia.
Qed.

(** ** Binary digits *)

Lemma digits2_pos_size (p : positive) : digits2_pos p = Pos.size p.
Proof. induction p; simpl; congruence. Qed.

Lemma Zdigits2_log2 (m : Z) : 0 < m -> Zdigits2 m = Z.log2 m + 1.
Proof.
  destruct m as [|p|p]; try lia. intros _. simpl.
  rewrite digits2_pos_size. destruct p; simpl; lia.
Qed.

Lemma Zdigits2_bounds (m : Z) : 0 < m ->
  2 ^ (Zdigits2 m - 1) <= m < 2 ^ Zdigits2 m.
Proof.
  intros Hm. rewrite Zdigits2_log2 by assumption.
  replace (Z.log2 m + 1 - 1) with (Z.log2 m) by lia.
  apply Z.log2_spec. assumption.
Qed.

Lemma Zdigits2_unique (m d : Z) : 2 ^ (d - 1) <= m < 2 ^ d -> 0 < m ->
  Zdigits2 m = d.
Proof.
  intros [Hlo Hhi] Hm. rewrite Zdigits2_log2 by assumption.
  assert (0 < d).
  { destruct (Z_lt_le_dec 0 d) as [|Hd]; [assumption | exfalso].
    destruct (Z.eq_dec d 0) as [->|Hd0]; [simpl in Hhi; lia |].
    rewrite Z.pow_neg_r in Hhi by lia. lia. }
  rewrite (Z.log2_unique m (d - 1)); try lia.
  replace (Z.succ (d - 1)) with d by lia. lia.
Qed.

Lemma Zdigits2_nonneg (m : Z) : 0 <= Zdigits2 m.
Proof. destruct m; simpl; lia. Qed.

Lemma Zdigits2_pos (m : Z) : 0 < m -> 0 < Zdigits2 m.
Proof. destruct m; simpl; lia. Qed.

Lemma inbetween_bounds (m e : Z) (x : R) (l : location) :
  inbetween m e x l -> (IZR m * bpow e <= x < IZR (m + 1) * bpow e)%R.
Proof.
  pose proof (bpow_gt_0 e) as Hb.
  destruct l as [|c]; simpl.
  - intros ->. rewrite plus_IZR. lra.
  - intros [H _]. lra.
Qed.

Lemma loc_of_shr_record_of_loc (m : Z) (l : location) :
  loc_of_shr_record (shr_record_of_loc m l) = l /\
  shr_m (shr_record_of_loc m l) = m.
Proof. destruct l as [|[| |]]; split; reflexivity. Qed.

Lemma shr_1_nonneg (m : Z) (r s : bool) : 0 <= m ->
  shr_1 (Build_shr_record m r s) = Build_shr_record (m / 2) (Z.odd m) (r || s).
Proof.
  intros Hm. destruct m as [|p|p]; [reflexivity | | lia].
  destruct p as [p|p|]; simpl shr_1; simpl Z.odd; f_equal.
  - change (Z.pos p~1) with (2 * Z.pos p + 1).
    apply Z.div_unique with 1; lia.
  - change (Z.pos p~0) with (2 * Z.pos p).
    apply Z.div_unique with 0; lia.
Qed.

(** One step of [shr_1] keeps track of where [x] is. *)
Lemma shr_1_inbetween (mrs : shr_record) (e : Z) (x : R) :
  0 <= shr_m mrs ->
  inbetween (shr_m mrs) e x (loc_of_shr_record mrs) ->
  inbetween (shr_m (shr_1 mrs)) (e + 1) x (loc_of_shr_record (shr_1 mrs)) /\
  shr_m (shr_1 mrs) = shr_m mrs / 2.
Proof.
  destruct mrs as [m r s]. intros Hm Hx. cbn [shr_m] in Hm, Hx.
  rewrite shr_1_nonneg by assumption. cbn [shr_m]. split; [| reflexivity].
  assert (Hb2 : bpow (e + 1) = (2 * bpow e)%R) by (rewrite bpow_plus, bpow_1; lra).
  pose proof (bpow_gt_0 e) as Hb.
  pose proof (Z.div2_odd m) as Hdiv. rewrite Z.div2_div in Hdiv.
  set (q := m / 2) in *. clearbody q.
  destruct (Z.odd m); cbn [Z.b2z] in Hdiv; subst m;
    destruct r, s; cbn [inbetween loc_of_shr_record orb] in *;
    rewrite ?Hb2; rewrite ?plus_IZR, ?mult_IZR in *;
    try match type of Hx with
        | _ /\ _ => destruct Hx as [[Hx1 Hx2] Hx3]
        end; repeat split; nra.
Qed.

Lemma iter_pos_shr_1 (n : positive) : forall (mrs : shr_record) (e : Z) (x : R),
  0 <= shr_m mrs ->
  inbetween (shr_m mrs) e x (loc_of_shr_record mrs) ->
  inbetween (shr_m (SpecFloat.iter_pos shr_1 n mrs)) (e + Z.pos n) x
    (loc_of_shr_record (SpecFloat.iter_pos shr_1 n mrs)) /\
  shr_m (SpecFloat.iter_pos shr_1 n mrs) = shr_m mrs / 2 ^ Z.pos n.
Proof.
  induction n as [n IH | n IH |]; intros mrs e x Hm Hx; simpl SpecFloat.iter_pos.
  - destruct (shr_1_inbetween mrs e x Hm Hx) as [H1 E1].
    assert (Hm1 : 0 <= shr_m (shr_1 mrs)) by (rewrite E1; apply Z.div_pos; lia).
    destruct (IH _ _ _ Hm1 H1) as [H2 E2].
    assert (Hm2 : 0 <= shr_m (SpecFloat.iter_pos shr_1 n (shr_1 mrs))).
    { rewrite E2. apply Z.div_pos; [lia | apply pow2_pos; lia]. }
    destruct (IH _ _ _ Hm2 H2) as [H3 E3].
    split.
    + replace (e + Z.pos n~1) with (e + 1 + Z.pos n + Z.pos n) by lia. exact H3.
    + rewrite E3, E2, E1.
      rewrite !Z.div_div by (try apply pow2_pos; lia).
      f_equal. replace (Z.pos n~1) with (1 + Z.pos n + Z.pos n) by lia.
      rewrite !Z.pow_add_r by lia. lia.
  - destruct (IH _ _ _ Hm Hx) as [H2 E2].
    assert (Hm2 : 0 <= shr_m (SpecFloat.iter_pos shr_1 n mrs)).
    { rewrite E2. apply Z.div_pos; [lia | apply pow2_pos; lia]. }
    destruct (IH _ _ _ Hm2 H2) as [H3 E3].
    split.
    + replace (e + Z.pos n~0) with (e + Z.pos n + Z.pos n) by lia. exact H3.
    + rewrite E3, E2.
      rewrite !Z.div_div by (try apply pow2_pos; lia).
      f_equal. replace (Z.pos n~0) with (Z.pos n + Z.pos n) by lia.
      rewrite !Z.pow_add_r by lia. lia.
  - destruct (shr_1_inbetween mrs e x Hm Hx) as [H1 E1]. split; assumption.
Qed.

Section Rounding.

Variables prec emax : Z.
Hypothesis Hprec : 0 < prec.
Hypothesis Hemax : prec < emax.

Local Abbreviation emin := (SpecFloat.emin prec emax).
Local Abbreviation fexp := (SpecFloat.fexp prec emax).
Local Abbreviation format := (format prec emax).
Local Abbreviation nearest := (nearest prec emax).
Local Abbreviation positioned := (positioned prec emax).
Local Abbreviation rounds_to := (rounds_to prec emax).
Local Abbreviation in_range := (in_range prec emax).

Lemma emin_nonpos : emin <= 0.
Proof. unfold SpecFloat.emin. lia. Qed.

Lemma fexp_spec (e : Z) : fexp e = Z.max (e - prec) emin.
Proof. reflexivity. Qed.

Lemma format_0 : format 0.
Proof.
  exists 0, emin. repeat split; try lia. lra.
Qed.

Lemma format_opp (x : R) : format x -> format (- x).
Proof.
  intros (k & E & -> & Hk & HE). exists (- k), E.
  rewrite opp_IZR. repeat split; try lia. lra.
Qed.

Lemma format_scale (x : R) (n : Z) : 0 <= n -> format x -> format (x * bpow n).
Proof.
  intros Hn (k & E & -> & Hk & HE). exists k, (E + n).
  rewrite bpow_plus. repeat split; try lia. lra.
Qed.

Lemma positioned_format (m e : Z) : positioned m e -> format (IZR m * bpow e).
Proof.
  intros ([Hm0 Hm] & He & _). exists m, e. repeat split; try lia.
Qed.

(** No point of the format lies strictly between [m * 2^e] and
    [(m + 1) * 2^e] when [(m, e)] is positioned. *)
Lemma format_gap (m e : Z) (f : R) :
  positioned m e -> format f ->
  (f <= IZR m * bpow e \/ IZR (m + 1) * bpow e <= f)%R.
Proof.
  intros ([Hm0 Hm] & He & Hpos) (k & E & -> & Hk & HE).
  pose proof (bpow_gt_0 e) as Hbe. pose proof (bpow_gt_0 E) as HbE.
  destruct (Z_le_gt_dec e E) as [HeE | HeE].
  - rewrite (scale_down k E e HeE).
    set (K := k * 2 ^ (E - e)).
    destruct (Z_le_gt_dec K m) as [HK | HK].
    + left. apply Rmult_le_compat_r; [lra | apply IZR_le; lia].
    + right. apply Rmult_le_compat_r; [lra | apply IZR_le; lia].
  - left. destruct Hpos as [-> | Hnorm]; [lia |].
    apply Rle_trans with (IZR (2 ^ (prec - 1)) * bpow e)%R.
    + rewrite <- bpow_IZR by lia. rewrite <- bpow_plus.
      apply Rle_trans with (IZR (2 ^ prec) * bpow E)%R.
      * apply Rmult_le_compat_r; [lra | apply IZR_le; lia].
      * rewrite <- bpow_IZR by lia. rewrite <- bpow_plus.
        apply bpow_le. lia.
    + apply Rmult_le_compat_r; [lra | apply IZR_le; lia].
Qed.

Lemma round_nearest_even_cases (m : Z) (l : location) :
  round_nearest_even m l = m \/ round_nearest_even m l = m + 1.
Proof.
  destruct l as [|[| |]]; simpl; auto. destruct (Z.even m); auto.
Qed.

(** Rounding the significand to nearest gives a nearest point of the
    format. *)
Lemma round_nearest_even_nearest (m e : Z) (x : R) (l : location) :
  positioned m e -> inbetween m e x l ->
  nearest x (IZR (round_nearest_even m l) * bpow e).
Proof.
  intros Hpos Hx.
  pose proof (bpow_gt_0 e) as Hbe.
  pose proof (inbetween_bounds _ _ _ _ Hx) as Hbounds.
  assert (Hfmt : forall m', m' = m \/ m' = m + 1 -> format (IZR m' * bpow e)).
  { intros m' [-> | ->]; [apply positioned_format; assumption |].
    destruct Hpos as ([Hm0 Hm] & He & Hp).
    destruct (Z.eq_dec (m + 1) (2 ^ prec)) as [Heq | Hne].
    - exists (2 ^ (prec - 1)), (e + 1). rewrite Heq.
      rewrite <- !bpow_IZR, <- !bpow_plus by lia.
      repeat split; try lia.
      + f_equal. lia.
      + rewrite Z.abs_eq by (apply Z.lt_le_incl, pow2_pos; lia).
        apply Z.pow_lt_mono_r; lia.
    - exists (m + 1), e. repeat split; lia. }
  split; [apply Hfmt, round_nearest_even_cases |].
  intros f Hf.
  destruct (format_gap m e f Hpos Hf) as [Hlo | Hhi];
    rewrite plus_IZR in *;
    destruct l as [|[| |]]; cbn [inbetween round_nearest_even] in *;
    try destruct (Z.even m);
    rewrite ?plus_IZR, ?mult_IZR in *;
    unfold Rabs; repeat destruct Rcase_abs; nra.
Qed.

Lemma shr_spec (mrs : shr_record) (e n : Z) (x : R) :
  0 <= shr_m mrs ->
  inbetween (shr_m mrs) e x (loc_of_shr_record mrs) ->
  0 <= n ->
  inbetween (shr_m (fst (shr mrs e n))) (snd (shr mrs e n)) x
    (loc_of_shr_record (fst (shr mrs e n))) /\
  shr_m (fst (shr mrs e n)) = shr_m mrs / 2 ^ n /\
  snd (shr mrs e n) = e + n.
Proof.
  intros Hm Hx Hn. destruct n as [|p|p]; [| | lia]; cbn [shr fst snd].
  - rewrite Z.div_1_r, Z.add_0_r. auto.
  - destruct (iter_pos_shr_1 p mrs e x Hm Hx) as [H1 H2]. auto.
Qed.

(** The first shift of [binary_round_aux] brings the significand into
    position and keeps track of where [x] is. *)
Lemma shr_fexp_spec (m e : Z) (l : location) (x : R) :
  0 <= m -> inbetween m e x l -> e <= fexp (Zdigits2 m + e) ->
  inbetween (shr_m (fst (shr_fexp prec emax m e l)))
    (snd (shr_fexp prec emax m e l)) x
    (loc_of_shr_record (fst (shr_fexp prec emax m e l))) /\
  positioned (shr_m (fst (shr_fexp prec emax m e l)))
    (snd (shr_fexp prec emax m e l)).
Proof.
  intros Hm Hx He. unfold shr_fexp.
  destruct (loc_of_shr_record_of_loc m l) as [Hl Hsm].
  set (n := fexp (Zdigits2 m + e) - e).
  assert (Hn : 0 <= n) by (unfold n; lia).
  destruct (shr_spec (shr_record_of_loc m l) e n x) as (H1 & H2 & H3);
    [rewrite Hsm; assumption | rewrite Hsm, Hl; assumption | assumption |].
  split; [exact H1 |].
  rewrite H2, H3, Hsm. clear H1 H2 H3.
  pose proof (pow2_pos n Hn) as Hpn.
  pose proof (pow2_pos prec ltac:(lia)) as Hpp.
  assert (Hm1 : 0 <= m / 2 ^ n) by (apply Z.div_pos; lia).
  assert (Hen : e + n = fexp (Zdigits2 m + e)) by (unfold n; lia).
  rewrite fexp_spec in Hen, He.
  unfold positioned.
  destruct (Z.eq_dec m 0) as [-> | Hm0].
  - rewrite Z.div_0_l by lia. simpl Zdigits2 in *. lia.
  - pose proof (Zdigits2_bounds m ltac:(lia)) as [Hlo Hhi].
    pose proof (Zdigits2_pos m ltac:(lia)) as Hd.
    set (d := Zdigits2 m) in *.
    destruct (Z_le_gt_dec emin (d + e - prec)) as [Hnorm | Hsub].
    + assert (En : n = d - prec) by lia.
      assert (Hup : m / 2 ^ n < 2 ^ prec).
      { apply Z.div_lt_upper_bound; [lia |].
        rewrite <- Z.pow_add_r by lia. replace (n + prec) with d by lia. lia. }
      assert (Hdn : 2 ^ (prec - 1) <= m / 2 ^ n).
      { apply Z.div_le_lower_bound; [lia |].
        rewrite <- Z.pow_add_r by lia.
        replace (n + (prec - 1)) with (d - 1) by lia. lia. }
      lia.
    + assert (En : n = emin - e) by lia.
      assert (Hup : m / 2 ^ n < 2 ^ prec).
      { apply Z.div_lt_upper_bound; [lia |].
        rewrite <- Z.pow_add_r by lia.
        apply Z.lt_le_trans with (2 ^ d); [lia |].
        apply Z.pow_le_mono_r; lia. }
      lia.
Qed.

(** The second shift of [binary_round_aux] only acts when rounding has
    carried into a new bit; it does not change the value. *)
Lemma shr_fexp_renormalize (m e : Z) :
  0 <= m <= 2 ^ prec -> emin <= e -> (e = emin \/ 2 ^ (prec - 1) <= m) ->
  let m' := shr_m (fst (shr_fexp prec emax m e loc_Exact)) in
  let e' := snd (shr_fexp prec emax m e loc_Exact) in
  (IZR m' * bpow e' = IZR m * bpow e)%R /\
  (m' = 0 \/ (0 < m' < 2 ^ prec /\ fexp (Zdigits2 m' + e') = e')).
Proof.
  intros [Hm0 Hm] He Hpos. unfold shr_fexp.
  cbn [shr_record_of_loc].
  pose proof (pow2_pos prec ltac:(lia)) as Hpp.
  destruct (Z.eq_dec m 0) as [-> | Hmz].
  - simpl Zdigits2. rewrite Z.add_0_l.
    assert (Hn : fexp e - e <= 0) by (rewrite fexp_spec; lia).
    destruct (fexp e - e) as [|p|p] eqn:En; try lia; cbn; auto.
  - destruct (Z.eq_dec m (2 ^ prec)) as [-> | Hmp].
    + assert (Hd : Zdigits2 (2 ^ prec) = prec + 1).
      { apply Zdigits2_unique; [| lia].
        replace (prec + 1 - 1) with prec by lia.
        split; [lia | apply Z.pow_lt_mono_r; lia]. }
      rewrite Hd.
      assert (En : fexp (prec + 1 + e) - e = 1) by (rewrite fexp_spec; lia).
      rewrite En. cbn [shr SpecFloat.iter_pos fst snd].
      rewrite shr_1_nonneg by lia. cbn [shr_m].
      assert (Hhalf : 2 ^ prec / 2 = 2 ^ (prec - 1)).
      { replace prec with (prec - 1 + 1) at 1 by lia.
        rewrite Z.pow_add_r by lia. change (2 ^ 1) with 2.
        apply Z.div_mul. lia. }
      rewrite Hhalf.
      pose proof (pow2_pos (prec - 1) ltac:(lia)) as Hpp1.
      split.
      * rewrite <- !bpow_IZR, <- !bpow_plus by lia. f_equal. lia.
      * right. split; [split; [lia | apply Z.pow_lt_mono_r; lia] |].
        rewrite (Zdigits2_unique (2 ^ (prec - 1)) prec); [| | lia].
        -- rewrite fexp_spec. lia.
        -- split; [lia | apply Z.pow_lt_mono_r; lia].
    + pose proof (Zdigits2_bounds m ltac:(lia)) as [Hlo Hhi].
      pose proof (Zdigits2_pos m ltac:(lia)) as Hd.
      set (d := Zdigits2 m) in *.
      assert (Hdp : d <= prec).
      { destruct (Z_le_gt_dec d prec); [assumption | exfalso].
        assert (2 ^ prec <= 2 ^ (d - 1)) by (apply Z.pow_le_mono_r; lia). lia. }
      assert (Hfe : fexp (d + e) = e).
      { rewrite fexp_spec. destruct Hpos as [-> | Hnorm]; [lia |].
        assert (prec <= d); [| lia].
        destruct (Z_le_gt_dec prec d); [assumption | exfalso].
        assert (2 ^ d <= 2 ^ (prec - 1)) by (apply Z.pow_le_mono_r; lia). lia. }
      rewrite Hfe, Z.sub_diag. cbn [shr fst snd shr_m].
      split; [reflexivity |]. right. split; [lia | exact Hfe].
Qed.

(** What [binary_round_aux] returns: the sign, and a nearest point
    [m' * 2^e'] of the format in canonical position; infinity when its
    exponent is out of range. *)
Lemma binary_round_aux_spec (s : bool) (m e : Z) (l : location) (x : R) :
  0 <= m -> inbetween m e x l -> e <= fexp (Zdigits2 m + e) ->
  exists m' e',
    nearest x (IZR m' * bpow e') /\
    (m' = 0 \/ (0 < m' < 2 ^ prec /\ fexp (Zdigits2 m' + e') = e')) /\
    binary_round_aux prec emax s m e l =
      match m' with
      | Z0 => S754_zero s
      | Zpos p =>
        if e' <=? emax - prec then S754_finite s p e' else S754_infinity s
      | Zneg _ => S754_nan
      end.
Proof.
  intros Hm Hx He.
  destruct (shr_fexp_spec m e l x Hm Hx He) as [Hin Hpos].
  unfold binary_round_aux.
  destruct (shr_fexp prec emax m e l) as [mrs1 e1]. cbn [fst snd] in Hin, Hpos.
  set (m2 := round_nearest_even (shr_m mrs1) (loc_of_shr_record mrs1)).
  pose proof (round_nearest_even_nearest _ _ _ _ Hpos Hin) as Hnear.
  fold m2 in Hnear.
  assert (Hm2 : m2 = shr_m mrs1 \/ m2 = shr_m mrs1 + 1)
    by apply round_nearest_even_cases.
  destruct Hpos as ([Hm10 Hm1] & He1 & Hp1).
  destruct (shr_fexp_renormalize m2 e1) as [Hval Hcan]; [lia | lia | lia |].
  destruct (shr_fexp prec emax m2 e1 loc_Exact) as [mrs2 e2].
  cbn [fst snd] in Hval, Hcan.
  exists (shr_m mrs2), e2. rewrite Hval.
  split; [exact Hnear |]. split; [exact Hcan |]. reflexivity.
Qed.

Local Abbreviation valid := (valid_binary prec emax).

Lemma format_self_nearest (x : R) : format x -> nearest x x.
Proof.
  intros Hx. split; [assumption |]. intros f _.
  replace (x - x)%R with 0%R by lra. rewrite Rabs_R0. apply Rabs_pos.
Qed.

Lemma nearest_of_format (x r : R) : nearest x r -> format x -> r = x.
Proof.
  intros [_ Hn] Hx. specialize (Hn x Hx).
  replace (x - x)%R with 0%R in Hn by lra. rewrite Rabs_R0 in Hn.
  pose proof (Rabs_pos (r - x)).
  destruct (Req_dec r x) as [|Hne]; [assumption | exfalso].
  assert (0 < Rabs (r - x))%R by (apply Rabs_pos_lt; lra). lra.
Qed.

Lemma nearest_opp (x r : R) : nearest x r -> nearest (- x) (- r).
Proof.
  intros [Hf Hn]. split; [apply format_opp; assumption |].
  intros f Hfmt. specialize (Hn (- f)%R (format_opp _ Hfmt)).
  replace (- r - - x)%R with (- (r - x))%R by lra.
  replace (f - - x)%R with (- (- f - x))%R by lra.
  rewrite !Rabs_Ropp. exact Hn.
Qed.

Lemma nearest_signed (s : bool) (x r : R) :
  nearest x r -> nearest (signed s x) (signed s r).
Proof. destruct s; simpl; [apply nearest_opp | trivial]. Qed.

(** Rounding to nearest is monotone. *)
Lemma nearest_monotone (x1 x2 r1 r2 : R) :
  (x1 < x2)%R -> nearest x1 r1 -> nearest x2 r2 -> (r1 <= r2)%R.
Proof.
  intros Hx [Hf1 Hn1] [Hf2 Hn2].
  specialize (Hn1 r2 Hf2). specialize (Hn2 r1 Hf1).
  revert Hn1 Hn2. unfold Rabs. repeat destruct Rcase_abs; lra.
Qed.

Lemma nearest_nonneg (x r : R) : (0 <= x)%R -> nearest x r -> (0 <= r)%R.
Proof.
  intros Hx [_ Hn]. specialize (Hn 0%R format_0).
  revert Hn. unfold Rabs. repeat destruct Rcase_abs; lra.
Qed.

Lemma valid_finite_positioned (s : bool) (m : positive) (e : Z) :
  valid (S754_finite s m e) = true ->
  positioned (Z.pos m) e /\ fexp (Zdigits2 (Z.pos m) + e) = e /\
  e <= emax - prec.
Proof.
  cbn [valid_binary]. unfold bounded, canonical_mantissa.
  intros H. apply andb_prop in H. destruct H as [Hc Hb].
  apply Z.eqb_eq in Hc. apply Z.leb_le in Hb.
  change (Z.pos (digits2_pos m)) with (Zdigits2 (Z.pos m)) in Hc.
  split; [| split; assumption].
  pose proof (Zdigits2_bounds (Z.pos m) ltac:(lia)) as [Hlo Hhi].
  pose proof (Zdigits2_pos (Z.pos m) ltac:(lia)) as Hd.
  set (d := Zdigits2 (Z.pos m)) in *.
  rewrite fexp_spec in Hc.
  assert (Hdp : d <= prec) by lia.
  assert (Hup : 2 ^ d <= 2 ^ prec) by (apply Z.pow_le_mono_r; lia).
  unfold positioned. split; [lia |]. split; [lia |].
  destruct (Z.eq_dec e emin) as [|Hne]; [left; assumption | right].
  assert (d = prec) by lia. subst d. replace (prec - 1) with (Zdigits2 (Z.pos m) - 1) by lia.
  assumption.
Qed.

Lemma valid_format (f : spec_float) : valid f = true -> format (float_value f).
Proof.
  destruct f as [s|s| |s m e]; cbn [float_value]; try (intros _; apply format_0).
  intros Hv. destruct (valid_finite_positioned s m e Hv) as (Hp & _ & _).
  pose proof (positioned_format _ _ Hp) as Hf.
  destruct s; [| exact Hf].
  change (Z.neg m) with (- Z.pos m). rewrite opp_IZR.
  replace (- IZR (Z.pos m) * bpow e)%R with (- (IZR (Z.pos m) * bpow e))%R by lra.
  apply format_opp. exact Hf.
Qed.

Lemma binary_round_aux_rounds (s : bool) (m e : Z) (l : location) (x : R) :
  0 <= m -> inbetween m e x l -> e <= fexp (Zdigits2 m + e) ->
  Py.is_finite (binary_round_aux prec emax s m e l) = true ->
  rounds_to (signed s x) (binary_round_aux prec emax s m e l).
Proof.
  intros Hm Hx He Hfin.
  destruct (binary_round_aux_spec s m e l x Hm Hx He)
    as (m' & e' & Hnear & Hcan & Heq).
  rewrite Heq in *. clear Heq.
  destruct m' as [|p|p]; [| | discriminate].
  - split; [reflexivity |]. split; [reflexivity |].
    cbn [float_value]. replace 0%R with (signed s (IZR 0 * bpow e')).
    + apply nearest_signed. assumption.
    + destruct s; simpl; lra.
  - destruct (e' <=? emax - prec) eqn:Hle; [| discriminate].
    destruct Hcan as [Hz | [Hp Hfe]]; [discriminate |].
    split; [| split; [reflexivity |]].
    + cbn [valid_binary]. unfold bounded, canonical_mantissa.
      change (Z.pos (digits2_pos p)) with (Zdigits2 (Z.pos p)).
      rewrite Hfe, Z.eqb_refl, Hle. reflexivity.
    + cbn [float_value].
      replace (IZR (if s then Z.neg p else Z.pos p) * bpow e')%R
        with (signed s (IZR (Z.pos p) * bpow e')).
      * apply nearest_signed. assumption.
      * destruct s; simpl; [| reflexivity].
        change (Z.neg p) with (- Z.pos p). rewrite opp_IZR. lra.
Qed.

Lemma float_value_finite (s : bool) (m : positive) (e : Z) :
  float_value (S754_finite s m e) = signed s (IZR (Z.pos m) * bpow e).
Proof.
  destruct s; simpl; [| reflexivity].
  change (Z.neg m) with (- Z.pos m). rewrite opp_IZR. lra.
Qed.

Lemma rounds_to_zero (x : R) (s : bool) : x = 0%R -> rounds_to x (S754_zero s).
Proof.
  intros ->. split; [reflexivity |]. split; [reflexivity |].
  apply format_self_nearest, format_0.
Qed.

Lemma rounds_to_self (f : spec_float) :
  valid f = true -> Py.is_finite f = true -> rounds_to (float_value f) f.
Proof.
  intros Hv Hf. split; [assumption |]. split; [assumption |].
  apply format_self_nearest, valid_format. assumption.
Qed.

Lemma fexp_monotone (a b : Z) : a <= b -> fexp a <= fexp b.
Proof. rewrite !fexp_spec. lia. Qed.

Lemma Zdigits2_ge (m d : Z) : 0 < d -> 2 ^ (d - 1) <= m -> d <= Zdigits2 m.
Proof.
  intros Hd Hm.
  assert (0 < m) by (pose proof (pow2_pos (d - 1) ltac:(lia)); lia).
  rewrite Zdigits2_log2 by assumption.
  assert (d - 1 <= Z.log2 m) by (apply Z.log2_le_pow2; lia). lia.
Qed.

Lemma Zdigits2_shift (m n : Z) : 0 < m -> 0 <= n ->
  Zdigits2 (m * 2 ^ n) = Zdigits2 m + n.
Proof.
  intros Hm Hn. pose proof (pow2_pos n Hn).
  rewrite !Zdigits2_log2 by lia. rewrite Z.log2_mul_pow2 by lia. lia.
Qed.

(** ** Multiplication *)

Lemma SFmul_exponent (sx sy : bool) (mx my : positive) (ex ey : Z) :
  valid (S754_finite sx mx ex) = true -> valid (S754_finite sy my ey) = true ->
  ex + ey <= fexp (Zdigits2 (Z.pos (mx * my)) + (ex + ey)).
Proof.
  intros Hvx Hvy.
  destruct (valid_finite_positioned _ _ _ Hvx) as (_ & Hcx & _).
  destruct (valid_finite_positioned _ _ _ Hvy) as (_ & Hcy & _).
  pose proof (Zdigits2_bounds (Z.pos mx) ltac:(lia)) as [Hxlo _].
  pose proof (Zdigits2_bounds (Z.pos my) ltac:(lia)) as [Hylo _].
  pose proof (Zdigits2_pos (Z.pos mx) ltac:(lia)) as Hdx.
  pose proof (Zdigits2_pos (Z.pos my) ltac:(lia)) as Hdy.
  set (dx := Zdigits2 (Z.pos mx)) in *. set (dy := Zdigits2 (Z.pos my)) in *.
  assert (Hd : dx + dy - 1 <= Zdigits2 (Z.pos (mx * my))).
  { apply Zdigits2_ge; [lia |].
    replace (dx + dy - 1 - 1) with ((dx - 1) + (dy - 1)) by lia.
    rewrite Z.pow_add_r, Pos2Z.inj_mul by lia.
    apply Z.mul_le_mono_nonneg; try lia; apply Z.lt_le_incl, pow2_pos; lia. }
  pose proof emin_nonpos.
  rewrite fexp_spec in *. lia.
Qed.

Lemma SFmul_exact_value (sx sy : bool) (mx my : positive) (ex ey : Z) :
  (float_value (S754_finite sx mx ex) * float_value (S754_finite sy my ey))%R =
  signed (xorb sx sy) (IZR (Z.pos (mx * my)) * bpow (ex + ey)).
Proof.
  rewrite !float_value_finite, Pos2Z.inj_mul, mult_IZR, bpow_plus.
  destruct sx, sy; simpl; lra.
Qed.

Lemma SFmul_rounds (x y : spec_float) :
  valid x = true -> valid y = true ->
  Py.is_finite x = true -> Py.is_finite y = true ->
  Py.is_finite (SFmul prec emax x y) = true ->
  rounds_to (float_value x * float_value y) (SFmul prec emax x y).
Proof.
  intros Hvx Hvy Hfx Hfy Hfin.
  destruct x as [sx|sx| |sx mx ex]; try discriminate;
    destruct y as [sy|sy| |sy my ey]; try discriminate;
    try (apply rounds_to_zero; cbn [float_value]; lra).
  cbn [SFmul] in *. rewrite SFmul_exact_value.
  apply binary_round_aux_rounds; try assumption; [lia | reflexivity |].
  apply (SFmul_exponent sx sy); assumption.
Qed.

(** ** Rounding an integer significand: [binary_round], [binary_normalize] *)

Lemma iter_xO_pow2 (m d : positive) :
  Z.pos (Pos.iter xO m d) = Z.pos m * 2 ^ Z.pos d.
Proof.
  induction d as [|d IH] using Pos.peano_ind.
  - simpl. lia.
  - rewrite Pos.iter_succ, Pos2Z.inj_succ, Z.pow_succ_r by lia.
    rewrite Pos2Z.inj_xO, IH. lia.
Qed.

Lemma shl_align_spec (mx : positive) (ex ex' : Z) :
  (ex' < ex ->
   shl_align mx ex ex' = (Z.to_pos (Z.pos mx * 2 ^ (ex - ex')), ex')) /\
  (ex <= ex' -> shl_align mx ex ex' = (mx, ex)).
Proof.
  unfold shl_align. split; intros H.
  - destruct (ex' - ex) as [|d|d] eqn:Hd; try lia.
    replace (ex - ex') with (Z.pos d) by lia.
    rewrite <- iter_xO_pow2. reflexivity.
  - destruct (ex' - ex) as [|d|d] eqn:Hd; try lia; reflexivity.
Qed.

(** [binary_round] is [binary_round_aux] on an aligned significand of the
    same value. *)
Lemma binary_round_aligned (s : bool) (m : positive) (e : Z) :
  exists m' e',
    binary_round prec emax s m e = binary_round_aux prec emax s m' e' loc_Exact /\
    0 <= m' /\
    inbetween m' e' (IZR (Z.pos m) * bpow e) loc_Exact /\
    e' <= fexp (Zdigits2 m' + e').
Proof.
  unfold binary_round.
  change (Z.pos (digits2_pos m)) with (Zdigits2 (Z.pos m)).
  set (e' := fexp (Zdigits2 (Z.pos m) + e)).
  destruct (shl_align_spec m e e') as [Hlt Hge].
  destruct (Z_lt_le_dec e' e) as [H | H].
  - rewrite (Hlt H).
    pose proof (pow2_pos (e - e') ltac:(lia)) as Hp.
    assert (Hpos : 0 < Z.pos m * 2 ^ (e - e')) by lia.
    rewrite Z2Pos.id by assumption.
    exists (Z.pos m * 2 ^ (e - e')), e'.
    split; [reflexivity |]. split; [lia |]. split.
    + cbn [inbetween]. apply scale_down. lia.
    + rewrite Zdigits2_shift by lia.
      replace (Zdigits2 (Z.pos m) + (e - e') + e') with (Zdigits2 (Z.pos m) + e) by lia.
      fold e'. lia.
  - rewrite (Hge H). exists (Z.pos m), e.
    split; [reflexivity |]. split; [lia |]. split; [reflexivity | exact H].
Qed.

Lemma binary_round_rounds (s : bool) (m : positive) (e : Z) :
  Py.is_finite (binary_round prec emax s m e) = true ->
  rounds_to (signed s (IZR (Z.pos m) * bpow e)) (binary_round prec emax s m e).
Proof.
  destruct (binary_round_aligned s m e) as (m' & e' & -> & Hm & Hin & He).
  intros Hfin. apply binary_round_aux_rounds; assumption.
Qed.

Lemma binary_normalize_rounds (z e : Z) (szero : bool) :
  Py.is_finite (binary_normalize prec emax z e szero) = true ->
  rounds_to (IZR z * bpow e) (binary_normalize prec emax z e szero).
Proof.
  destruct z as [|p|p]; cbn [binary_normalize]; intros Hfin.
  - apply rounds_to_zero. lra.
  - apply (binary_round_rounds false p e Hfin).
  - pose proof (binary_round_rounds true p e Hfin) as H.
    cbn [signed] in H. change (Z.neg p) with (- Z.pos p).
    rewrite opp_IZR.
    replace (- IZR (Z.pos p) * bpow e)%R with (- (IZR (Z.pos p) * bpow e))%R by lra.
    exact H.
Qed.

(** ** Subtraction *)

Lemma shl_align_fst (mx : positive) (ex ez : Z) : ez <= ex ->
  Z.pos (fst (shl_align mx ex ez)) = Z.pos mx * 2 ^ (ex - ez).
Proof.
  intros H. destruct (shl_align_spec mx ex ez) as [Hlt Hge].
  destruct (Z_lt_le_dec ez ex) as [H' | H'].
  - rewrite (Hlt H'). cbn [fst].
    pose proof (pow2_pos (ex - ez) ltac:(lia)). rewrite Z2Pos.id; lia.
  - rewrite (Hge H'). cbn [fst]. replace (ex - ez) with 0 by lia. simpl. lia.
Qed.

Lemma IZR_cond_Zopp (s : bool) (z : Z) : IZR (cond_Zopp s z) = signed s (IZR z).
Proof. destruct s; simpl; [apply opp_IZR | reflexivity]. Qed.

Lemma signed_mult (s : bool) (a b : R) : (signed s a * b = signed s (a * b))%R.
Proof. destruct s; simpl; lra. Qed.

Lemma SFsub_exact_value (sx sy : bool) (mx my : positive) (ex ey : Z) :
  (IZR (cond_Zopp sx (Z.pos (fst (shl_align mx ex (Z.min ex ey)))) -
        cond_Zopp sy (Z.pos (fst (shl_align my ey (Z.min ex ey))))) *
   bpow (Z.min ex ey))%R =
  (float_value (S754_finite sx mx ex) - float_value (S754_finite sy my ey))%R.
Proof.
  set (ez := Z.min ex ey).
  rewrite minus_IZR, !IZR_cond_Zopp, !shl_align_fst by (unfold ez; lia).
  rewrite !float_value_finite.
  rewrite (scale_down (Z.pos mx) ex ez), (scale_down (Z.pos my) ey ez)
    by (unfold ez; lia).
  rewrite Rmult_minus_distr_r, !signed_mult. reflexivity.
Qed.

Lemma SFsub_rounds (x y : spec_float) :
  valid x = true -> valid y = true ->
  Py.is_finite x = true -> Py.is_finite y = true ->
  Py.is_finite (SFsub prec emax x y) = true ->
  rounds_to (float_value x - float_value y) (SFsub prec emax x y).
Proof.
  intros Hvx Hvy Hfx Hfy Hfin.
  destruct x as [sx|sx| |sx mx ex]; try discriminate;
    destruct y as [sy|sy| |sy my ey]; try discriminate.
  - destruct sx, sy; apply rounds_to_zero; cbn [float_value]; lra.
  - cbn [SFsub].
    replace (float_value (S754_zero sx) - float_value (S754_finite sy my ey))%R
      with (float_value (S754_finite (negb sy) my ey)).
    + apply rounds_to_self; [exact Hvy | reflexivity].
    + rewrite !float_value_finite. destruct sy; simpl; lra.
  - cbn [SFsub].
    replace (float_value (S754_finite sx mx ex) - float_value (S754_zero sy))%R
      with (float_value (S754_finite sx mx ex)) by (cbn [float_value]; lra).
    apply rounds_to_self; assumption.
  - cbn [SFsub] in *.
    set (ez := Z.min ex ey) in *.
    pose proof (binary_normalize_rounds _ _ _ Hfin) as H.
    unfold ez in *. rewrite SFsub_exact_value in H. exact H.
Qed.

(** ** Division *)

Lemma new_location_spec (nb k : Z) : 0 < nb -> 0 <= k < nb ->
  new_location nb k =
  if k =? 0 then loc_Exact else loc_Inexact (2 * k ?= nb).
Proof.
  intros Hnb Hk. unfold new_location, new_location_even, new_location_odd.
  destruct (Z.even nb) eqn:Hev; [reflexivity |].
  destruct (k =? 0); [reflexivity |]. f_equal.
  assert (Hodd : Z.odd nb = true) by (rewrite <- Z.negb_even, Hev; reflexivity).
  apply Z.odd_spec in Hodd. destruct Hodd as [h Hh].
  destruct (Z.compare_spec (2 * k + 1) nb); destruct (Z.compare_spec (2 * k) nb);
    try reflexivity; lia.
Qed.

Lemma inbetween_quotient (a b q r e : Z) :
  0 < b -> a = b * q + r -> 0 <= r < b ->
  inbetween q e (IZR a / IZR b * bpow e)
    (if r =? 0 then loc_Exact else loc_Inexact (2 * r ?= b)).
Proof.
  intros Hb Ha Hr.
  pose proof (bpow_gt_0 e) as HB.
  assert (HbR : (0 < IZR b)%R) by (apply IZR_lt; assumption).
  set (u := (IZR r / IZR b * bpow e)%R).
  assert (Hx : (IZR a / IZR b * bpow e = IZR q * bpow e + u)%R).
  { unfold u. subst a. rewrite plus_IZR, mult_IZR. field. lra. }
  assert (Hu : (u * IZR b = IZR r * bpow e)%R) by (unfold u; field; lra).
  rewrite Hx. clear Hx.
  destruct (Z.eqb_spec r 0) as [Hr0 | Hr0].
  - cbn [inbetween]. subst r. assert (u = 0)%R by nra. lra.
  - assert (HrR : (0 < IZR r < IZR b)%R) by (split; apply IZR_lt; lia).
    assert (Hu0 : (0 < u)%R) by nra.
    assert (Hu1 : (u < bpow e)%R) by nra.
    cbn [inbetween]. rewrite !plus_IZR, !mult_IZR.
    destruct (Z.compare_spec (2 * r) b) as [Hc | Hc | Hc].
    + apply (f_equal IZR) in Hc. rewrite mult_IZR in Hc.
      split; [lra | nra].
    + apply IZR_lt in Hc. rewrite mult_IZR in Hc. split; [lra | nra].
    + apply IZR_lt in Hc. rewrite mult_IZR in Hc. split; [lra | nra].
Qed.

Lemma SFdiv_core_binary_spec (m1 e1 m2 e2 : Z) :
  0 < m1 -> 0 < m2 ->
  let '(q, e', l) := SFdiv_core_binary prec emax m1 e1 m2 e2 in
  0 <= q /\
  inbetween q e' (IZR m1 * bpow e1 / (IZR m2 * bpow e2)) l /\
  e' <= fexp (Zdigits2 q + e').
Proof.
  intros Hm1 Hm2. unfold SFdiv_core_binary.
  set (d1 := Zdigits2 m1). set (d2 := Zdigits2 m2).
  set (e' := Z.min (fexp (d1 + e1 - (d2 + e2))) (e1 - e2)).
  set (s := e1 - e2 - e').
  assert (Hs : 0 <= s) by (unfold s, e'; lia).
  set (m' := match s with Z.pos _ => Z.shiftl m1 s | Z0 => m1 | Z.neg _ => 0 end).
  assert (Hm' : m' = m1 * 2 ^ s).
  { unfold m'. destruct s as [|p|p]; [simpl; lia | | lia].
    apply Z.shiftl_mul_pow2. lia. }
  clearbody m'.
  destruct (Z.div_eucl m' m2) as [q r] eqn:Hqr.
  assert (Hq : q = m' / m2) by (unfold Z.div; rewrite Hqr; reflexivity).
  assert (Hr : r = m' mod m2) by (unfold Z.modulo; rewrite Hqr; reflexivity).
  pose proof (Z.div_mod m' m2 ltac:(lia)) as Hdm. rewrite <- Hq, <- Hr in Hdm.
  pose proof (Z.mod_pos_bound m' m2 Hm2) as Hrb. rewrite <- Hr in Hrb.
  pose proof (pow2_pos s Hs) as Hps.
  assert (Hm'pos : 0 < m') by (subst m'; lia).
  assert (Hq0 : 0 <= q) by (rewrite Hq; apply Z.div_pos; lia).
  split; [exact Hq0 |]. split.
  - rewrite new_location_spec by assumption.
    replace (IZR m1 * bpow e1 / (IZR m2 * bpow e2))%R
      with (IZR m' / IZR m2 * bpow e')%R.
    + apply inbetween_quotient; assumption.
    + rewrite Hm', mult_IZR, <- bpow_IZR by assumption.
      replace e1 with (s + e2 + e') by (unfold s; lia).
      rewrite !bpow_plus.
      pose proof (bpow_gt_0 e2). pose proof (bpow_gt_0 e'). pose proof (bpow_gt_0 s).
      assert (0 < IZR m2)%R by (apply IZR_lt; assumption).
      field. lra.
  - apply Z.le_trans with (fexp (d1 + e1 - (d2 + e2))); [unfold e'; lia |].
    apply fexp_monotone.
    assert (Hd : d1 + s - d2 <= Zdigits2 q); [| unfold s in *; lia].
    destruct (Z_le_gt_dec (d1 + s - d2) 0) as [Hle | Hgt].
    + pose proof (Zdigits2_nonneg q). lia.
    + apply Zdigits2_ge; [lia |].
      rewrite Hq. apply Z.div_le_lower_bound; [lia |].
      pose proof (Zdigits2_bounds m1 Hm1) as [Hlo1 _].
      pose proof (Zdigits2_bounds m2 Hm2) as [_ Hhi2].
      fold d1 in Hlo1. fold d2 in Hhi2.
      pose proof (Zdigits2_pos m1 Hm1). pose proof (Zdigits2_pos m2 Hm2).
      fold d1 in H. fold d2 in H0.
      apply Z.le_trans with (2 ^ d2 * 2 ^ (d1 + s - d2 - 1)).
      * apply Z.mul_le_mono_nonneg_r; [apply Z.lt_le_incl, pow2_pos; lia | lia].
      * rewrite <- Z.pow_add_r by lia.
        replace (d2 + (d1 + s - d2 - 1)) with ((d1 - 1) + s) by lia.
        rewrite Z.pow_add_r by lia. rewrite Hm'.
        apply Z.mul_le_mono_nonneg_r; lia.
Qed.

Lemma signed_div (sx sy : bool) (a b : R) :
  (signed sx a / signed sy b = signed (xorb sx sy) (a / b))%R.
Proof.
  destruct sx, sy; simpl; unfold Rdiv; rewrite ?Rinv_opp; lra.
Qed.

Lemma SFdiv_rounds (x y : spec_float) :
  valid x = true -> valid y = true ->
  Py.is_finite x = true ->
  (exists s m e, y = S754_finite s m e) ->
  Py.is_finite (SFdiv prec emax x y) = true ->
  rounds_to (float_value x / float_value y) (SFdiv prec emax x y).
Proof.
  intros Hvx Hvy Hfx (sy & my & ey & ->) Hfin.
  destruct x as [sx|sx| |sx mx ex]; try discriminate.
  - apply rounds_to_zero. cbn [float_value]. unfold Rdiv. lra.
  - cbn [SFdiv] in *.
    pose proof (SFdiv_core_binary_spec (Z.pos mx) ex (Z.pos my) ey
                  ltac:(lia) ltac:(lia)) as Hcore.
    destruct (SFdiv_core_binary prec emax (Z.pos mx) ex (Z.pos my) ey)
      as [[mz ez] lz].
    destruct Hcore as (Hq & Hin & He).
    rewrite !float_value_finite, signed_div.
    apply binary_round_aux_rounds; assumption.
Qed.

(** ** Order *)

Lemma positioned_exponent_lt (mx my : positive) (ex ey : Z) :
  positioned (Z.pos mx) ex -> positioned (Z.pos my) ey -> ex < ey ->
  (IZR (Z.pos mx) * bpow ex < IZR (Z.pos my) * bpow ey)%R.
Proof.
  intros ([_ Hx] & Hex & _) (_ & Hey & Hy) Hlt.
  destruct Hy as [-> | Hy]; [lia |].
  pose proof (bpow_gt_0 ex). pose proof (bpow_gt_0 ey).
  apply Rlt_le_trans with (IZR (2 ^ prec) * bpow ex)%R.
  - apply Rmult_lt_compat_r; [lra | apply IZR_lt; lia].
  - apply Rle_trans with (IZR (2 ^ (prec - 1)) * bpow ey)%R.
    + rewrite <- !bpow_IZR, <- !bpow_plus by lia. apply bpow_le. lia.
    + apply Rmult_le_compat_r; [lra | apply IZR_le; lia].
Qed.

Lemma SFcompare_spec (x y : spec_float) :
  valid x = true -> valid y = true ->
  Py.is_finite x = true -> Py.is_finite y = true ->
  match SFcompare x y with
  | Some Lt => (float_value x < float_value y)%R
  | Some Eq => float_value x = float_value y
  | Some Gt => (float_value y < float_value x)%R
  | None => False
  end.
Proof.
  intros Hvx Hvy Hfx Hfy.
  destruct x as [sx|sx| |sx mx ex]; try discriminate;
    destruct y as [sy|sy| |sy my ey]; try discriminate;
    cbn [SFcompare]; rewrite ?float_value_finite; cbn [float_value].
  - reflexivity.
  - pose proof (bpow_gt_0 ey). assert (0 < IZR (Z.pos my))%R by (apply IZR_lt; lia).
    destruct sy; simpl; nra.
  - pose proof (bpow_gt_0 ex). assert (0 < IZR (Z.pos mx))%R by (apply IZR_lt; lia).
    destruct sx; simpl; nra.
  - destruct (valid_finite_positioned _ _ _ Hvx) as (Hpx & _ & _).
    destruct (valid_finite_positioned _ _ _ Hvy) as (Hpy & _ & _).
    pose proof (bpow_gt_0 ex). pose proof (bpow_gt_0 ey).
    assert (0 < IZR (Z.pos mx))%R by (apply IZR_lt; lia).
    assert (0 < IZR (Z.pos my))%R by (apply IZR_lt; lia).
    assert (Hsame : ex = ey ->
      match (mx ?= my)%positive with
      | Lt => (IZR (Z.pos mx) * bpow ex < IZR (Z.pos my) * bpow ey)%R
      | Eq => (IZR (Z.pos mx) * bpow ex = IZR (Z.pos my) * bpow ey)%R
      | Gt => (IZR (Z.pos my) * bpow ey < IZR (Z.pos mx) * bpow ex)%R
      end).
    { intros <-. destruct (Pos.compare_spec mx my) as [-> | Hc | Hc].
      - reflexivity.
      - apply Rmult_lt_compat_r; [lra | apply IZR_lt; lia].
      - apply Rmult_lt_compat_r; [lra | apply IZR_lt; lia]. }
    change (Pos.compare_cont Eq mx my) with (mx ?= my)%positive.
    destruct sx, sy; cbn [signed]; try nra;
      destruct (Z.compare_spec ex ey) as [He | He | He];
      try (pose proof (positioned_exponent_lt _ _ _ _ Hpx Hpy He); lra);
      try (pose proof (positioned_exponent_lt _ _ _ _ Hpy Hpx He); lra);
      specialize (Hsame He); destruct (mx ?= my)%positive; cbn [CompOpp]; lra.
Qed.

Lemma SFcompare_Eq_finite (sx sy : bool) (mx my : positive) (ex ey : Z) :
  SFcompare (S754_finite sx mx ex) (S754_finite sy my ey) = Some Eq ->
  S754_finite sx mx ex = S754_finite sy my ey.
Proof.
  cbn [SFcompare].
  change (Pos.compare_cont Eq mx my) with (mx ?= my)%positive.
  destruct sx, sy; try discriminate;
    destruct (Z.compare_spec ex ey) as [-> | He | He]; try discriminate;
    destruct (Pos.compare_spec mx my) as [-> | Hc | Hc]; try discriminate;
    reflexivity.
Qed.

(** Two valid floats with the same value are the same float, or are both
    zeros. *)
Lemma valid_value_inj (x y : spec_float) :
  valid x = true -> valid y = true ->
  Py.is_finite x = true -> Py.is_finite y = true ->
  float_value x = float_value y ->
  x = y \/ (float_value x = 0%R /\ exists sx sy, x = S754_zero sx /\ y = S754_zero sy).
Proof.
  intros Hvx Hvy Hfx Hfy Heq.
  pose proof (SFcompare_spec x y Hvx Hvy Hfx Hfy) as Hc.
  destruct x as [sx|sx| |sx mx ex]; try discriminate;
    destruct y as [sy|sy| |sy my ey]; try discriminate.
  - right. split; [reflexivity |]. eauto.
  - exfalso. cbn [SFcompare] in Hc. destruct sy; lra.
  - exfalso. cbn [SFcompare] in Hc. destruct sx; lra.
  - left. apply SFcompare_Eq_finite.
    destruct (SFcompare (S754_finite sx mx ex) (S754_finite sy my ey))
      as [[| |]|]; try reflexivity; try lra; contradiction.
Qed.

(** ** No NaN, and no overflow below the largest power *)

Lemma nearest_le_format (x r y : R) :
  nearest x r -> format y -> (x <= y)%R -> (r <= y)%R.
Proof.
  intros [_ Hn] Hy Hxy. specialize (Hn y Hy).
  revert Hn. unfold Rabs. repeat destruct Rcase_abs; lra.
Qed.

Lemma nearest_ge_format (x r y : R) :
  nearest x r -> format y -> (y <= x)%R -> (y <= r)%R.
Proof.
  intros [_ Hn] Hy Hxy. specialize (Hn y Hy).
  revert Hn. unfold Rabs. repeat destruct Rcase_abs; lra.
Qed.

Lemma binary_round_aux_not_nan (s : bool) (m e : Z) (l : location) (x : R) :
  0 <= m -> inbetween m e x l -> e <= fexp (Zdigits2 m + e) ->
  binary_round_aux prec emax s m e l <> S754_nan.
Proof.
  intros Hm Hx He.
  destruct (binary_round_aux_spec s m e l x Hm Hx He)
    as (m' & e' & _ & Hcan & ->).
  destruct m' as [|p|p]; try discriminate.
  - destruct (e' <=? emax - prec); discriminate.
  - destruct Hcan as [? | [? _]]; lia.
Qed.

Lemma binary_round_aux_finite (s : bool) (m e : Z) (l : location) (x y : R) :
  0 <= m -> inbetween m e x l -> e <= fexp (Zdigits2 m + e) ->
  format y -> (x <= y)%R -> (y < bpow emax)%R ->
  Py.is_finite (binary_round_aux prec emax s m e l) = true.
Proof.
  intros Hm Hx He Hy Hxy Hymax.
  destruct (binary_round_aux_spec s m e l x Hm Hx He)
    as (m' & e' & Hnear & Hcan & ->).
  destruct m' as [|p|p]; [reflexivity | | destruct Hcan as [? | [? _]]; lia].
  destruct (Z.leb_spec e' (emax - prec)) as [Hle | Hgt]; [reflexivity | exfalso].
  destruct Hcan as [? | [Hp Hfe]]; [discriminate |].
  pose proof (nearest_le_format _ _ _ Hnear Hy Hxy) as Hr.
  pose proof (Zdigits2_bounds (Z.pos p) ltac:(lia)) as [Hlo _].
  rewrite fexp_spec in Hfe. unfold SpecFloat.emin in Hfe.
  assert (Hd : Zdigits2 (Z.pos p) = prec) by lia.
  rewrite Hd in Hlo.
  assert (bpow emax <= IZR (Z.pos p) * bpow e')%R; [| lra].
  apply Rle_trans with (IZR (2 ^ (prec - 1)) * bpow e')%R.
  - rewrite <- bpow_IZR, <- bpow_plus by lia. apply bpow_le. lia.
  - pose proof (bpow_gt_0 e').
    apply Rmult_le_compat_r; [lra | apply IZR_le; lia].
Qed.

(** ** Results that stay finite *)

Lemma Rabs_signed (s : bool) (x : R) : Rabs (signed s x) = Rabs x.
Proof. destruct s; cbn [signed]; [apply Rabs_Ropp | reflexivity]. Qed.

Lemma Rabs_le_inv' (x y : R) : (Rabs x <= y)%R -> (- y <= x <= y)%R.
Proof. unfold Rabs. destruct Rcase_abs; lra. Qed.

Lemma in_range_bpow (n : Z) : emin <= n < emax -> in_range (bpow n).
Proof.
  intros Hn. split.
  - exists 1, n. split; [lra |]. split; [| lia].
    simpl. apply (Z.pow_lt_mono_r 2 0 prec); lia.
  - pose proof (bpow_gt_0 n). split; [lra | apply bpow_lt; lia].
Qed.

(** Rounding does not leave an interval whose ends are in the format. *)
Lemma rounds_to_bounded (x y : R) (f : spec_float) :
  rounds_to x f -> in_range y -> (Rabs x <= y)%R ->
  (Rabs (float_value f) <= y)%R.
Proof.
  intros (_ & _ & Hn) [Hy _] Hx. apply Rabs_le_inv' in Hx.
  pose proof (nearest_le_format _ _ _ Hn Hy ltac:(lra)) as Hup.
  pose proof (nearest_ge_format _ _ _ Hn (format_opp _ Hy) ltac:(lra)) as Hlo.
  unfold Rabs. destruct Rcase_abs; lra.
Qed.

Lemma binary_round_finite (s : bool) (m : positive) (e : Z) (y : R) :
  in_range y -> (IZR (Z.pos m) * bpow e <= y)%R ->
  Py.is_finite (binary_round prec emax s m e) = true.
Proof.
  intros [Hy [_ Hmax]] Hx.
  destruct (binary_round_aligned s m e) as (m' & e' & -> & Hm & Hin & He).
  apply (binary_round_aux_finite s m' e' loc_Exact
           (IZR (Z.pos m) * bpow e) y); assumption.
Qed.

Lemma binary_normalize_finite (z e : Z) (szero : bool) (y : R) :
  in_range y -> (Rabs (IZR z * bpow e) <= y)%R ->
  Py.is_finite (binary_normalize prec emax z e szero) = true.
Proof.
  intros Hy Hx. apply Rabs_le_inv' in Hx.
  destruct z as [|p|p]; cbn [binary_normalize].
  - reflexivity.
  - apply binary_round_finite with y; [assumption | lra].
  - apply binary_round_finite with y; [assumption |].
    change (Z.neg p) with (- Z.pos p) in Hx. rewrite opp_IZR in Hx. lra.
Qed.

Lemma SFmul_finite (x c : spec_float) (y : R) :
  valid x = true -> valid c = true ->
  Py.is_finite x = true -> Py.is_finite c = true ->
  in_range y -> (Rabs (float_value x * float_value c) <= y)%R ->
  Py.is_finite (SFmul prec emax x c) = true.
Proof.
  intros Hvx Hvc Hfx Hfc [Hy [_ Hmax]] Hb.
  destruct x as [sx|sx| |sx mx ex]; try discriminate;
    destruct c as [sy|sy| |sy my ey]; try discriminate; try reflexivity.
  cbn [SFmul]. rewrite SFmul_exact_value, Rabs_signed in Hb.
  apply Rabs_le_inv' in Hb.
  apply (binary_round_aux_finite (xorb sx sy) (Z.pos (mx * my)) (ex + ey)
           loc_Exact (IZR (Z.pos (mx * my)) * bpow (ex + ey)) y);
    try assumption; [lia | reflexivity | | lra].
  apply (SFmul_exponent sx sy); assumption.
Qed.

Lemma SFsub_finite (x c : spec_float) (y : R) :
  Py.is_finite x = true -> Py.is_finite c = true ->
  in_range y -> (Rabs (float_value x - float_value c) <= y)%R ->
  Py.is_finite (SFsub prec emax x c) = true.
Proof.
  intros Hfx Hfc Hy Hb.
  destruct x as [sx|sx| |sx mx ex]; try discriminate;
    destruct c as [sy|sy| |sy my ey]; try discriminate;
    try (destruct sx, sy; reflexivity); try reflexivity.
  cbn [SFsub]. apply binary_normalize_finite with y; [assumption |].
  rewrite SFsub_exact_value. exact Hb.
Qed.

Lemma SFdiv_finite (x c : spec_float) (y : R) :
  Py.is_finite x = true ->
  (exists s m e, c = S754_finite s m e) ->
  in_range y -> (Rabs (float_value x / float_value c) <= y)%R ->
  Py.is_finite (SFdiv prec emax x c) = true.
Proof.
  intros Hfx (sy & my & ey & ->) [Hy [_ Hmax]] Hb.
  destruct x as [sx|sx| |sx mx ex]; try discriminate; [reflexivity |].
  cbn [SFdiv].
  pose proof (SFdiv_core_binary_spec (Z.pos mx) ex (Z.pos my) ey
                ltac:(lia) ltac:(lia)) as Hcore.
  destruct (SFdiv_core_binary prec emax (Z.pos mx) ex (Z.pos my) ey)
    as [[mz ez] lz].
  destruct Hcore as (Hq & Hin & He).
  rewrite !float_value_finite, signed_div, Rabs_signed in Hb.
  apply Rabs_le_inv' in Hb.
  apply (binary_round_aux_finite (xorb sx sy) mz ez lz
           (IZR (Z.pos mx) * bpow ex / (IZR (Z.pos my) * bpow ey)) y);
    try assumption. lra.
Qed.

End Rounding.

(** * The bitrate calculation and the size in megabytes *)

(** ** Truncation and floor of a float *)

Lemma scaled_remainder (a r p b : R) :
  (b * p = 1 -> 0 < b -> 0 <= r < p ->
   a <= (p * a + r) * b < a + 1)%R.
Proof.
  intros Hb Hb0 [Hr0 Hr1].
  replace ((p * a + r) * b)%R with (a * (b * p) + r * b)%R by ring.
  rewrite Hb.
  assert (0 <= r * b)%R by (apply Rmult_le_pos; lra).
  assert (r * b < p * b)%R by (apply Rmult_lt_compat_r; lra).
  lra.
Qed.

Lemma magnitude_floor (m : positive) (e : Z) :
  let a := match e with
           | Z.neg p => Z.pos m / 2 ^ Z.pos p
           | _ => Z.pos m * 2 ^ e
           end in
  (IZR a <= IZR (Z.pos m) * bpow e < IZR a + 1)%R.
Proof.
  destruct e as [|p|p]; cbn zeta.
  - rewrite Z.mul_1_r, bpow_0. lra.
  - rewrite mult_IZR, <- bpow_IZR by lia. lra.
  - pose proof (pow2_pos (Z.pos p) ltac:(lia)) as Hp.
    pose proof (Z.div_mod (Z.pos m) (2 ^ Z.pos p) ltac:(lia)) as Hdm.
    pose proof (Z.mod_pos_bound (Z.pos m) (2 ^ Z.pos p) Hp) as Hr.
    set (a := Z.pos m / 2 ^ Z.pos p) in *.
    set (r := Z.pos m mod 2 ^ Z.pos p) in *.
    assert (Hb : (bpow (Z.neg p) * IZR (2 ^ Z.pos p) = 1)%R).
    { rewrite <- bpow_IZR, <- bpow_plus by lia.
      replace (Z.neg p + Z.pos p) with 0 by lia. apply bpow_0. }
    pose proof (bpow_gt_0 (Z.neg p)) as Hb0.
    rewrite Hdm, plus_IZR, mult_IZR.
    apply (scaled_remainder _ _ _ _ Hb Hb0).
    split; [apply IZR_le | apply IZR_lt]; lia.
Qed.

(** [int(x)] keeps the integer part: the floor of a non-negative value, the
    ceiling of a non-positive one. *)
Lemma trunc_spec (f : Py.float) :
  (0 <= float_value f -> IZR (Py.trunc f) <= float_value f < IZR (Py.trunc f) + 1)%R /\
  (float_value f <= 0 -> IZR (Py.trunc f) - 1 < float_value f <= IZR (Py.trunc f))%R.
Proof.
  destruct f as [s|s| |s m e]; cbn [Py.trunc];
    try (cbn [float_value]; split; lra).
  pose proof (magnitude_floor m e) as H. cbn zeta in H.
  rewrite float_value_finite.
  set (a := match e with
            | Z.neg p => Z.pos m / 2 ^ Z.pos p
            | _ => Z.pos m * 2 ^ e
            end) in *.
  assert (0 < IZR (Z.pos m) * bpow e)%R.
  { apply Rmult_lt_0_compat; [apply IZR_lt; lia | apply bpow_gt_0]. }
  destruct s; cbn [signed]; rewrite ?opp_IZR; split; lra.
Qed.

Lemma floor_spec (f : Py.float) :
  (IZR (Py.floor f) <= float_value f < IZR (Py.floor f) + 1)%R.
Proof.
  destruct f as [s|s| |s m e]; cbn [Py.floor float_value]; try lra.
  destruct s.
  - destruct e as [|p|p].
    + rewrite Z.mul_1_r, bpow_0. lra.
    + rewrite mult_IZR, <- bpow_IZR by lia. lra.
    + pose proof (pow2_pos (Z.pos p) ltac:(lia)) as Hp.
      pose proof (Z.div_mod (Z.neg m) (2 ^ Z.pos p) ltac:(lia)) as Hdm.
      pose proof (Z.mod_pos_bound (Z.neg m) (2 ^ Z.pos p) Hp) as Hr.
      set (a := Z.neg m / 2 ^ Z.pos p) in *.
      set (r := Z.neg m mod 2 ^ Z.pos p) in *.
      assert (Hb : (bpow (Z.neg p) * IZR (2 ^ Z.pos p) = 1)%R).
      { rewrite <- bpow_IZR, <- bpow_plus by lia.
        replace (Z.neg p + Z.pos p) with 0 by lia. apply bpow_0. }
      pose proof (bpow_gt_0 (Z.neg p)) as Hb0.
      rewrite Hdm, plus_IZR, mult_IZR.
      apply (scaled_remainder _ _ _ _ Hb Hb0).
      split; [apply IZR_le | apply IZR_lt]; lia.
  - pose proof (magnitude_floor m e) as H. cbn zeta in H.
    destruct e; exact H.
Qed.

Lemma trunc_sign (f : Py.float) :
  ((0 <= float_value f)%R -> 0 <= Py.trunc f) /\
  ((float_value f <= 0)%R -> Py.trunc f <= 0).
Proof.
  destruct (trunc_spec f) as [H0 H1]. split; intros H.
  - specialize (H0 H). assert (IZR (-1) < IZR (Py.trunc f))%R by (simpl; lra).
    apply lt_IZR in H2. lia.
  - specialize (H1 H). assert (IZR (Py.trunc f) < IZR 1)%R by (simpl; lra).
    apply lt_IZR in H2. lia.
Qed.

Lemma trunc_monotone (f g : Py.float) :
  (float_value f <= float_value g)%R -> Py.trunc f <= Py.trunc g.
Proof.
  intros Hle.
  destruct (trunc_spec f) as [Hf0 Hf1]. destruct (trunc_spec g) as [Hg0 Hg1].
  destruct (trunc_sign f) as [Sf0 Sf1]. destruct (trunc_sign g) as [Sg0 Sg1].
  destruct (Rle_lt_dec 0 (float_value f)) as [Hf | Hf].
  - assert (Hg : (0 <= float_value g)%R) by lra.
    specialize (Hf0 Hf). specialize (Hg0 Hg).
    assert (IZR (Py.trunc f) < IZR (Py.trunc g + 1))%R by (rewrite plus_IZR; lra).
    apply lt_IZR in H. lia.
  - destruct (Rle_lt_dec 0 (float_value g)) as [Hg | Hg].
    + specialize (Sf1 ltac:(lra)). specialize (Sg0 Hg). lia.
    + specialize (Hf1 ltac:(lra)). specialize (Hg1 ltac:(lra)).
      assert (IZR (Py.trunc f) < IZR (Py.trunc g + 1))%R by (rewrite plus_IZR; lra).
      apply lt_IZR in H. lia.
Qed.

(** Where [int] and [floor] differ: never on a non-negative value; on a
    negative one [int] is the larger by one unless the value is an integer. *)
Lemma trunc_floor (f : Py.float) :
  (0 <= float_value f)%R -> Py.trunc f = Py.floor f.
Proof.
  intros H. destruct (trunc_spec f) as [Ht _]. specialize (Ht H).
  pose proof (floor_spec f) as Hfl.
  assert (H0 : (IZR (Py.trunc f) < IZR (Py.floor f + 1))%R) by (rewrite plus_IZR; lra).
  assert (H1 : (IZR (Py.floor f) < IZR (Py.trunc f + 1))%R) by (rewrite plus_IZR; lra).
  apply lt_IZR in H0, H1. lia.
Qed.
(** ** Python's comparisons and the order of the reals *)

Lemma prec_pos : 0 < Py.prec.
Proof. reflexivity. Qed.

Lemma prec_lt_emax : Py.prec < Py.emax.
Proof. reflexivity. Qed.

Lemma compare_IZR (a b : Z) :
  match a ?= b with
  | Lt => (IZR a < IZR b)%R
  | Eq => IZR a = IZR b
  | Gt => (IZR b < IZR a)%R
  end.
Proof.
  destruct (Z.compare_spec a b) as [-> | H | H];
    [reflexivity | apply IZR_lt; assumption | apply IZR_lt; assumption].
Qed.

Lemma compare_float_int_spec (f : Py.float) (z : Z) :
  Py.is_finite f = true ->
  match Py.compare_float_int f z with
  | Some Lt => (float_value f < IZR z)%R
  | Some Eq => float_value f = IZR z
  | Some Gt => (IZR z < float_value f)%R
  | None => False
  end.
Proof.
  destruct f as [s|s| |s m e]; try discriminate; intros _;
    cbn [Py.compare_float_int float_value].
  - apply (compare_IZR 0 z).
  - set (sm := if s then Z.neg m else Z.pos m).
    destruct e as [|p|p].
    + rewrite bpow_0, Rmult_1_r. rewrite Z.mul_1_r. apply compare_IZR.
    + pose proof (compare_IZR (sm * 2 ^ Z.pos p) z) as H.
      rewrite mult_IZR, <- bpow_IZR in H by lia. exact H.
    + pose proof (compare_IZR sm (z * 2 ^ Z.pos p)) as H.
      rewrite mult_IZR in H.
      pose proof (pow2_pos (Z.pos p) ltac:(lia)) as Hp.
      assert (Hb : (bpow (Z.neg p) * IZR (2 ^ Z.pos p) = 1)%R).
      { rewrite <- bpow_IZR, <- bpow_plus by lia.
        replace (Z.neg p + Z.pos p) with 0 by lia. apply bpow_0. }
      pose proof (bpow_gt_0 (Z.neg p)) as Hb0.
      assert (HP : (0 < IZR (2 ^ Z.pos p))%R) by (apply IZR_lt; assumption).
      set (P := IZR (2 ^ Z.pos p)) in *. set (B := bpow (Z.neg p)) in *.
      destruct (sm ?= z * 2 ^ Z.pos p).
      * rewrite H. rewrite Rmult_assoc, (Rmult_comm P B), Hb. lra.
      * apply Rmult_lt_reg_r with P; [assumption |].
        rewrite Rmult_assoc, Hb. lra.
      * apply Rmult_lt_reg_r with P; [assumption |].
        rewrite Rmult_assoc, Hb. lra.
Qed.

Lemma compare_spec (a b : Py.num) :
  valid_num a -> valid_num b -> finite_num a -> finite_num b ->
  match Py.compare a b with
  | Some Lt => (num_value a < num_value b)%R
  | Some Eq => num_value a = num_value b
  | Some Gt => (num_value b < num_value a)%R
  | None => False
  end.
Proof.
  intros Hva Hvb Hfa Hfb.
  destruct a as [x | x], b as [y | y]; cbn [Py.compare num_value].
  - apply compare_IZR.
  - pose proof (compare_float_int_spec y x Hfb) as H.
    destruct (Py.compare_float_int y x) as [[| |]|]; cbn [option_map CompOpp];
      auto.
  - apply compare_float_int_spec. assumption.
  - apply (SFcompare_spec Py.prec Py.emax); auto using prec_pos, prec_lt_emax.
Qed.

Lemma lt_spec (a b : Py.num) :
  valid_num a -> valid_num b -> finite_num a -> finite_num b ->
  Py.lt a b = true -> (num_value a < num_value b)%R.
Proof.
  intros Hva Hvb Hfa Hfb. unfold Py.lt.
  pose proof (compare_spec a b Hva Hvb Hfa Hfb) as H.
  destruct (Py.compare a b) as [[| |]|]; try discriminate. intros _. exact H.
Qed.

Lemma le_spec (a b : Py.num) :
  valid_num a -> valid_num b -> finite_num a -> finite_num b ->
  (Py.le a b = true <-> (num_value a <= num_value b)%R).
Proof.
  intros Hva Hvb Hfa Hfb. unfold Py.le.
  pose proof (compare_spec a b Hva Hvb Hfa Hfb) as H.
  destruct (Py.compare a b) as [[| |]|]; try contradiction;
    split; intros H'; try reflexivity; try discriminate; lra.
Qed.

(** A float that Python finds greater than 0 is a positive finite float or
    plus infinity. *)
Lemma positive_float (d : Py.float) :
  Py.lt (Py.Int 0) (Py.Float d) = true ->
  d = S754_infinity false \/ exists m e, d = S754_finite false m e.
Proof.
  unfold Py.lt. cbn [Py.compare].
  destruct d as [s|s| |s m e]; cbn [Py.compare_float_int option_map].
  - simpl. discriminate.
  - destruct s; [discriminate | auto].
  - discriminate.
  - destruct s; [| eauto].
    destruct e as [|p|p]; cbn [CompOpp]; intros H; exfalso.
    + destruct (Z.compare_spec (Z.neg m * 2 ^ 0) 0); try discriminate; lia.
    + pose proof (pow2_pos (Z.pos p) ltac:(lia)).
      destruct (Z.compare_spec (Z.neg m * 2 ^ Z.pos p) 0); try discriminate; lia.
    + destruct (Z.compare_spec (Z.neg m) (0 * 2 ^ Z.pos p)); try discriminate; lia.
Qed.
(** ** The stages of the bitrate calculation *)

Lemma float_constants :
  Py.float_of_int 8 = Py.Ok f8 /\ Py.float_of_int 1024 = Py.Ok f1024 /\
  Py.float_of_int 1000 = Py.Ok f1000 /\ Py.float_of_int 128 = Py.Ok f128.
Proof. repeat split; vm_compute; reflexivity. Qed.

Lemma target_video_bitrate_stages (t : Py.num) (d : Py.float) :
  target_video_bitrate t (Py.Float d) =
  (b <-? dividend t ;;
   if Py.is_zero d then Py.Err Py.ZeroDivisionError
   else Py.int (Py.Float (scaled_of b d))).
Proof.
  destruct t as [z | f].
  - unfold target_video_bitrate, dividend. cbn [Py.mul Py.rbind Py.truediv Py.to_float].
    destruct (Py.float_of_int (z * 8 * 1024 * 1024)) as [b | e]; [| reflexivity].
    cbn [Py.rbind]. unfold Py.float_truediv.
    destruct (Py.is_zero d); reflexivity.
  - unfold target_video_bitrate, dividend. cbn [Py.mul Py.rbind Py.truediv Py.to_float].
    destruct float_constants as (H8 & H1024 & _).
    rewrite H8. cbn [Py.rbind Py.mul Py.to_float].
    rewrite H1024. cbn [Py.rbind Py.mul Py.to_float Py.truediv].
    rewrite H1024. cbn [Py.rbind Py.mul Py.to_float Py.truediv].
    unfold Py.float_truediv.
    destruct (Py.is_zero d); reflexivity.
Qed.

Section Stages.

Local Abbreviation valid f := (valid_binary Py.prec Py.emax f = true).
Local Abbreviation rounds := (rounds_to Py.prec Py.emax).
Local Abbreviation fmt := (format Py.prec Py.emax).

Lemma finite_positive_value (m : positive) (e : Z) :
  (0 < float_value (S754_finite false m e))%R.
Proof.
  cbn [float_value].
  apply Rmult_lt_0_compat; [apply IZR_lt; lia | apply bpow_gt_0].
Qed.

(** A step that rounds a strictly increasing function of the value is a
    stage. *)
Lemma rounding_stage (g : Py.float -> Py.float) (h : R -> R) :
  (forall x, Py.is_finite (g x) = true -> Py.is_finite x = true) ->
  (forall x, valid x -> Py.is_finite x = true -> Py.is_finite (g x) = true ->
             rounds (h (float_value x)) (g x)) ->
  (forall a b, (a < b)%R -> (h a < h b)%R) ->
  fmt (h 0%R) ->
  stage g.
Proof.
  intros Hfin Hround Hinc Hzero. split; [exact Hfin |]. split.
  - intros x Hv Hf. apply (Hround x Hv (Hfin x Hf) Hf).
  - intros x y Hvx Hvy Hfx Hfy Hle.
    pose proof (Hround x Hvx (Hfin x Hfx) Hfx) as (_ & _ & Hnx).
    pose proof (Hround y Hvy (Hfin y Hfy) Hfy) as (_ & _ & Hny).
    destruct (Rle_lt_or_eq_dec _ _ Hle) as [Hlt | Heq].
    + eapply nearest_monotone; [apply Hinc, Hlt | exact Hnx | exact Hny].
    + assert (Hsame : x = y \/ (float_value x = 0%R /\
                exists sx sy, x = S754_zero sx /\ y = S754_zero sy)).
      { eapply valid_value_inj; eauto using prec_pos, prec_lt_emax. }
      destruct Hsame as [-> | (Hx0 & _)]; [lra |].
      rewrite <- Heq, Hx0 in Hny. rewrite Hx0 in Hnx.
      rewrite (nearest_of_format _ _ _ _ Hnx Hzero).
      rewrite (nearest_of_format _ _ _ _ Hny Hzero). lra.
Qed.

Lemma stage_compose (g1 g2 : Py.float -> Py.float) :
  stage g1 -> stage g2 -> stage (fun x => g2 (g1 x)).
Proof.
  intros (F1 & V1 & M1) (F2 & V2 & M2). split; [| split].
  - intros x H. apply F1, F2, H.
  - intros x Hv H. apply V2; [apply V1; [assumption | apply F2, H] | exact H].
  - intros x y Hvx Hvy Hfx Hfy Hle.
    apply M2; try assumption.
    + apply V1; [assumption | apply F2, Hfx].
    + apply V1; [assumption | apply F2, Hfy].
    + apply M1; try assumption; [apply F2, Hfx | apply F2, Hfy].
Qed.

Lemma div_stage (m : positive) (e : Z) :
  valid (S754_finite false m e) ->
  stage (fun x => SFdiv Py.prec Py.emax x (S754_finite false m e)).
Proof.
  intros Hc. pose proof (finite_positive_value m e) as Hpos.
  apply rounding_stage with (h := fun a => (a / float_value (S754_finite false m e))%R).
  - intros [s|s| |s mx ex]; cbn [SFdiv Py.is_finite]; auto.
  - intros x Hv Hf Hg.
    apply SFdiv_rounds; eauto using prec_pos, prec_lt_emax.
  - intros a b Hab. unfold Rdiv. apply Rmult_lt_compat_r; [| exact Hab].
    apply Rinv_0_lt_compat. exact Hpos.
  - replace (0 / float_value (S754_finite false m e))%R with 0%R
      by (unfold Rdiv; lra).
    apply format_0. exact prec_pos.
Qed.

Lemma div_infinity_stage :
  stage (fun x => SFdiv Py.prec Py.emax x (S754_infinity false)).
Proof.
  split; [| split].
  - intros [s|s| |s m e]; cbn [SFdiv Py.is_finite]; auto.
  - intros [s|s| |s m e]; cbn [SFdiv Py.is_finite]; try discriminate; reflexivity.
  - intros [s|s| |s m e] [s'|s'| |s' m' e']; cbn [SFdiv Py.is_finite float_value];
      try discriminate; intros; lra.
Qed.

Lemma sub_stage (s : bool) (m : positive) (e : Z) :
  valid (S754_finite s m e) ->
  stage (fun x => SFsub Py.prec Py.emax x (S754_finite s m e)).
Proof.
  intros Hc.
  apply rounding_stage with (h := fun a => (a - float_value (S754_finite s m e))%R).
  - intros [sx|sx| |sx mx ex]; cbn [SFsub Py.is_finite]; auto.
  - intros x Hv Hf Hg.
    apply SFsub_rounds; eauto using prec_pos, prec_lt_emax.
  - intros a b Hab. lra.
  - replace (0 - float_value (S754_finite s m e))%R
      with (- float_value (S754_finite s m e))%R by lra.
    apply format_opp, valid_format; auto using prec_pos, prec_lt_emax.
Qed.

Lemma mul_stage (m : positive) (e : Z) :
  valid (S754_finite false m e) ->
  stage (fun x => SFmul Py.prec Py.emax x (S754_finite false m e)).
Proof.
  intros Hc. pose proof (finite_positive_value m e) as Hpos.
  apply rounding_stage with (h := fun a => (a * float_value (S754_finite false m e))%R).
  - intros [sx|sx| |sx mx ex]; cbn [SFmul Py.is_finite]; auto.
  - intros x Hv Hf Hg.
    apply SFmul_rounds; eauto using prec_pos, prec_lt_emax.
  - intros a b Hab. apply Rmult_lt_compat_r; assumption.
  - rewrite Rmult_0_l. apply format_0. exact prec_pos.
Qed.

(** From the dividend to the value handed to [int], for a positive
    duration. *)
Lemma scaled_stage (d : Py.float) :
  valid d -> Py.lt (Py.Int 0) (Py.Float d) = true ->
  stage (fun b => scaled_of b d).
Proof.
  intros Hd Hpos. unfold scaled_of.
  apply (stage_compose
           (fun b => SFsub Py.prec Py.emax
              (SFdiv Py.prec Py.emax (SFdiv Py.prec Py.emax b d) f1000) f128)
           (fun w => SFmul Py.prec Py.emax w Py.lit_0_95));
    [| apply mul_stage; reflexivity].
  apply (stage_compose
           (fun b => SFdiv Py.prec Py.emax (SFdiv Py.prec Py.emax b d) f1000)
           (fun q => SFsub Py.prec Py.emax q f128));
    [| apply sub_stage; reflexivity].
  apply (stage_compose
           (fun b => SFdiv Py.prec Py.emax b d)
           (fun q => SFdiv Py.prec Py.emax q f1000));
    [| apply div_stage; reflexivity].
  destruct (positive_float d Hpos) as [-> | (m & e & ->)].
  - apply div_infinity_stage.
  - apply div_stage. exact Hd.
Qed.

(** Multiplying by a power of two is exact as long as the result is
    finite. *)
Lemma mul_pow2_exact (x c : Py.float) (n : Z) :
  valid x -> valid c -> Py.is_finite x = true -> Py.is_finite c = true ->
  0 <= n -> float_value c = bpow n ->
  Py.is_finite (SFmul Py.prec Py.emax x c) = true ->
  valid (SFmul Py.prec Py.emax x c) /\
  float_value (SFmul Py.prec Py.emax x c) = (float_value x * bpow n)%R.
Proof.
  intros Hvx Hvc Hfx Hfc Hn Hc Hfin.
  assert (Hr : rounds (float_value x * float_value c) (SFmul Py.prec Py.emax x c)).
  { apply SFmul_rounds; auto using prec_pos, prec_lt_emax. }
  destruct Hr as (Hv & _ & Hnear).
  split; [exact Hv |].
  rewrite Hc in Hnear. eapply nearest_of_format; [exact Hnear |].
  apply format_scale; auto using prec_pos, prec_lt_emax.
  apply valid_format; auto using prec_pos, prec_lt_emax.
Qed.

Lemma mul_finite_left (x c : Py.float) :
  Py.is_finite (SFmul Py.prec Py.emax x c) = true -> Py.is_finite x = true.
Proof.
  destruct x as [s|s| |s m e]; auto;
    destruct c as [s'|s'| |s' m' e']; cbn [SFmul Py.is_finite]; auto.
Qed.

Lemma float_of_int_rounds (z : Z) (b : Py.float) :
  Py.float_of_int z = Py.Ok b ->
  Py.is_finite b = true -> rounds (IZR z) b.
Proof.
  unfold Py.float_of_int.
  destruct (Py.is_inf (binary_normalize Py.prec Py.emax z 0 false));
    [discriminate |].
  intros H. injection H as <-. intros Hfin.
  replace (IZR z) with (IZR z * bpow 0)%R by (rewrite bpow_0; lra).
  apply binary_normalize_rounds; auto using prec_pos, prec_lt_emax.
Qed.

(** The dividend is the target size times [8 * 1024 * 1024], rounded once
    (for an [int]) or exact (for a [float]). *)
Lemma dividend_rounds (t : Py.num) (b : Py.float) :
  valid_num t -> dividend t = Py.Ok b -> Py.is_finite b = true ->
  finite_num t /\ rounds (num_value t * 8388608) b.
Proof.
  intros Hv Hb Hfin. destruct t as [z | f]; cbn [dividend num_value finite_num] in *.
  - split; [exact I |].
    replace (IZR z * 8388608)%R with (IZR (z * 8 * 1024 * 1024))
      by (rewrite !mult_IZR; lra).
    apply float_of_int_rounds; assumption.
  - injection Hb as <-.
    pose proof (mul_finite_left _ _ Hfin) as Hf2.
    pose proof (mul_finite_left _ _ Hf2) as Hf1.
    pose proof (mul_finite_left _ _ Hf1) as Hf0.
    split; [exact Hf0 |].
    assert (H8 : float_value f8 = bpow 3).
    { cbn [f8 float_value]. change 4503599627370496 with (2 ^ 52).
      rewrite <- bpow_IZR, <- bpow_plus by lia. reflexivity. }
    assert (H1024 : float_value f1024 = bpow 10).
    { cbn [f1024 float_value]. change 4503599627370496 with (2 ^ 52).
      rewrite <- bpow_IZR, <- bpow_plus by lia. reflexivity. }
    destruct (mul_pow2_exact f f8 3 Hv eq_refl Hf0 eq_refl ltac:(lia) H8 Hf1)
      as [Hv1 E1].
    destruct (mul_pow2_exact _ f1024 10 Hv1 eq_refl Hf1 eq_refl ltac:(lia) H1024 Hf2)
      as [Hv2 E2].
    destruct (mul_pow2_exact _ f1024 10 Hv2 eq_refl Hf2 eq_refl ltac:(lia) H1024 Hfin)
      as [Hv3 E3].
    replace (float_value f * 8388608)%R
      with (float_value (SFmul Py.prec Py.emax
              (SFmul Py.prec Py.emax (SFmul Py.prec Py.emax f f8) f1024) f1024)).
    + apply rounds_to_self; auto using prec_pos, prec_lt_emax.
    + rewrite E3, E2, E1, (bpow_IZR 3), (bpow_IZR 10) by lia.
      change (2 ^ 3) with 8. change (2 ^ 10) with 1024. lra.
Qed.

End Stages.
(** ** The bitrate calculation *)

Lemma int_of_float (f : Py.float) (v : Z) :
  Py.int (Py.Float f) = Py.Ok v -> Py.is_finite f = true /\ v = Py.trunc f.
Proof.
  cbn [Py.int]. destruct f as [s|s| |s m e]; cbn [Py.is_nan Py.is_inf];
    try discriminate; intros H; injection H as <-; split; reflexivity.
Qed.

(** C3: for a fixed positive duration the computed bitrate does not decrease
    when the target size grows.  Both targets may be [int]s or [float]s, and
    the order between them is Python's; nothing is asked of their sign. *)
Theorem bitrate_monotone (t1 t2 : Py.num) (d : Py.float) (v1 v2 : Z) :
  valid_num t1 -> valid_num t2 -> valid_binary Py.prec Py.emax d = true ->
  Py.lt (Py.Int 0) (Py.Float d) = true ->
  Py.lt t1 t2 = true ->
  target_video_bitrate t1 (Py.Float d) = Py.Ok v1 ->
  target_video_bitrate t2 (Py.Float d) = Py.Ok v2 ->
  v1 <= v2.
Proof.
  intros Hv1 Hv2 Hvd Hd Hlt H1 H2.
  rewrite target_video_bitrate_stages in H1, H2.
  destruct (dividend t1) as [b1 | ?] eqn:Hb1; [| discriminate].
  destruct (dividend t2) as [b2 | ?] eqn:Hb2; [| discriminate].
  cbn [Py.rbind] in H1, H2.
  destruct (Py.is_zero d); [discriminate |].
  apply int_of_float in H1, H2.
  destruct H1 as [Hf1 ->]. destruct H2 as [Hf2 ->].
  destruct (scaled_stage d Hvd Hd) as (Hfin & _ & Hmono).
  destruct (dividend_rounds t1 b1 Hv1 Hb1 (Hfin _ Hf1)) as (Ht1 & Hvb1 & _ & Hn1).
  destruct (dividend_rounds t2 b2 Hv2 Hb2 (Hfin _ Hf2)) as (Ht2 & Hvb2 & _ & Hn2).
  pose proof (lt_spec t1 t2 Hv1 Hv2 Ht1 Ht2 Hlt) as Hlt'.
  apply trunc_monotone, Hmono; try assumption.
  eapply nearest_monotone; [| exact Hn1 | exact Hn2]. lra.
Qed.

Lemma target_video_bitrate_scaled (t d : Py.num) :
  target_video_bitrate t d = (x <-? scaled_bitrate t d ;; Py.int x).
Proof.
  unfold target_video_bitrate, scaled_bitrate.
  repeat match goal with
         | |- Py.rbind ?c _ = Py.rbind (Py.rbind ?c _) _ =>
           destruct c; cbn [Py.rbind]; [| reflexivity]
         | |- Py.rbind ?c _ = Py.rbind ?c _ => reflexivity
         end.
Qed.

Lemma spec_video_kbps_scaled (t d : Py.num) :
  spec_video_kbps t d = (x <-? scaled_bitrate t d ;; Py.math_floor x).
Proof.
  unfold spec_video_kbps, scaled_bitrate, audio_bitrate_kbps.
  repeat match goal with
         | |- Py.rbind ?c _ = Py.rbind (Py.rbind ?c _) _ =>
           destruct c; cbn [Py.rbind]; [| reflexivity]
         | |- Py.rbind ?c _ = Py.rbind ?c _ => reflexivity
         end.
Qed.

Lemma scaled_bitrate_float (t d x : Py.num) :
  scaled_bitrate t d = Py.Ok x -> exists f, x = Py.Float f.
Proof.
  unfold scaled_bitrate.
  repeat match goal with
         | |- Py.rbind ?c _ = _ -> _ =>
           destruct c as [[?|?]|?]; cbn [Py.rbind]; try discriminate
         end;
    cbn [Py.mul Py.to_float Py.rbind];
    repeat match goal with
           | |- Py.rbind ?c _ = _ -> _ =>
             destruct c; cbn [Py.rbind]; try discriminate
           end;
    intros H; injection H as <-; eauto.
Qed.

(** What [int] returns in the calculation, next to the formula with
    [floor]: the two agree when the value is not negative or is an integer;
    on a negative value that is not an integer [int] gives one more. *)
Lemma int_of_scaled_bitrate (t d : Py.num) (v : Z) :
  target_video_bitrate t d = Py.Ok v ->
  exists (f : Py.float) (w : Z),
    scaled_bitrate t d = Py.Ok (Py.Float f) /\
    Py.is_finite f = true /\
    spec_video_kbps t d = Py.Ok w /\
    (IZR w <= float_value f < IZR w + 1)%R /\
    ((0 <= float_value f)%R -> v = w) /\
    ((float_value f < 0)%R -> float_value f <> IZR w -> v = w + 1) /\
    ((float_value f < 0)%R -> float_value f = IZR w -> v = w).
Proof.
  rewrite target_video_bitrate_scaled, spec_video_kbps_scaled.
  destruct (scaled_bitrate t d) as [x | ?] eqn:Hx; [| discriminate].
  destruct (scaled_bitrate_float t d x Hx) as [f ->].
  cbn [Py.rbind]. intros Hv. apply int_of_float in Hv. destruct Hv as [Hf ->].
  exists f, (Py.floor f).
  split; [reflexivity |]. split; [exact Hf |].
  split.
  { cbn [Py.math_floor]. destruct f; try discriminate; reflexivity. }
  pose proof (floor_spec f) as Hfl.
  destruct (trunc_spec f) as [Ht0 Ht1].
  split; [exact Hfl |]. split; [apply trunc_floor |]. split.
  - intros Hneg Hne. specialize (Ht1 ltac:(lra)).
    assert (H1 : (IZR (Py.floor f) < IZR (Py.trunc f))%R) by lra.
    assert (H2 : (IZR (Py.trunc f) < IZR (Py.floor f + 2))%R)
      by (rewrite plus_IZR; lra).
    apply lt_IZR in H1, H2. lia.
  - intros Hneg Heq. specialize (Ht1 ltac:(lra)).
    assert (H1 : (IZR (Py.floor f - 1) < IZR (Py.trunc f))%R)
      by (rewrite minus_IZR; lra).
    assert (H2 : (IZR (Py.trunc f) < IZR (Py.floor f + 1))%R)
      by (rewrite plus_IZR; lra).
    apply lt_IZR in H1, H2. lia.
Qed.
(** ** Division of integers, and the size in megabytes *)

Lemma IZR_abs (a : Z) : IZR (Z.abs a) = signed (a <? 0) (IZR a).
Proof.
  destruct (Z.ltb_spec a 0); cbn [signed].
  - rewrite Z.abs_neq, opp_IZR by lia. reflexivity.
  - rewrite Z.abs_eq by lia. reflexivity.
Qed.

Lemma int_truediv_rounds (a b : Z) (f : Py.float) :
  Py.int_truediv a b = Py.Ok f ->
  rounds_to Py.prec Py.emax (IZR a / IZR b) f.
Proof.
  unfold Py.int_truediv.
  destruct (Z.eq_dec b 0) as [-> | Hb]; [discriminate |].
  destruct (Z.eq_dec a 0) as [-> | Ha].
  { destruct b; try lia; intros H; injection H as <-;
      apply rounds_to_zero; auto using prec_pos; unfold Rdiv; lra. }
  assert (Hgoal :
    (let '(mz, ez, lz) := SFdiv_core_binary Py.prec Py.emax (Z.abs a) 0 (Z.abs b) 0 in
     let f0 := binary_round_aux Py.prec Py.emax (xorb (a <? 0) (b <? 0)) mz ez lz in
     if Py.is_inf f0 then Py.Err Py.OverflowError else Py.Ok f0) = Py.Ok f ->
    rounds_to Py.prec Py.emax (IZR a / IZR b) f).
  { pose proof (SFdiv_core_binary_spec Py.prec Py.emax
                  (Z.abs a) 0 (Z.abs b) 0 ltac:(lia) ltac:(lia)) as Hcore.
    destruct (SFdiv_core_binary Py.prec Py.emax (Z.abs a) 0 (Z.abs b) 0)
      as [[mz ez] lz].
    destruct Hcore as (Hq & Hin & He).
    pose proof (binary_round_aux_not_nan Py.prec Py.emax prec_pos
                  (xorb (a <? 0) (b <? 0)) mz ez lz _ Hq Hin He) as Hnan.
    pose proof (binary_round_aux_rounds Py.prec Py.emax prec_pos
                  (xorb (a <? 0) (b <? 0)) mz ez lz _ Hq Hin He) as Hr.
    destruct (binary_round_aux Py.prec Py.emax (xorb (a <? 0) (b <? 0)) mz ez lz)
      as [s|s| |s m e] eqn:Hbra; cbn [Py.is_inf]; try discriminate;
      try contradiction; intros H; injection H as <-;
      specialize (Hr eq_refl);
      (replace (IZR a / IZR b)%R
         with (signed (xorb (a <? 0) (b <? 0))
                 (IZR (Z.abs a) * bpow 0 / (IZR (Z.abs b) * bpow 0)));
       [exact Hr |]);
      rewrite bpow_0, !Rmult_1_r, !IZR_abs;
      destruct (a <? 0), (b <? 0); cbn [xorb signed];
      unfold Rdiv; rewrite ?Rinv_opp; lra. }
  destruct a as [|pa|pa], b as [|pb|pb]; try lia; exact Hgoal.
Qed.

Lemma int_truediv_returns (a b N : Z) :
  0 < a -> 0 < b -> (IZR a / IZR b <= bpow N)%R ->
  SpecFloat.emin Py.prec Py.emax <= N < Py.emax ->
  exists f, Py.int_truediv a b = Py.Ok f.
Proof.
  intros Ha Hb Hx HN.
  destruct a as [|pa|pa]; try lia. destruct b as [|pb|pb]; try lia.
  cbn [Py.int_truediv Z.abs Z.ltb Z.compare xorb].
  pose proof (SFdiv_core_binary_spec Py.prec Py.emax
                (Z.pos pa) 0 (Z.pos pb) 0 ltac:(lia) ltac:(lia)) as Hcore.
  destruct (SFdiv_core_binary Py.prec Py.emax (Z.pos pa) 0 (Z.pos pb) 0)
    as [[mz ez] lz].
  destruct Hcore as (Hq & Hin & He).
  rewrite bpow_0, !Rmult_1_r in Hin.
  assert (Hfin : Py.is_finite (binary_round_aux Py.prec Py.emax false mz ez lz) = true).
  { apply (binary_round_aux_finite Py.prec Py.emax prec_pos prec_lt_emax
             false mz ez lz _ (bpow N) Hq Hin He).
    - exists 1, N. split; [lra |]. split; [reflexivity | lia].
    - exact Hx.
    - apply bpow_lt. lia. }
  destruct (binary_round_aux Py.prec Py.emax false mz ez lz) as [s|s| |s m e];
    try discriminate; cbn [Py.is_inf]; eauto.
Qed.
Lemma measured_mb_float {m : machine} (w : world) (path : string)
  (cur : Py.num) :
  measured_mb w path = Py.Ok cur ->
  exists n f, stat_size w path = Some n /\ cur = Py.Float f /\
              rounds_to Py.prec Py.emax (IZR n / 1048576) f.
Proof.
  unfold measured_mb. destruct (stat_size w path) as [n |]; [| discriminate].
  cbn [Py.truediv].
  destruct (Py.int_truediv n (1024 * 1024)) as [f | e] eqn:Hf; [| discriminate].
  cbn [Py.rbind]. intros H. injection H as <-.
  exists n, f. split; [reflexivity |]. split; [reflexivity |].
  apply (int_truediv_rounds _ _ _ Hf).
Qed.

(** C4: when the measured size of an existing input file is at most the
    target (as real numbers, equality included), [compress_video] returns
    normally after four calls, none of which starts a process, and the exit
    status is 0. *)
Theorem small_enough_returns_early {m : machine}
  (input_file output_file : string) (target_size_mb : Py.num) (s : state)
  (cur : Py.num) :
  measured_mb (st_world s) input_file = Py.Ok cur ->
  valid_num target_size_mb -> finite_num target_size_mb ->
  (num_value cur <= num_value target_size_mb)%R ->
  let evs :=
    [EvExists input_file;
     EvGetsize input_file;
     EvPrint ("Current video size: " ++ format_fixed 2 cur ++ " MB");
     EvPrint ("Video is already under " ++ str_num target_size_mb
              ++ " MB. No compression needed!")] in
  compress_video input_file output_file target_size_mb s
    = (logged s evs, Py.Ok tt) /\
  exit_status (snd (compress_video input_file output_file target_size_mb s)) = 0 /\
  existsb is_run evs = false.
Proof.
  intros Hcur Hvt Hft Hle evs.
  destruct (measured_mb_float _ _ _ Hcur) as (n & f & _ & -> & Hv & Hf & _).
  assert (Hpy : Py.le (Py.Float f) target_size_mb = true).
  { apply le_spec; assumption. }
  rewrite (compress_video_short_circuit _ _ _ _ _ Hcur Hpy).
  repeat split.
Qed.

Lemma small_enough_returns_early_witness :
  compress_video (m := Sample.os Sample.good_tools) "a.mp4" "b.mp4" (Py.Int 80)
    (Sample.start Sample.good_tools Sample.exact_fit) =
  (Sample.at_log Sample.good_tools Sample.exact_fit
     [EvExists "a.mp4"; EvGetsize "a.mp4";
      EvPrint "Current video size: 80.00 MB";
      EvPrint "Video is already under 80 MB. No compression needed!"],
   Py.Ok tt).
Proof.
  apply (small_enough_returns_early (m := Sample.os Sample.good_tools)
           "a.mp4" "b.mp4" (Py.Int 80)
           (Sample.start Sample.good_tools Sample.exact_fit)
           (Py.Float (S754_finite false 5629499534213120 (-46)))).
  - reflexivity.
  - exact I.
  - exact I.
  - apply (le_spec (Py.Float (S754_finite false 5629499534213120 (-46)))
             (Py.Int 80)); [reflexivity | exact I | reflexivity | exact I |].
    reflexivity.
Defined.

(** C8: [get_file_size_mb] makes one call, [os.path.getsize].  On a path
    that has a size [n] (a file size is below [2^63]) it returns the float
    nearest to [n / 1048576], which is that quotient itself when [n] is below
    [2^53]; on a path that [os.stat] rejects it raises the error of the file
    system. *)
Theorem get_file_size_mb_spec {m : machine} (file_path : string) (s : state) :
  (forall n, stat_size (st_world s) file_path = Some n -> 0 <= n < 2 ^ 63 ->
     exists f,
       get_file_size_mb file_path s =
         (logged s [EvGetsize file_path], Py.Ok (Py.Float f)) /\
       rounds_to Py.prec Py.emax (IZR n / 1048576) f /\
       (n < 2 ^ 53 -> float_value f = (IZR n / 1048576)%R)) /\
  (stat_size (st_world s) file_path = None ->
     get_file_size_mb file_path s =
       (logged s [EvGetsize file_path], Py.Err Py.OSError)).
Proof.
  split.
  - intros n Hn Hrange. rewrite get_file_size_mb_run. unfold measured_mb.
    rewrite Hn. cbn [Py.truediv].
    assert (Hret : exists f, Py.int_truediv n (1024 * 1024) = Py.Ok f).
    { destruct (Z.eq_dec n 0) as [-> | Hn0]; [eexists; reflexivity |].
      apply (int_truediv_returns n (1024 * 1024) 43); try lia.
      - rewrite (bpow_IZR 43) by lia.
        assert (H63 : (IZR n <= IZR (2 ^ 43) * IZR (1024 * 1024))%R).
        { rewrite <- mult_IZR. apply IZR_le.
          change (2 ^ 43 * (1024 * 1024)) with (2 ^ 63). lia. }
        assert (Hpos : (0 < IZR (1024 * 1024))%R) by (apply IZR_lt; lia).
        apply Rmult_le_reg_r with (IZR (1024 * 1024)); [exact Hpos |].
        unfold Rdiv. rewrite Rmult_assoc, Rinv_l, Rmult_1_r by lra. exact H63.
      - split; [vm_compute; discriminate | reflexivity]. }
    destruct Hret as [f Hf]. exists f. rewrite Hf. cbn [Py.rbind].
    split; [reflexivity |].
    pose proof (int_truediv_rounds _ _ _ Hf) as Hr.
    change (IZR (1024 * 1024)) with 1048576%R in Hr.
    split; [exact Hr |].
    intros H53. destruct Hr as (_ & _ & Hnear).
    eapply nearest_of_format; [exact Hnear |].
    exists n, (-20). split; [| split].
    + assert (Hb : (bpow (-20) * 1048576 = 1)%R).
      { change 1048576%R with (IZR (2 ^ 20)).
        rewrite <- bpow_IZR, <- bpow_plus by lia. reflexivity. }
      unfold Rdiv. replace (/ 1048576)%R with (bpow (-20)); [reflexivity |].
      apply Rmult_eq_reg_r with 1048576%R; [| lra].
      rewrite Hb, Rinv_l; lra.
    + rewrite Z.abs_eq by lia. exact H53.
    + vm_compute. discriminate.
  - intros Hn. rewrite get_file_size_mb_run. unfold measured_mb.
    rewrite Hn. reflexivity.
Qed.

Lemma get_file_size_mb_spec_witness :
  exists f,
    get_file_size_mb (m := Sample.os Sample.good_tools) input_video
      (Sample.start Sample.good_tools Sample.promo) =
      (Sample.at_log Sample.good_tools Sample.promo [EvGetsize input_video],
       Py.Ok (Py.Float f)) /\
    float_value f = (IZR (200 * Sample.MB) / 1048576)%R.
Proof.
  destruct (get_file_size_mb_spec (m := Sample.os Sample.good_tools)
              input_video (Sample.start Sample.good_tools Sample.promo))
    as [Hsome _].
  destruct (Hsome (200 * Sample.MB)) as (f & Hrun & _ & Hexact).
  - reflexivity.
  - vm_compute. split; [discriminate | reflexivity].
  - exists f. split; [exact Hrun |]. apply Hexact. reflexivity.
Defined.

Lemma bitrate_monotone_witness :
  target_video_bitrate (Py.Int 80) (Py.Float Sample.f600) = Py.Ok 940 /\
  target_video_bitrate (Py.Int 100) (Py.Float Sample.f600) = Py.Ok 1206 /\
  940 <= 1206.
Proof.
  split; [reflexivity |]. split; [reflexivity |].
  apply (bitrate_monotone (Py.Int 80) (Py.Int 100) Sample.f600 940 1206).
  - exact I.
  - exact I.
  - reflexivity.
  - reflexivity.
  - reflexivity.
  - reflexivity.
  - reflexivity.
Defined.

(** ** Inputs on which the calculation returns *)

Lemma float_of_int_returns (z : Z) (y : R) :
  in_range Py.prec Py.emax y -> (Rabs (IZR z) <= y)%R ->
  exists b, Py.float_of_int z = Py.Ok b /\ Py.is_finite b = true.
Proof.
  intros Hy Hz. unfold Py.float_of_int.
  assert (Hfin : Py.is_finite (binary_normalize Py.prec Py.emax z 0 false) = true).
  { eapply (binary_normalize_finite Py.prec Py.emax) with (y := y);
      eauto using prec_pos, prec_lt_emax.
    rewrite bpow_0, Rmult_1_r. exact Hz. }
  destruct (binary_normalize Py.prec Py.emax z 0 false) as [s|s| |s m e];
    try discriminate; cbn [Py.is_inf]; eauto.
Qed.

Lemma value_le_bpow (m : positive) (e k : Z) : 0 <= k ->
  Z.pos m <= 2 ^ k -> (float_value (S754_finite false m e) <= bpow (k + e))%R.
Proof.
  intros Hk Hm. cbn [float_value]. rewrite bpow_plus, (bpow_IZR k) by lia.
  pose proof (bpow_gt_0 e).
  apply Rmult_le_compat_r; [lra | apply IZR_le; assumption].
Qed.

Lemma value_ge_bpow (m : positive) (e k : Z) : 0 <= k ->
  2 ^ k <= Z.pos m -> (bpow (k + e) <= float_value (S754_finite false m e))%R.
Proof.
  intros Hk Hm. cbn [float_value]. rewrite bpow_plus, (bpow_IZR k) by lia.
  pose proof (bpow_gt_0 e).
  apply Rmult_le_compat_r; [lra | apply IZR_le; assumption].
Qed.

(** The calculation returns for every positive [int] target and positive
    finite duration as long as the bit budget and its quotient by the
    duration stay below [2^1000]. *)
Lemma bitrate_returns (t : Z) (m : positive) (e : Z) :
  0 < t ->
  valid_binary Py.prec Py.emax (S754_finite false m e) = true ->
  (IZR t * 8388608 <= bpow 1000)%R ->
  (IZR t * 8388608 <= bpow 1000 * float_value (S754_finite false m e))%R ->
  exists v, target_video_bitrate (Py.Int t) (Py.Float (S754_finite false m e))
            = Py.Ok v.
Proof.
  intros Ht Hvd Hbits Hquot.
  set (d := S754_finite false m e) in *.
  pose proof (finite_positive_value m e) as Hd0. fold d in Hd0.
  assert (HY : in_range Py.prec Py.emax (bpow 1000)).
  { apply in_range_bpow; auto using prec_pos, prec_lt_emax.
    split; [vm_compute; discriminate | reflexivity]. }
  assert (HY' : in_range Py.prec Py.emax (bpow 1001)).
  { apply in_range_bpow; auto using prec_pos, prec_lt_emax.
    split; [vm_compute; discriminate | reflexivity]. }
  pose proof (bpow_gt_0 1000) as HY0.
  assert (HtR : (0 < IZR t)%R) by (apply IZR_lt; assumption).
  rewrite target_video_bitrate_stages. cbn [dividend].
  (* the dividend *)
  destruct (float_of_int_returns (t * 8 * 1024 * 1024) (bpow 1000) HY)
    as (b & Hb & Hbf).
  { rewrite !mult_IZR. apply Rabs_le. lra. }
  rewrite Hb. cbn [Py.rbind Py.is_zero d].
  destruct (dividend_rounds (Py.Int t) b I Hb Hbf) as (_ & Hrb).
  cbn [num_value] in Hrb. destruct Hrb as (Hvb & _ & Hnb).
  assert (Hb0 : (0 <= float_value b)%R).
  { eapply (nearest_nonneg Py.prec Py.emax); [.. | exact Hnb];
      auto using prec_pos, prec_lt_emax. lra. }
  assert (Hbd : (float_value b <= bpow 1000 * float_value d)%R).
  { eapply nearest_le_format; [exact Hnb | | exact Hquot].
    rewrite Rmult_comm. apply format_scale; auto using prec_pos, prec_lt_emax; [lia |].
    apply valid_format; auto using prec_pos, prec_lt_emax. }
  (* divided by the duration *)
  assert (Hq : (Rabs (float_value b / float_value d) <= bpow 1000)%R).
  { apply Rabs_le. split.
    - apply Rle_trans with 0%R; [lra |].
      apply Rmult_le_pos; [exact Hb0 | apply Rlt_le, Rinv_0_lt_compat, Hd0].
    - apply Rmult_le_reg_r with (float_value d); [exact Hd0 |].
      unfold Rdiv. rewrite Rmult_assoc, Rinv_l, Rmult_1_r by lra. exact Hbd. }
  assert (Hqf : Py.is_finite (SFdiv Py.prec Py.emax b d) = true).
  { eapply (SFdiv_finite Py.prec Py.emax) with (y := bpow 1000); unfold d;
      eauto using prec_pos, prec_lt_emax. }
  assert (Hqr : rounds_to Py.prec Py.emax (float_value b / float_value d)
                  (SFdiv Py.prec Py.emax b d)).
  { apply SFdiv_rounds; unfold d; eauto using prec_pos, prec_lt_emax. }
  assert (Hqb : (Rabs (float_value (SFdiv Py.prec Py.emax b d)) <= bpow 1000)%R).
  { eapply (rounds_to_bounded Py.prec Py.emax); eauto using prec_pos, prec_lt_emax. }
  set (q := SFdiv Py.prec Py.emax b d) in *.
  (* divided by 1000 *)
  assert (H1000 : (1 <= float_value f1000)%R).
  { change 1%R with (bpow (43 + -43)). apply value_ge_bpow; [lia |].
    vm_compute. discriminate. }
  assert (Htot : (Rabs (float_value q / float_value f1000) <= bpow 1000)%R).
  { unfold Rdiv. rewrite Rabs_mult.
    assert (Hinv : (0 < / float_value f1000 <= 1)%R).
    { split; [apply Rinv_0_lt_compat; lra |].
      rewrite <- Rinv_1. apply Rinv_le_contravar; lra. }
    rewrite (Rabs_pos_eq (/ float_value f1000)) by lra.
    pose proof (Rabs_pos (float_value q)). nra. }
  assert (Htf : Py.is_finite (SFdiv Py.prec Py.emax q f1000) = true).
  { eapply (SFdiv_finite Py.prec Py.emax) with (y := bpow 1000); unfold f1000;
      eauto using prec_pos, prec_lt_emax. }
  assert (Htr : rounds_to Py.prec Py.emax (float_value q / float_value f1000)
                  (SFdiv Py.prec Py.emax q f1000)).
  { apply SFdiv_rounds; unfold f1000; eauto using prec_pos, prec_lt_emax.
    apply Hqr. }
  assert (Htb : (Rabs (float_value (SFdiv Py.prec Py.emax q f1000)) <= bpow 1000)%R).
  { eapply (rounds_to_bounded Py.prec Py.emax); eauto using prec_pos, prec_lt_emax. }
  set (tot := SFdiv Py.prec Py.emax q f1000) in *.
  (* minus 128 *)
  assert (H128 : float_value f128 = bpow 7).
  { cbn [f128 float_value]. change 4503599627370496 with (2 ^ 52).
    rewrite <- bpow_IZR, <- bpow_plus by lia. reflexivity. }
  assert (Hpow : (bpow 1000 + bpow 7 <= bpow 1001)%R).
  { replace 1001 with (1000 + 1) by lia. rewrite bpow_plus, bpow_1.
    pose proof (bpow_le 7 1000 ltac:(lia)). lra. }
  assert (Hw : (Rabs (float_value tot - float_value f128) <= bpow 1001)%R).
  { rewrite H128. apply Rabs_le_inv' in Htb. pose proof (bpow_gt_0 7).
    apply Rabs_le. lra. }
  assert (Hwf : Py.is_finite (SFsub Py.prec Py.emax tot f128) = true).
  { eapply (SFsub_finite Py.prec Py.emax) with (y := bpow 1001);
      eauto using prec_pos, prec_lt_emax. }
  assert (Hwr : rounds_to Py.prec Py.emax (float_value tot - float_value f128)
                  (SFsub Py.prec Py.emax tot f128)).
  { apply SFsub_rounds; auto using prec_pos, prec_lt_emax. apply Htr. }
  assert (Hwb : (Rabs (float_value (SFsub Py.prec Py.emax tot f128)) <= bpow 1001)%R).
  { eapply (rounds_to_bounded Py.prec Py.emax); eauto using prec_pos, prec_lt_emax. }
  set (w := SFsub Py.prec Py.emax tot f128) in *.
  (* times 0.95 *)
  assert (H95 : (0 < float_value Py.lit_0_95 <= 1)%R).
  { split; [apply finite_positive_value |].
    change 1%R with (bpow (53 + -53)). apply value_le_bpow; [lia |].
    vm_compute. discriminate. }
  assert (Hs : (Rabs (float_value w * float_value Py.lit_0_95) <= bpow 1001)%R).
  { rewrite Rabs_mult, (Rabs_pos_eq (float_value Py.lit_0_95)) by lra.
    pose proof (Rabs_pos (float_value w)). nra. }
  assert (Hsf : Py.is_finite (SFmul Py.prec Py.emax w Py.lit_0_95) = true).
  { eapply (SFmul_finite Py.prec Py.emax) with (y := bpow 1001);
      eauto using prec_pos, prec_lt_emax. apply Hwr. }
  unfold scaled_of. fold q tot w.
  destruct (SFmul Py.prec Py.emax w Py.lit_0_95) as [s|s| |s ms es];
    try discriminate; cbn [Py.int Py.is_nan Py.is_inf]; eauto.
Qed.

Lemma same_domain_as_floor (t d : Py.num) :
  (exists v, target_video_bitrate t d = Py.Ok v) <->
  (exists w, spec_video_kbps t d = Py.Ok w).
Proof.
  rewrite target_video_bitrate_scaled, spec_video_kbps_scaled.
  destruct (scaled_bitrate t d) as [[z | f] | err]; cbn [Py.rbind].
  - split; intros _; eexists; reflexivity.
  - cbn [Py.int Py.math_floor].
    destruct (Py.is_nan f); [split; intros [? H]; discriminate |].
    destruct (Py.is_inf f); [split; intros [? H]; discriminate |].
    split; intros _; eexists; reflexivity.
  - split; intros [? H]; discriminate.
Qed.

(** C1, amended.  Whenever the calculation returns, it returns the value of
    [((t * 8 * 1024 * 1024) / d / 1000 - 128) * 0.95] truncated toward zero:
    the floor of the value when the value is not negative or is an integer,
    one more than the floor otherwise.  It returns exactly where the formula
    with [floor] is defined; that is not everywhere, but it includes every
    positive [int] target and positive finite duration for which the bit
    budget and its quotient by the duration are at most [2^1000]. *)
Theorem bitrate_is_truncation :
  (forall (t d : Py.num) (v : Z),
     target_video_bitrate t d = Py.Ok v ->
     exists (f : Py.float) (w : Z),
       scaled_bitrate t d = Py.Ok (Py.Float f) /\
       Py.is_finite f = true /\
       spec_video_kbps t d = Py.Ok w /\
       (IZR w <= float_value f < IZR w + 1)%R /\
       ((0 <= float_value f)%R -> v = w) /\
       ((float_value f < 0)%R -> float_value f <> IZR w -> v = w + 1) /\
       ((float_value f < 0)%R -> float_value f = IZR w -> v = w)) /\
  (forall t d : Py.num,
     (exists v, target_video_bitrate t d = Py.Ok v) <->
     (exists w, spec_video_kbps t d = Py.Ok w)) /\
  (forall (t : Z) (m : positive) (e : Z),
     0 < t ->
     valid_binary Py.prec Py.emax (S754_finite false m e) = true ->
     (IZR t * 8388608 <= bpow 1000)%R ->
     (IZR t * 8388608 <= bpow 1000 * float_value (S754_finite false m e))%R ->
     exists v,
       target_video_bitrate (Py.Int t) (Py.Float (S754_finite false m e))
       = Py.Ok v).
Proof.
  split; [exact int_of_scaled_bitrate |].
  split; [exact same_domain_as_floor | exact bitrate_returns].
Qed.

Lemma bitrate_is_truncation_witness :
  exists (f : Py.float) (w : Z),
    scaled_bitrate (Py.Int 1) (Py.Float Sample.f100) = Py.Ok (Py.Float f) /\
    spec_video_kbps (Py.Int 1) (Py.Float Sample.f100) = Py.Ok w /\
    ((float_value f < 0)%R -> float_value f <> IZR w -> -41 = w + 1).
Proof.
  destruct bitrate_is_truncation as (Htrunc & _ & _).
  destruct (Htrunc (Py.Int 1) (Py.Float Sample.f100) (-41))
    as (f & w & Hs & _ & Hw & _ & _ & Hneg & _).
  - reflexivity.
  - exists f, w. split; [exact Hs |]. split; [exact Hw |]. exact Hneg.
Defined.

(** * Every run of the script *)

(** The arithmetic raises nothing but [OverflowError] and
    [ZeroDivisionError]. *)
Lemma float_of_int_error (z : Z) (e : Py.exn) :
  Py.float_of_int z = Py.Err e -> e = Py.OverflowError.
Proof.
  unfold Py.float_of_int.
  destruct (Py.is_inf _); intros H; [injection H as <-; reflexivity | discriminate].
Qed.

Lemma to_float_error (n : Py.num) (e : Py.exn) :
  Py.to_float n = Py.Err e -> e = Py.OverflowError.
Proof.
  destruct n; cbn [Py.to_float]; [apply float_of_int_error | discriminate].
Qed.

Lemma int_truediv_error (a b : Z) (e : Py.exn) :
  Py.int_truediv a b = Py.Err e ->
  e = Py.OverflowError \/ e = Py.ZeroDivisionError.
Proof.
  unfold Py.int_truediv. destruct b, a; try discriminate;
    try (intros H; injection H as <-; auto; fail);
    destruct (SFdiv_core_binary _ _ _ _ _ _) as [[mz ez] lz];
    destruct (Py.is_inf _); try discriminate;
    intros H; injection H as <-; auto.
Qed.

Lemma float_truediv_error (x y : Py.float) (e : Py.exn) :
  Py.float_truediv x y = Py.Err e -> e = Py.ZeroDivisionError.
Proof.
  unfold Py.float_truediv. destruct (Py.is_zero y); [| discriminate].
  intros H; injection H as <-; reflexivity.
Qed.

Ltac arith_error :=
  repeat match goal with
         | |- Py.rbind ?c _ = Py.Err _ -> _ =>
           let H := fresh "H" in
           destruct c eqn:H; cbn [Py.rbind];
           [| intros H'; injection H' as <-;
              first [ apply to_float_error in H; auto
                    | apply float_truediv_error in H; auto
                    | apply int_truediv_error in H; tauto ]]
         | |- Py.Ok _ = Py.Err _ -> _ => discriminate
         end.

Lemma mul_error (a b : Py.num) (e : Py.exn) :
  Py.mul a b = Py.Err e -> e = Py.OverflowError \/ e = Py.ZeroDivisionError.
Proof. destruct a, b; cbn [Py.mul]; arith_error. Qed.

Lemma sub_error (a b : Py.num) (e : Py.exn) :
  Py.sub a b = Py.Err e -> e = Py.OverflowError \/ e = Py.ZeroDivisionError.
Proof. destruct a, b; cbn [Py.sub]; arith_error. Qed.

Lemma truediv_error (a b : Py.num) (e : Py.exn) :
  Py.truediv a b = Py.Err e -> e = Py.OverflowError \/ e = Py.ZeroDivisionError.
Proof. destruct a, b; cbn [Py.truediv]; arith_error. Qed.

Lemma reduction_percent_error (cur comp : Py.num) (e : Py.exn) :
  reduction_percent cur comp = Py.Err e ->
  e = Py.OverflowError \/ e = Py.ZeroDivisionError.
Proof.
  unfold reduction_percent.
  destruct (Py.sub cur comp) as [saved | e1] eqn:H1; cbn [Py.rbind];
    [| intros H; injection H as <-; eapply sub_error; eassumption].
  destruct (Py.truediv saved cur) as [ratio | e2] eqn:H2; cbn [Py.rbind];
    [| intros H; injection H as <-; eapply truediv_error; eassumption].
  apply mul_error.
Qed.

Lemma int_error (n : Py.num) (e : Py.exn) :
  Py.int n = Py.Err e -> e = Py.ValueError \/ e = Py.OverflowError.
Proof.
  destruct n as [z | f]; cbn [Py.int]; [discriminate |].
  destruct (Py.is_nan f); [intros H; injection H as <-; auto |].
  destruct (Py.is_inf f); [intros H; injection H as <-; auto | discriminate].
Qed.

(** What the bitrate calculation can raise. *)
Lemma target_video_bitrate_error (t d : Py.num) (e : Py.exn) :
  target_video_bitrate t d = Py.Err e ->
  e = Py.OverflowError \/ e = Py.ZeroDivisionError \/ e = Py.ValueError.
Proof.
  unfold target_video_bitrate.
  repeat match goal with
         | |- Py.rbind ?c _ = Py.Err _ -> _ =>
           let H := fresh "H" in
           destruct c eqn:H; cbn [Py.rbind];
           [| intros H'; injection H' as <-;
              first [ apply mul_error in H | apply sub_error in H
                    | apply truediv_error in H ]; tauto ]
         end.
  intros Hint. apply int_error in Hint. tauto.
Qed.

(** A run that ended in an exception other than [CalledProcessError], with
    [sys.exit(1)] if by [sys.exit]. *)
Ltac raised_one :=
  right; eexists; split; [reflexivity |]; split; [reflexivity |]; split;
  [ intros c Hc; first [injection Hc as <-; reflexivity | discriminate Hc]
  | intros rc' cmd' Hc; discriminate Hc ].

Section Runs.

Context {m : machine}.

(** [compress_video] up to the comparison with the target. *)
Lemma compress_video_run (input_file output_file : string)
  (target_size_mb : Py.num) (s : state) :
  compress_video input_file output_file target_size_mb s =
  match stat_size (st_world s) input_file with
  | None =>
    (logged s [EvExists input_file;
               EvPrint ("Error: Input file '" ++ input_file ++ "' not found!")],
     Py.Err (Py.SystemExit 1))
  | Some _ =>
    match measured_mb (st_world s) input_file with
    | Py.Err e => (logged s [EvExists input_file; EvGetsize input_file], Py.Err e)
    | Py.Ok cur =>
      let size_line :=
        EvPrint ("Current video size: " ++ format_fixed 2 cur ++ " MB") in
      if Py.le cur target_size_mb then
        (logged s [EvExists input_file; EvGetsize input_file; size_line;
                   EvPrint ("Video is already under " ++ str_num target_size_mb
                            ++ " MB. No compression needed!")],
         Py.Ok tt)
      else
        encode input_file output_file target_size_mb cur
          (logged s [EvExists input_file; EvGetsize input_file; size_line])
    end
  end.
Proof.
  unfold compress_video, bind at 1, os_path_exists.
  destruct (stat_size (st_world s) input_file) as [n |] eqn:Hn; simpl.
  - unfold bind at 1. unfold ret. unfold bind at 1.
    rewrite get_file_size_mb_run. unfold bind at 1, print, emit; simpl.
    destruct (measured_mb (st_world s) input_file) as [cur | e].
    + destruct (Py.le cur target_size_mb).
      * unfold logged; simpl. repeat rewrite <- app_assoc. reflexivity.
      * unfold logged; simpl. repeat rewrite <- app_assoc. reflexivity.
    + unfold logged; simpl. repeat rewrite <- app_assoc. reflexivity.
  - unfold bind, print, emit, sys_exit, raise, logged; simpl.
    rewrite <- app_assoc. reflexivity.
Qed.

(** [encode] up to the start of the encoder. *)
Lemma encode_run (input_file output_file : string)
  (target_size_mb cur : Py.num) (s : state) :
  encode input_file output_file target_size_mb cur s =
  let probe := EvRun (ffprobe_cmd input_file) in
  match run_process (ffprobe_cmd input_file) (st_world s) with
  | (w1, ProcSpawnFailed) =>
    ({| st_world := w1; st_log := st_log s ++ [probe] |}, Py.Err Py.OSError)
  | (w1, ProcExit rc out) =>
    if rc =? 0 then
      match float_of_str (str_strip out) with
      | None =>
        ({| st_world := w1; st_log := st_log s ++ [probe] |},
         Py.Err Py.ValueError)
      | Some d =>
        let duration_line :=
          EvPrint ("Video duration: " ++ format_fixed 2 (Py.Float d)
                   ++ " seconds") in
        match target_video_bitrate target_size_mb (Py.Float d) with
        | Py.Err e =>
          ({| st_world := w1; st_log := st_log s ++ [probe; duration_line] |},
           Py.Err e)
        | Py.Ok v =>
          run_encoder input_file output_file cur v
            {| st_world := w1;
               st_log := st_log s ++
                 [probe; duration_line;
                  EvPrint ("Target video bitrate: " ++ str_int v ++ "k");
                  EvPrint ("Target audio bitrate: " ++
                           str_int audio_bitrate_kbps ++ "k");
                  EvPrint (nl ++ "Compressing video...")] |}
        end
      end
    else
      ({| st_world := w1;
          st_log := st_log s ++
            [probe;
             EvPrint ("Error getting video duration: " ++
                      str_exn (Py.CalledProcessError rc
                                 (ffprobe_cmd input_file)))] |},
       Py.Err (Py.SystemExit 1))
  end.
Proof.
  unfold encode, bind at 1, get_video_duration,
    try_except_called_process_error, bind at 1, subprocess_run.
  destruct (run_process (ffprobe_cmd input_file) (st_world s))
    as [w1 [rc out |]]; simpl; [| reflexivity].
  destruct (rc =? 0); simpl.
  - unfold py_float.
    destruct (float_of_str (str_strip out)) as [d |]; simpl; [| reflexivity].
    unfold bind at 1; simpl. unfold bind at 1, lift.
    destruct (target_video_bitrate target_size_mb (Py.Float d)) as [v | e];
      simpl.
    + unfold bind at 1; simpl. unfold bind at 1; simpl. unfold bind at 1; simpl.
      repeat rewrite <- app_assoc. reflexivity.
    + repeat rewrite <- app_assoc. reflexivity.
  - unfold bind, print, emit, sys_exit, raise; simpl.
    repeat rewrite <- app_assoc. reflexivity.
Qed.

Lemma measured_mb_error (w : world) (path : string) (e : Py.exn) :
  measured_mb w path = Py.Err e ->
  e = Py.OSError \/ e = Py.OverflowError \/ e = Py.ZeroDivisionError.
Proof.
  unfold measured_mb. destruct (stat_size w path) as [n |].
  - intros H. apply truediv_error in H. tauto.
  - intros H. injection H as <-. auto.
Qed.

(** The [try] block of [compress_video]. *)
Lemma run_encoder_run (input_file output_file : string) (cur : Py.num)
  (v : Z) (s : state) :
  run_encoder input_file output_file cur v s =
  let cmd := ffmpeg_cmd input_file output_file v in
  match run_process cmd (st_world s) with
  | (w2, ProcSpawnFailed) =>
    ({| st_world := w2; st_log := st_log s ++ [EvRun cmd] |}, Py.Err Py.OSError)
  | (w2, ProcExit rc out) =>
    if rc =? 0 then
      match measured_mb w2 output_file with
      | Py.Err e =>
        ({| st_world := w2;
            st_log := st_log s ++ [EvRun cmd; EvGetsize output_file] |},
         Py.Err e)
      | Py.Ok comp =>
        match reduction_percent cur comp with
        | Py.Err e =>
          ({| st_world := w2;
              st_log := st_log s ++ [EvRun cmd; EvGetsize output_file] |},
           Py.Err e)
        | Py.Ok red =>
          ({| st_world := w2;
              st_log := st_log s ++ EvRun cmd :: EvGetsize output_file ::
                        completion_summary output_file cur comp red |},
           Py.Ok tt)
        end
      end
    else
      ({| st_world := w2;
          st_log := st_log s ++
            [EvRun cmd;
             EvPrint ("Error during compression: " ++
                      str_exn (Py.CalledProcessError rc cmd))] |},
       Py.Err (Py.SystemExit 1))
  end.
Proof.
  cbv zeta.
  destruct (run_process (ffmpeg_cmd input_file output_file v) (st_world s))
    as [w2 [rc out |]] eqn:Hrun.
  - destruct (Z.eqb_spec rc 0) as [-> | Hrc].
    + destruct (measured_mb w2 output_file) as [comp | e] eqn:Hcomp.
      * destruct (reduction_percent cur comp) as [red | e] eqn:Hred.
        -- apply (run_encoder_success _ _ _ _ _ _ out); assumption.
        -- unfold run_encoder, try_except_called_process_error, bind at 1,
             subprocess_run. rewrite Hrun. simpl.
           unfold bind at 1. rewrite get_file_size_mb_run. simpl. rewrite Hcomp.
           unfold bind at 1, lift. rewrite Hred.
           apply reduction_percent_error in Hred.
           destruct Hred as [-> | ->]; unfold logged; simpl; rewrite <- ?app_assoc;
             reflexivity.
      * unfold run_encoder, try_except_called_process_error, bind at 1,
          subprocess_run. rewrite Hrun. simpl.
        unfold bind at 1. rewrite get_file_size_mb_run. simpl. rewrite Hcomp.
        apply measured_mb_error in Hcomp.
        destruct Hcomp as [-> | [-> | ->]]; unfold logged; simpl; rewrite <- ?app_assoc;
          reflexivity.
    + apply (run_encoder_failure _ _ _ _ _ _ _ out); assumption.
  - unfold run_encoder, try_except_called_process_error, bind at 1,
      subprocess_run. rewrite Hrun. reflexivity.
Qed.

(** X1: [compress_video] ends with exit status 0 or 1.  It returns
    normally or raises; [sys.exit] is only ever called with 1, and a
    [CalledProcessError] never leaves the function. *)
Theorem compress_video_exit_status (input_file output_file : string)
  (target_size_mb : Py.num) (s : state) :
  let r := snd (compress_video input_file output_file target_size_mb s) in
  (r = Py.Ok tt /\ exit_status r = 0) \/
  (exists e, r = Py.Err e /\ exit_status r = 1 /\
             (forall c, e = Py.SystemExit c -> c = 1) /\
             (forall rc cmd, e <> Py.CalledProcessError rc cmd)).
Proof.
  cbv zeta. rewrite compress_video_run.
  destruct (stat_size (st_world s) input_file) as [n |]; [| raised_one].
  destruct (measured_mb (st_world s) input_file) as [cur | e] eqn:Hcur.
  2:{ apply measured_mb_error in Hcur.
      destruct Hcur as [-> | [-> | ->]]; raised_one. }
  cbv zeta. destruct (Py.le cur target_size_mb); [left; split; reflexivity |].
  rewrite encode_run. cbv zeta.
  destruct (run_process (ffprobe_cmd input_file) _) as [w1 [rc out |]];
    [| raised_one].
  destruct (rc =? 0); [| raised_one].
  destruct (float_of_str (str_strip out)) as [d |]; [| raised_one].
  destruct (target_video_bitrate target_size_mb (Py.Float d)) as [v | e] eqn:Hv.
  2:{ apply target_video_bitrate_error in Hv.
      destruct Hv as [-> | [-> | ->]]; raised_one. }
  rewrite run_encoder_run. cbv zeta.
  destruct (run_process (ffmpeg_cmd input_file output_file v) _)
    as [w2 [rc2 out2 |]]; [| raised_one].
  destruct (rc2 =? 0); [| raised_one].
  destruct (measured_mb w2 output_file) as [comp | e] eqn:Hcomp.
  2:{ apply measured_mb_error in Hcomp.
      destruct Hcomp as [-> | [-> | ->]]; raised_one. }
  destruct (reduction_percent cur comp) as [red | e] eqn:Hred.
  2:{ apply reduction_percent_error in Hred.
      destruct Hred as [-> | ->]; raised_one. }
  left. split; reflexivity.
Qed.

(** What [run_encoder] logs: the start of the encoder, and then no other
    process; the world it leaves is the one the encoder left. *)
Lemma run_encoder_log (input_file output_file : string) (cur : Py.num)
  (v : Z) (s : state) :
  let cmd := ffmpeg_cmd input_file output_file v in
  let r := run_encoder input_file output_file cur v s in
  exists rest,
    st_log (fst r) = st_log s ++ EvRun cmd :: rest /\
    filter is_run rest = [] /\
    st_world (fst r) = fst (run_process cmd (st_world s)).
Proof.
  cbv zeta. rewrite run_encoder_run. cbv zeta.
  destruct (run_process (ffmpeg_cmd input_file output_file v) (st_world s))
    as [w2 [rc out |]]; [| exists []; repeat split].
  destruct (rc =? 0); [| eexists; repeat split].
  destruct (measured_mb w2 output_file) as [comp | e];
    [| eexists; repeat split].
  destruct (reduction_percent cur comp) as [red | e]; eexists; repeat split.
Qed.

(** X2: the processes [compress_video] starts.  Whatever the machine does,
    a run starts no process at all, or the probe alone, or the probe and then
    the encoder; the encoder is started only after the probe has exited with
    status 0 and printed a duration on which the bitrate calculation
    returned.  The script itself leaves the world as it is: what has changed
    at the end is what the processes changed. *)
Theorem compress_video_processes (input_file output_file : string)
  (target_size_mb : Py.num) (s : state) :
  let r := compress_video input_file output_file target_size_mb s in
  let probe := ffprobe_cmd input_file in
  exists evs, st_log (fst r) = st_log s ++ evs /\
    ((filter is_run evs = [] /\ st_world (fst r) = st_world s) \/
     (filter is_run evs = [EvRun probe] /\
      st_world (fst r) = fst (run_process probe (st_world s)) /\
      snd r <> Py.Ok tt) \/
     (exists out d v,
        let cmd := ffmpeg_cmd input_file output_file v in
        snd (run_process probe (st_world s)) = ProcExit 0 out /\
        float_of_str (str_strip out) = Some d /\
        target_video_bitrate target_size_mb (Py.Float d) = Py.Ok v /\
        filter is_run evs = [EvRun probe; EvRun cmd] /\
        st_world (fst r) =
          fst (run_process cmd (fst (run_process probe (st_world s)))))).
Proof.
  cbv zeta. rewrite compress_video_run.
  destruct (stat_size (st_world s) input_file) as [n |].
  2:{ eexists. split; [reflexivity |]. left. split; reflexivity. }
  destruct (measured_mb (st_world s) input_file) as [cur | e] eqn:Hcur.
  2:{ eexists. split; [reflexivity |]. left. split; reflexivity. }
  cbv zeta. destruct (Py.le cur target_size_mb).
  { eexists. split; [reflexivity |]. left. split; reflexivity. }
  rewrite encode_run. cbv zeta. unfold logged. cbn [st_world st_log].
  set (size_line := EvPrint ("Current video size: " ++ format_fixed 2 cur ++ " MB")).
  set (head := [EvExists input_file; EvGetsize input_file; size_line]).
  destruct (run_process (ffprobe_cmd input_file) (st_world s))
    as [w1 [rc out |]] eqn:Hprobe; cbn [fst snd].
  2:{ exists (head ++ [EvRun (ffprobe_cmd input_file)]).
      split; [symmetry; apply app_assoc |].
      right; left. repeat split. discriminate. }
  destruct (Z.eqb_spec rc 0) as [-> | Hrc].
  2:{ eexists (head ++ [_; _]).
      split; [symmetry; apply app_assoc |].
      right; left. repeat split. discriminate. }
  destruct (float_of_str (str_strip out)) as [d |] eqn:Hd.
  2:{ exists (head ++ [EvRun (ffprobe_cmd input_file)]).
      split; [symmetry; apply app_assoc |].
      right; left. repeat split. discriminate. }
  destruct (target_video_bitrate target_size_mb (Py.Float d)) as [v | e] eqn:Hv.
  2:{ eexists (head ++ [_; _]).
      split; [symmetry; apply app_assoc |].
      right; left. repeat split. discriminate. }
  match goal with
  | |- context [run_encoder _ _ _ _ ?s1] =>
    destruct (run_encoder_log input_file output_file cur v s1)
      as (rest & Hlog & Hrest & Hworld)
  end.
  cbn [st_world st_log] in Hlog, Hworld.
  eexists (head ++ [_; _; _; _; _] ++ _ :: rest).
  split.
  { rewrite Hlog. rewrite <- !app_assoc. reflexivity. }
  right; right. exists out, d, v. cbv zeta.
  split; [reflexivity |]. split; [exact Hd |]. split; [exact Hv |].
  split; [| exact Hworld].
  cbn. rewrite Hrest. reflexivity.
Qed.

(** X3: a probe that fails stops [compress_video] before the encoder.  When
    the input is larger than the target and the probe exits with a non-zero
    code, the script prints the error and calls [sys.exit(1)]; when the probe
    exits with 0 and prints something [float] rejects, the [ValueError] ends
    the script with no message of its own.  Either way the exit status is 1,
    the probe is the only process that was started, and the world is the one
    the probe left. *)
Theorem probe_failure_never_encodes (input_file output_file : string)
  (target_size_mb : Py.num) (s : state) (cur : Py.num) (w1 : world)
  (rc : Z) (out : string) :
  measured_mb (st_world s) input_file = Py.Ok cur ->
  Py.le cur target_size_mb = false ->
  run_process (ffprobe_cmd input_file) (st_world s) = (w1, ProcExit rc out) ->
  rc <> 0 \/ float_of_str (str_strip out) = None ->
  let r := compress_video input_file output_file target_size_mb s in
  let evs :=
    [EvExists input_file; EvGetsize input_file;
     EvPrint ("Current video size: " ++ format_fixed 2 cur ++ " MB");
     EvRun (ffprobe_cmd input_file)] ++
    (if rc =? 0 then []
     else [EvPrint ("Error getting video duration: " ++
                    str_exn (Py.CalledProcessError rc
                               (ffprobe_cmd input_file)))]) in
  r = ({| st_world := w1; st_log := st_log s ++ evs |},
       Py.Err (if rc =? 0 then Py.ValueError else Py.SystemExit 1)) /\
  exit_status (snd r) = 1 /\
  filter is_run evs = [EvRun (ffprobe_cmd input_file)].
Proof.
  intros Hcur Hle Hprobe Hfail. cbv zeta.
  assert (Hrun : compress_video input_file output_file target_size_mb s =
    ({| st_world := w1;
        st_log := st_log s ++
          [EvExists input_file; EvGetsize input_file;
           EvPrint ("Current video size: " ++ format_fixed 2 cur ++ " MB");
           EvRun (ffprobe_cmd input_file)] ++
          (if rc =? 0 then []
           else [EvPrint ("Error getting video duration: " ++
                          str_exn (Py.CalledProcessError rc
                                     (ffprobe_cmd input_file)))]) |},
     Py.Err (if rc =? 0 then Py.ValueError else Py.SystemExit 1))).
  { rewrite compress_video_run.
    destruct (measured_mb_exists _ _ _ Hcur) as [n ->]. rewrite Hcur.
    cbv zeta. rewrite Hle, encode_run. cbv zeta.
    unfold logged. cbn [st_world st_log]. rewrite Hprobe.
    destruct (Z.eqb_spec rc 0) as [-> | Hrc].
    - destruct Hfail as [Hne | ->]; [contradiction |].
      rewrite <- app_assoc. reflexivity.
    - rewrite <- app_assoc. reflexivity. }
  rewrite Hrun. split; [reflexivity |].
  destruct (rc =? 0); split; reflexivity.
Qed.

(** X4: a tool that cannot be started is not reported.  [subprocess.run]
    then raises an [OSError], which neither [try] catches: the handler of
    [get_video_duration] prints nothing, and neither does the one around the
    encoder; the exception leaves [compress_video] as it is and the exit
    status is 1. *)
Theorem missing_tool_is_not_handled (input_file output_file : string) :
  (forall (s : state) (w1 : world),
     run_process (ffprobe_cmd input_file) (st_world s) = (w1, ProcSpawnFailed) ->
     get_video_duration input_file s =
       ({| st_world := w1;
           st_log := st_log s ++ [EvRun (ffprobe_cmd input_file)] |},
        Py.Err Py.OSError)) /\
  (forall (target_size_mb : Py.num) (s : state) cur w1 d v w2,
     reaches_encoder input_file target_size_mb s cur w1 d v ->
     run_process (ffmpeg_cmd input_file output_file v) w1
       = (w2, ProcSpawnFailed) ->
     let r := compress_video input_file output_file target_size_mb s in
     r = ({| st_world := w2;
             st_log := st_log s ++ before_encoder input_file cur d v ++
                       [EvRun (ffmpeg_cmd input_file output_file v)] |},
          Py.Err Py.OSError) /\
     exit_status (snd r) = 1).
Proof.
  split.
  - intros s w1 Hprobe.
    unfold get_video_duration, try_except_called_process_error, bind,
      subprocess_run. rewrite Hprobe. reflexivity.
  - intros target_size_mb s cur w1 d v w2 Hreach Hrun. cbv zeta.
    rewrite (compress_video_reaches_encoder _ output_file _ _ _ _ _ _ Hreach).
    rewrite run_encoder_run. cbv zeta. cbn [st_world st_log]. rewrite Hrun.
    rewrite <- app_assoc. split; reflexivity.
Qed.

(** X5: an encoder that reports success and leaves no output file.  The
    size of the output cannot be read; the [OSError] of [os.path.getsize] is
    not caught by the handler for [CalledProcessError], no line of the
    completion summary is printed, and the exit status is 1. *)
Theorem missing_output_is_not_handled (input_file output_file : string)
  (target_size_mb : Py.num) (s : state) cur w1 d v w2 out :
  reaches_encoder input_file target_size_mb s cur w1 d v ->
  run_process (ffmpeg_cmd input_file output_file v) w1 = (w2, ProcExit 0 out) ->
  stat_size w2 output_file = None ->
  let r := compress_video input_file output_file target_size_mb s in
  let after := [EvRun (ffmpeg_cmd input_file output_file v);
                EvGetsize output_file] in
  r = ({| st_world := w2;
          st_log := st_log s ++ before_encoder input_file cur d v ++ after |},
       Py.Err Py.OSError) /\
  exit_status (snd r) = 1 /\
  (forall comp red e,
     In e (completion_summary output_file cur comp red) -> ~ In e after).
Proof.
  intros Hreach Hrun Hnone. cbv zeta.
  rewrite (compress_video_reaches_encoder _ output_file _ _ _ _ _ _ Hreach).
  rewrite run_encoder_run. cbv zeta. cbn [st_world st_log]. rewrite Hrun.
  cbn [Z.eqb]. unfold measured_mb. rewrite Hnone. rewrite <- app_assoc.
  split; [reflexivity |]. split; [reflexivity |].
  intros comp red e Hin Hafter. simpl in Hin, Hafter.
  destruct Hafter as [<- | [<- | []]];
    repeat (destruct Hin as [Hin | Hin]; [discriminate Hin |]); exact Hin.
Qed.

(** X6: an exception of the bitrate calculation stops [compress_video]
    between the line that reports the duration and the three lines that
    announce the encoding: the exception is not caught, the encoder is not
    started, and the exit status is 1. *)
Theorem failed_calculation_never_encodes (input_file output_file : string)
  (target_size_mb : Py.num) (s : state) (cur : Py.num) (w1 : world)
  (out : string) (d : Py.float) (e : Py.exn) :
  measured_mb (st_world s) input_file = Py.Ok cur ->
  Py.le cur target_size_mb = false ->
  run_process (ffprobe_cmd input_file) (st_world s) = (w1, ProcExit 0 out) ->
  float_of_str (str_strip out) = Some d ->
  target_video_bitrate target_size_mb (Py.Float d) = Py.Err e ->
  let r := compress_video input_file output_file target_size_mb s in
  let evs :=
    [EvExists input_file; EvGetsize input_file;
     EvPrint ("Current video size: " ++ format_fixed 2 cur ++ " MB");
     EvRun (ffprobe_cmd input_file);
     EvPrint ("Video duration: " ++ format_fixed 2 (Py.Float d)
              ++ " seconds")] in
  r = ({| st_world := w1; st_log := st_log s ++ evs |}, Py.Err e) /\
  exit_status (snd r) = 1 /\
  filter is_run evs = [EvRun (ffprobe_cmd input_file)].
Proof.
  intros Hcur Hle Hprobe Hd He. cbv zeta.
  rewrite compress_video_run.
  destruct (measured_mb_exists _ _ _ Hcur) as [n ->]. rewrite Hcur.
  cbv zeta. rewrite Hle, encode_run. cbv zeta.
  unfold logged. cbn [st_world st_log]. rewrite Hprobe. cbn [Z.eqb].
  rewrite Hd, He. rewrite <- app_assoc.
  split; [reflexivity |]. split; [| reflexivity].
  apply target_video_bitrate_error in He.
  destruct He as [-> | [-> | ->]]; reflexivity.
Qed.

End Runs.

(** ** Runs on machines where something goes wrong *)

Lemma probe_failure_never_encodes_witness :
  compress_video (m := Sample.os Sample.garbled_probe)
    input_video output_video target_size
    (Sample.start Sample.garbled_probe Sample.promo) =
  (Sample.at_log Sample.garbled_probe Sample.promo
     [EvExists input_video; EvGetsize input_video;
      EvPrint "Current video size: 200.00 MB";
      EvRun (ffprobe_cmd input_video)],
   Py.Err Py.ValueError).
Proof.
  apply (probe_failure_never_encodes (m := Sample.os Sample.garbled_probe)
           input_video output_video target_size
           (Sample.start Sample.garbled_probe Sample.promo)
           (Py.Float (S754_finite false 7036874417766400 (-45)))
           Sample.promo 0 ("N/A" ++ nl)%string).
  - reflexivity.
  - reflexivity.
  - reflexivity.
  - right. reflexivity.
Defined.

Lemma missing_tool_is_not_handled_witness :
  snd (compress_video (m := Faulty.no_encoder)
         input_video output_video target_size
         (Faulty.start Faulty.no_encoder Sample.promo)) =
  Py.Err Py.OSError.
Proof.
  destruct (missing_tool_is_not_handled (m := Faulty.no_encoder)
              input_video output_video) as [_ H].
  destruct (H target_size (Faulty.start Faulty.no_encoder Sample.promo)
              (Py.Float (S754_finite false 7036874417766400 (-45)))
              Sample.promo Sample.f600 940 Sample.promo) as [Hrun _].
  - repeat split. exists ("600.000000" ++ nl)%string. repeat split.
  - reflexivity.
  - rewrite Hrun. reflexivity.
Defined.

Lemma missing_output_is_not_handled_witness :
  snd (compress_video (m := Faulty.idle_encoder)
         input_video output_video target_size
         (Faulty.start Faulty.idle_encoder Sample.promo)) =
  Py.Err Py.OSError.
Proof.
  destruct (missing_output_is_not_handled (m := Faulty.idle_encoder)
              input_video output_video target_size
              (Faulty.start Faulty.idle_encoder Sample.promo)
              (Py.Float (S754_finite false 7036874417766400 (-45)))
              Sample.promo Sample.f600 940 Sample.promo "") as [Hrun _].
  - repeat split. exists ("600.000000" ++ nl)%string. repeat split.
  - reflexivity.
  - reflexivity.
  - rewrite Hrun. reflexivity.
Defined.

Lemma failed_calculation_never_encodes_witness :
  compress_video (m := Faulty.zero_duration)
    input_video output_video target_size
    (Faulty.start Faulty.zero_duration Sample.promo) =
  (@Build_state Faulty.zero_duration Sample.promo
     [EvExists input_video; EvGetsize input_video;
      EvPrint "Current video size: 200.00 MB";
      EvRun (ffprobe_cmd input_video);
      EvPrint "Video duration: 0.00 seconds"],
   Py.Err Py.ZeroDivisionError).
Proof.
  apply (failed_calculation_never_encodes (m := Faulty.zero_duration)
           input_video output_video target_size
           (Faulty.start Faulty.zero_duration Sample.promo)
           (Py.Float (S754_finite false 7036874417766400 (-45)))
           Sample.promo ("0.000000" ++ nl)%string (S754_zero false)
           Py.ZeroDivisionError).
  - reflexivity.
  - reflexivity.
  - reflexivity.
  - reflexivity.
  - reflexivity.
Defined.

(** * Bounds on the computed bitrate *)

Lemma format_int (k : Z) :
  Z.abs k < 2 ^ 53 -> format Py.prec Py.emax (IZR k).
Proof.
  intros Hk. exists k, 0. split; [rewrite bpow_0; lra |].
  split; [exact Hk | vm_compute; discriminate].
Qed.

(** [k / 2^n] is a point of the format when [k] has at most 53 bits. *)
Lemma format_dyadic (k n : Z) :
  Z.abs k < 2 ^ 53 -> 0 <= n <= 1074 ->
  format Py.prec Py.emax (IZR k * bpow (- n)).
Proof.
  intros Hk Hn. exists k, (- n). split; [reflexivity |].
  split; [exact Hk |]. change (SpecFloat.emin Py.prec Py.emax) with (-1074). lia.
Qed.

Lemma bpow_neg (n : Z) : 0 <= n -> bpow (- n) = (/ IZR (2 ^ n))%R.
Proof.
  intros Hn. pose proof (pow2_pos n Hn) as Hp.
  assert (HP : (0 < IZR (2 ^ n))%R) by (apply IZR_lt; exact Hp).
  apply Rmult_eq_reg_r with (IZR (2 ^ n)); [| lra].
  rewrite Rinv_l by lra.
  rewrite <- bpow_IZR, <- bpow_plus by lia.
  replace (- n + n) with 0 by lia. apply bpow_0.
Qed.

Lemma value_f1000 : float_value f1000 = 1000%R.
Proof.
  cbn [f1000 float_value]. change (-43) with (- (43)).
  rewrite bpow_neg by lia. change (2 ^ 43) with 8796093022208. lra.
Qed.

Lemma value_f128 : float_value f128 = 128%R.
Proof.
  cbn [f128 float_value]. change (-45) with (- (45)).
  rewrite bpow_neg by lia. change (2 ^ 45) with 35184372088832. lra.
Qed.

Lemma value_lit_0_95 :
  float_value Py.lit_0_95 = (8556839292003942 / 9007199254740992)%R.
Proof.
  cbn [Py.lit_0_95 float_value]. change (-53) with (- (53)).
  rewrite bpow_neg by lia. change (2 ^ 53) with 9007199254740992. lra.
Qed.

Lemma sub_finite_left (x c : Py.float) :
  Py.is_finite (SFsub Py.prec Py.emax x c) = true -> Py.is_finite x = true.
Proof.
  destruct x as [s|s| |s m e]; auto;
    destruct c as [s'|s'| |s' m' e']; cbn [SFsub Py.is_finite]; auto.
  destruct s, s'; auto.
Qed.

Lemma div_finite_left (x c : Py.float) :
  Py.is_finite (SFdiv Py.prec Py.emax x c) = true -> Py.is_finite x = true.
Proof.
  destruct x as [s|s| |s m e]; auto;
    destruct c as [s'|s'| |s' m' e']; cbn [SFdiv Py.is_finite]; auto.
Qed.

(** The calculation, stage by stage, on a finite positive duration: each
    stage is the correctly rounded value of what it computes. *)
Lemma bitrate_stages (t : Py.num) (m : positive) (e : Z) (v : Z) :
  let d := S754_finite false m e in
  valid_num t -> valid_binary Py.prec Py.emax d = true ->
  target_video_bitrate t (Py.Float d) = Py.Ok v ->
  exists b : Py.float,
    dividend t = Py.Ok b /\ finite_num t /\
    let q := SFdiv Py.prec Py.emax b d in
    let tot := SFdiv Py.prec Py.emax q f1000 in
    let w := SFsub Py.prec Py.emax tot f128 in
    let sc := SFmul Py.prec Py.emax w Py.lit_0_95 in
    rounds_to Py.prec Py.emax (num_value t * 8388608) b /\
    rounds_to Py.prec Py.emax (float_value b / float_value d) q /\
    rounds_to Py.prec Py.emax (float_value q / 1000) tot /\
    rounds_to Py.prec Py.emax (float_value tot - 128) w /\
    rounds_to Py.prec Py.emax (float_value w * float_value Py.lit_0_95) sc /\
    v = Py.trunc sc.
Proof.
  intros d Ht Hd Hv. rewrite target_video_bitrate_stages in Hv.
  destruct (dividend t) as [b | ?] eqn:Hb; [| discriminate].
  cbn [Py.rbind Py.is_zero d] in Hv.
  apply int_of_float in Hv. destruct Hv as [Hsc ->].
  unfold scaled_of in *.
  exists b. split; [reflexivity |]. cbv zeta.
  set (q := SFdiv Py.prec Py.emax b d) in *.
  set (tot := SFdiv Py.prec Py.emax q f1000) in *.
  set (w := SFsub Py.prec Py.emax tot f128) in *.
  pose proof (mul_finite_left _ _ Hsc) as Hw.
  pose proof (sub_finite_left _ _ Hw) as Htot.
  pose proof (div_finite_left _ _ Htot) as Hq.
  pose proof (div_finite_left _ _ Hq) as Hbf.
  destruct (dividend_rounds t b Ht Hb Hbf) as (Hft & Hrb).
  assert (Hrq : rounds_to Py.prec Py.emax (float_value b / float_value d) q).
  { apply SFdiv_rounds; unfold d; eauto using prec_pos. apply Hrb. }
  assert (Hrt : rounds_to Py.prec Py.emax (float_value q / 1000) tot).
  { rewrite <- value_f1000.
    apply SFdiv_rounds; unfold f1000; eauto using prec_pos. apply Hrq. }
  assert (Hrw : rounds_to Py.prec Py.emax (float_value tot - 128) w).
  { rewrite <- value_f128.
    apply SFsub_rounds; auto using prec_pos. apply Hrt. }
  repeat (split; [assumption |]). split; [| reflexivity].
  apply SFmul_rounds; auto using prec_pos, prec_lt_emax. apply Hrw.
Qed.

(** With an infinite duration every quotient is zero, and what is left is
    [int((0 - 128) * 0.95)]. *)
Lemma bitrate_infinite_duration (t : Py.num) (s : bool) (v : Z) :
  target_video_bitrate t (Py.Float (S754_infinity s)) = Py.Ok v -> v = -121.
Proof.
  rewrite target_video_bitrate_stages.
  destruct (dividend t) as [b | ?]; [| discriminate].
  cbn [Py.rbind Py.is_zero]. unfold scaled_of.
  destruct b as [sb | sb | | sb mb eb]; cbn [SFdiv];
    try (destruct sb, s; vm_compute; intros H; first [discriminate H | injection H as <-; reflexivity]).
  vm_compute; discriminate.
Qed.

Lemma trunc_ge (f : Py.float) (k : Z) :
  (IZR k - 1 < float_value f)%R -> k <= 0 -> k <= Py.trunc f.
Proof.
  intros Hf Hk. destruct (trunc_spec f) as [_ Hneg].
  destruct (trunc_sign f) as [Hpos _].
  destruct (Rle_lt_dec 0 (float_value f)) as [H0 | H0].
  - specialize (Hpos H0). lia.
  - specialize (Hneg ltac:(lra)).
    assert (H : (IZR (k - 1) < IZR (Py.trunc f))%R) by (rewrite minus_IZR; lra).
    apply lt_IZR in H. lia.
Qed.

Lemma trunc_lt (f : Py.float) (k : Z) :
  (float_value f < IZR k)%R -> 0 < k -> Py.trunc f < k.
Proof.
  intros Hf Hk. destruct (trunc_spec f) as [Hpos _].
  destruct (trunc_sign f) as [_ Hneg].
  destruct (Rle_lt_dec 0 (float_value f)) as [H0 | H0].
  - specialize (Hpos H0).
    assert (H : (IZR (Py.trunc f) < IZR k)%R) by lra.
    apply lt_IZR in H. exact H.
  - specialize (Hneg ltac:(lra)). lia.
Qed.

(** X7: the computed bitrate is never below -121.  For a target size that
    is not negative and a positive duration, whatever the calculation
    returns is at least [int(-128 * 0.95)]: the quotient is not negative,
    and rounding cannot take it below zero. *)
Theorem bitrate_at_least_minus_121 (t : Py.num) (d : Py.float) (v : Z) :
  valid_num t -> valid_binary Py.prec Py.emax d = true ->
  Py.le (Py.Int 0) t = true ->
  Py.lt (Py.Int 0) (Py.Float d) = true ->
  target_video_bitrate t (Py.Float d) = Py.Ok v ->
  -121 <= v.
Proof.
  intros Ht Hd Ht0 Hd0 Hv.
  destruct (positive_float d Hd0) as [-> | (m & e & ->)].
  { rewrite (bitrate_infinite_duration t false v Hv). lia. }
  destruct (bitrate_stages t m e v Ht Hd Hv)
    as (b & _ & Hft & Hrb & Hrq & Hrt & Hrw & Hrs & ->).
  pose proof (finite_positive_value m e) as HD.
  set (D := float_value (S754_finite false m e)) in *.
  assert (HT : (0 <= num_value t)%R).
  { apply (le_spec (Py.Int 0) t I Ht I Hft) in Ht0. exact Ht0. }
  destruct Hrb as (_ & _ & Hnb). destruct Hrq as (_ & _ & Hnq).
  destruct Hrt as (_ & _ & Hnt). destruct Hrw as (_ & _ & Hnw).
  destruct Hrs as (_ & _ & Hns).
  assert (Hb0 : (0 <= float_value b)%R).
  { eapply (nearest_nonneg Py.prec Py.emax prec_pos); [| exact Hnb]. lra. }
  assert (Hq0 : (0 <= float_value (SFdiv Py.prec Py.emax b (S754_finite false m e)))%R).
  { eapply (nearest_nonneg Py.prec Py.emax prec_pos); [| exact Hnq].
    apply Rmult_le_pos; [exact Hb0 |]. apply Rlt_le, Rinv_0_lt_compat, HD. }
  set (q := SFdiv Py.prec Py.emax b (S754_finite false m e)) in *.
  assert (Ht0' : (0 <= float_value (SFdiv Py.prec Py.emax q f1000))%R).
  { eapply (nearest_nonneg Py.prec Py.emax prec_pos); [| exact Hnt].
    unfold Rdiv. lra. }
  set (tot := SFdiv Py.prec Py.emax q f1000) in *.
  assert (Hw0 : (-128 <= float_value (SFsub Py.prec Py.emax tot f128))%R).
  { eapply nearest_ge_format; [exact Hnw | | lra].
    apply (format_int (-128)). reflexivity. }
  set (w := SFsub Py.prec Py.emax tot f128) in *.
  assert (Hs0 : (IZR (-487) * bpow (- (2))
                 <= float_value (SFmul Py.prec Py.emax w Py.lit_0_95))%R).
  { eapply nearest_ge_format; [exact Hns | |].
    - apply format_dyadic; [reflexivity | lia].
    - rewrite bpow_neg by lia. change (2 ^ 2) with 4.
      rewrite value_lit_0_95. lra. }
  apply trunc_ge; [| lia].
  rewrite bpow_neg in Hs0 by lia. change (2 ^ 2) with 4 in Hs0. lra.
Qed.

(** An upper bound: if the bit budget is at most [k] kilobits for each
    second, the result is at most [k - 129], or not positive when that is
    negative. *)
Lemma bitrate_upper (t : Z) (m : positive) (e : Z) (v k : Z) :
  let d := S754_finite false m e in
  0 <= t < 2 ^ 30 ->
  valid_binary Py.prec Py.emax d = true ->
  target_video_bitrate (Py.Int t) (Py.Float d) = Py.Ok v ->
  0 <= k -> 1000 * k < 2 ^ 53 ->
  (IZR t * 8388608 <= 1000 * IZR k * float_value d)%R ->
  (k <= 128 -> v <= 0) /\ (129 <= k -> v <= k - 129).
Proof.
  intros d Ht Hd Hv Hk0 Hk HT.
  destruct (bitrate_stages (Py.Int t) m e v I Hd Hv)
    as (b & _ & _ & Hrb & Hrq & Hrt & Hrw & Hrs & ->).
  pose proof (finite_positive_value m e) as HD.
  fold d in HD, Hrq, Hrt, Hrw, Hrs |- *.
  set (D := float_value d) in *.
  destruct Hrb as (_ & _ & Hnb). destruct Hrq as (_ & _ & Hnq).
  destruct Hrt as (_ & _ & Hnt). destruct Hrw as (_ & _ & Hnw).
  destruct Hrs as (_ & _ & Hns).
  cbn [num_value] in Hnb.
  assert (Hb : float_value b = (IZR t * 8388608)%R).
  { eapply nearest_of_format; [exact Hnb |].
    replace (IZR t * 8388608)%R with (IZR (t * 8388608))
      by (rewrite mult_IZR; reflexivity).
    apply format_int. change (2 ^ 53) with (2 ^ 30 * 8388608). lia. }
  set (q := SFdiv Py.prec Py.emax b d) in *.
  assert (Hq : (float_value q <= IZR (1000 * k))%R).
  { eapply nearest_le_format; [exact Hnq | apply format_int; lia |].
    rewrite Hb, mult_IZR.
    apply Rmult_le_reg_r with D; [exact HD |].
    unfold Rdiv. rewrite Rmult_assoc, Rinv_l, Rmult_1_r by lra. exact HT. }
  set (tot := SFdiv Py.prec Py.emax q f1000) in *.
  assert (Htot : (float_value tot <= IZR k)%R).
  { eapply nearest_le_format; [exact Hnt | apply format_int; lia |].
    rewrite mult_IZR in Hq. lra. }
  set (w := SFsub Py.prec Py.emax tot f128) in *.
  assert (Hw : (float_value w <= IZR (k - 128))%R).
  { eapply nearest_le_format; [exact Hnw | apply format_int; lia |].
    rewrite minus_IZR. lra. }
  rewrite minus_IZR in Hw.
  pose proof value_lit_0_95 as Hc.
  set (c := float_value Py.lit_0_95) in *.
  set (sc := SFmul Py.prec Py.emax w Py.lit_0_95) in *.
  split.
  - intros Hle. apply (trunc_sign sc).
    eapply nearest_le_format; [exact Hns | apply (format_0 _ _ prec_pos) |].
    assert (Hk' : (IZR k <= 128)%R) by (apply IZR_le; exact Hle).
    assert (Hw' : (float_value w <= 0)%R) by lra.
    assert (Hc' : (0 <= c)%R) by lra.
    nra.
  - intros Hge.
    assert (Hj : (1 <= IZR k - 128)%R).
    { assert (H : (129 <= IZR k)%R) by (apply IZR_le; exact Hge). lra. }
    assert (Hs : (float_value sc <= IZR (31 * (k - 128)) * bpow (- (5)))%R).
    { eapply nearest_le_format; [exact Hns | apply format_dyadic; lia |].
      rewrite bpow_neg by lia. change (2 ^ 5) with 32.
      rewrite mult_IZR, minus_IZR.
      assert (Hc' : (0 <= c <= 31 / 32)%R) by lra.
      destruct (Rle_lt_dec 0 (float_value w)) as [Hw0 | Hw0]; nra. }
    rewrite bpow_neg in Hs by lia. change (2 ^ 5) with 32 in Hs.
    rewrite mult_IZR, minus_IZR in Hs.
    assert (Hlt : Py.trunc sc < k - 128).
    { apply trunc_lt; [| lia]. rewrite minus_IZR. lra. }
    lia.
Qed.

(** X8: the bitrate stays within the budget.  For an [int] target below
    [2^30] MB and a positive finite duration [d]: if the target holds no more
    than the audio, [t * 8 * 1024 * 1024 <= 128000 * d], the video bitrate is
    zero or negative; and a positive video bitrate [v] satisfies
    [(v + 128) * 1000 * d <= t * 8 * 1024 * 1024], the video and the audio
    together fit the target (here for budgets up to [2^43] kilobits per
    second). *)
Theorem bitrate_within_budget (t : Z) (m : positive) (e : Z) (v : Z) :
  let d := S754_finite false m e in
  0 <= t < 2 ^ 30 ->
  valid_binary Py.prec Py.emax d = true ->
  target_video_bitrate (Py.Int t) (Py.Float d) = Py.Ok v ->
  ((IZR t * 8388608 <= 128000 * float_value d)%R -> v <= 0) /\
  ((IZR t * 8388608 <= 1000 * bpow 43 * float_value d)%R -> 1 <= v ->
   (IZR (v + 128) * 1000 * float_value d <= IZR t * 8388608)%R).
Proof.
  intros d Ht Hd Hv.
  pose proof (finite_positive_value m e) as HD. fold d in HD.
  split.
  - intros HT.
    apply (bitrate_upper t m e v 128 Ht Hd Hv); try lia.
    fold d. lra.
  - intros HT Hv1.
    set (D := float_value d) in *.
    set (x := (IZR t * 8388608 / (1000 * D))%R).
    assert (HxD : (x * (1000 * D) = IZR t * 8388608)%R).
    { unfold x, Rdiv. rewrite Rmult_assoc, Rinv_l, Rmult_1_r by lra.
      reflexivity. }
    assert (Ht0 : (0 <= IZR t)%R) by (apply IZR_le; lia).
    assert (Hx0 : (0 <= x)%R).
    { unfold x. apply Rmult_le_pos; [lra |].
      apply Rlt_le, Rinv_0_lt_compat. lra. }
    assert (H43 : bpow 43 = 8796093022208%R).
    { rewrite bpow_IZR by lia. reflexivity. }
    assert (Hx43 : (x <= 8796093022208)%R).
    { apply Rmult_le_reg_r with (1000 * D)%R; [lra |].
      rewrite HxD. rewrite H43 in HT. lra. }
    destruct (archimed x) as [Hup1 Hup2].
    set (k := up x) in *.
    assert (Hk0 : 0 < k).
    { apply lt_IZR. lra. }
    assert (Hk43 : k <= 8796093022208 + 1).
    { apply le_IZR. rewrite plus_IZR. lra. }
    destruct (bitrate_upper t m e v k Ht Hd Hv) as [Hlow Hhigh]; try lia.
    { fold d D. rewrite <- HxD. nra. }
    destruct (Z_le_gt_dec k 128) as [Hk | Hk]; [specialize (Hlow Hk); lia |].
    specialize (Hhigh ltac:(lia)).
    assert (Hvk : (IZR (v + 128) <= IZR k - 1)%R).
    { rewrite <- minus_IZR. apply IZR_le. lia. }
    rewrite <- HxD.
    assert (Hvx : (IZR (v + 128) <= x)%R) by lra.
    nra.
Qed.

(** From the quotient by the duration to the value handed to [int]. *)
Lemma tail_stage :
  stage (fun q => SFmul Py.prec Py.emax
                    (SFsub Py.prec Py.emax (SFdiv Py.prec Py.emax q f1000) f128)
                    Py.lit_0_95).
Proof.
  apply (stage_compose
           (fun q => SFsub Py.prec Py.emax (SFdiv Py.prec Py.emax q f1000) f128)
           (fun w => SFmul Py.prec Py.emax w Py.lit_0_95));
    [| apply mul_stage; reflexivity].
  apply (stage_compose
           (fun q => SFdiv Py.prec Py.emax q f1000)
           (fun x => SFsub Py.prec Py.emax x f128));
    [| apply sub_stage; reflexivity].
  apply div_stage. reflexivity.
Qed.

(** X9: a longer video gets a lower bitrate.  For a target size that is not
    negative and two positive durations [d1 < d2], the bitrate computed for
    [d2] is at most the one computed for [d1]. *)
Theorem bitrate_antitone_in_duration (t : Py.num) (d1 d2 : Py.float)
  (v1 v2 : Z) :
  valid_num t ->
  valid_binary Py.prec Py.emax d1 = true ->
  valid_binary Py.prec Py.emax d2 = true ->
  Py.le (Py.Int 0) t = true ->
  Py.lt (Py.Int 0) (Py.Float d1) = true ->
  Py.lt (Py.Float d1) (Py.Float d2) = true ->
  target_video_bitrate t (Py.Float d1) = Py.Ok v1 ->
  target_video_bitrate t (Py.Float d2) = Py.Ok v2 ->
  v2 <= v1.
Proof.
  intros Ht Hd1 Hd2 Ht0 Hpos1 Hlt H1 H2.
  destruct (positive_float d1 Hpos1) as [-> | (m1 & e1 & ->)].
  { exfalso. revert Hlt. unfold Py.lt. cbn [Py.compare].
    destruct d2 as [s | s | | s m2 e2]; try destruct s; cbn; discriminate. }
  assert (Hinf2 : d2 = S754_infinity false \/
                  exists m2 e2, d2 = S754_finite false m2 e2 /\
                    (float_value (S754_finite false m1 e1)
                     < float_value (S754_finite false m2 e2))%R).
  { destruct d2 as [s | s | | s2 m2 e2].
    - exfalso. revert Hlt. unfold Py.lt. cbn. discriminate.
    - destruct s; [| left; reflexivity].
      exfalso. revert Hlt. unfold Py.lt. cbn. discriminate.
    - exfalso. revert Hlt. unfold Py.lt. cbn. discriminate.
    - right.
      assert (Hr : (float_value (S754_finite false m1 e1)
                    < float_value (S754_finite s2 m2 e2))%R).
      { apply (lt_spec (Py.Float (S754_finite false m1 e1))
                 (Py.Float (S754_finite s2 m2 e2))); auto; reflexivity. }
      destruct s2.
      + exfalso. pose proof (finite_positive_value m1 e1) as P1.
        pose proof (finite_positive_value m2 e2) as P2.
        cbn [float_value] in Hr, P1, P2.
        change (Z.neg m2) with (- Z.pos m2) in Hr. rewrite opp_IZR in Hr. lra.
      + exists m2, e2. split; [reflexivity | exact Hr]. }
  destruct (bitrate_stages t m1 e1 v1 Ht Hd1 H1)
    as (b & Hb & Hft & Hrb & Hrq1 & _ & _ & Hs1 & ->).
  pose proof (finite_positive_value m1 e1) as HD1.
  assert (HT : (0 <= num_value t)%R).
  { apply (le_spec (Py.Int 0) t I Ht I Hft) in Ht0. exact Ht0. }
  assert (Hb0 : (0 <= float_value b)%R).
  { destruct Hrb as (_ & _ & Hnb).
    eapply (nearest_nonneg Py.prec Py.emax prec_pos); [| exact Hnb]. lra. }
  set (q1 := SFdiv Py.prec Py.emax b (S754_finite false m1 e1)) in *.
  assert (Hq1 : (0 <= float_value q1)%R).
  { destruct Hrq1 as (_ & _ & Hnq).
    eapply (nearest_nonneg Py.prec Py.emax prec_pos); [| exact Hnq].
    apply Rmult_le_pos; [exact Hb0 |]. apply Rlt_le, Rinv_0_lt_compat, HD1. }
  destruct tail_stage as (_ & _ & Hmono).
  destruct Hinf2 as [-> | (m2 & e2 & -> & Hlt')].
  - (* the second duration is infinite *)
    rewrite (bitrate_infinite_duration t false v2 H2).
    apply trunc_ge; [| lia].
    assert (Hz : valid_binary Py.prec Py.emax (S754_zero false) = true)
      by reflexivity.
    assert (Hm : (float_value
                    (SFmul Py.prec Py.emax
                       (SFsub Py.prec Py.emax
                          (SFdiv Py.prec Py.emax (S754_zero false) f1000) f128)
                       Py.lit_0_95)
                  <= float_value
                       (SFmul Py.prec Py.emax
                          (SFsub Py.prec Py.emax
                             (SFdiv Py.prec Py.emax q1 f1000) f128)
                          Py.lit_0_95))%R).
    { apply Hmono; [reflexivity | apply Hrq1 | reflexivity | apply Hs1 |].
      cbn [float_value]. exact Hq1. }
    assert (Hval : (-122 < float_value
                    (SFmul Py.prec Py.emax
                       (SFsub Py.prec Py.emax
                          (SFdiv Py.prec Py.emax (S754_zero false) f1000) f128)
                       Py.lit_0_95))%R).
    { assert (Hr : rounds_to Py.prec Py.emax
                     (float_value (SFsub Py.prec Py.emax
                          (SFdiv Py.prec Py.emax (S754_zero false) f1000) f128)
                      * float_value Py.lit_0_95)
                     (SFmul Py.prec Py.emax
                       (SFsub Py.prec Py.emax
                          (SFdiv Py.prec Py.emax (S754_zero false) f1000) f128)
                       Py.lit_0_95)).
      { apply SFmul_rounds; auto using prec_pos, prec_lt_emax; reflexivity. }
      destruct Hr as (_ & _ & Hn).
      assert (Hw : float_value (SFsub Py.prec Py.emax
                          (SFdiv Py.prec Py.emax (S754_zero false) f1000) f128)
                   = (-128)%R).
      { replace (SFsub Py.prec Py.emax
                   (SFdiv Py.prec Py.emax (S754_zero false) f1000) f128)
          with (S754_finite true 4503599627370496 (-45))
          by (vm_compute; reflexivity).
        cbn [float_value]. change (-45) with (- (45)).
        rewrite bpow_neg by lia. change (2 ^ 45) with 35184372088832. lra. }
      rewrite Hw, value_lit_0_95 in Hn.
      assert (Hge : (IZR (-487) * bpow (- (2)) <= float_value
                    (SFmul Py.prec Py.emax
                       (SFsub Py.prec Py.emax
                          (SFdiv Py.prec Py.emax (S754_zero false) f1000) f128)
                       Py.lit_0_95))%R).
      { eapply nearest_ge_format; [exact Hn | |].
        - apply format_dyadic; [reflexivity | lia].
        - rewrite bpow_neg by lia. change (2 ^ 2) with 4. lra. }
      rewrite bpow_neg in Hge by lia. change (2 ^ 2) with 4 in Hge. lra. }
    change (IZR (-121) - 1)%R with (-121 - 1)%R. lra.
  - (* both durations are finite *)
    destruct (bitrate_stages t m2 e2 v2 Ht Hd2 H2)
      as (b' & Hb' & _ & _ & Hrq2 & _ & _ & Hs2 & ->).
    rewrite Hb in Hb'. injection Hb' as <-.
    pose proof (finite_positive_value m2 e2) as HD2.
    set (q2 := SFdiv Py.prec Py.emax b (S754_finite false m2 e2)) in *.
    apply trunc_monotone. apply Hmono.
    + apply Hrq2.
    + apply Hrq1.
    + apply Hs2.
    + apply Hs1.
    + destruct Hrq1 as (_ & _ & Hn1). destruct Hrq2 as (_ & _ & Hn2).
      set (D1 := float_value (S754_finite false m1 e1)) in *.
      set (D2 := float_value (S754_finite false m2 e2)) in *.
      destruct (Rle_lt_or_eq_dec _ _ Hb0) as [Hbpos | Hbz].
      * eapply nearest_monotone; [| exact Hn2 | exact Hn1].
        unfold Rdiv. apply Rmult_lt_compat_l; [exact Hbpos |].
        apply Rinv_lt_contravar; [| exact Hlt'].
        apply Rmult_lt_0_compat; assumption.
      * rewrite <- Hbz in Hn1, Hn2.
        replace (0 / D1)%R with 0%R in Hn1 by (unfold Rdiv; lra).
        replace (0 / D2)%R with 0%R in Hn2 by (unfold Rdiv; lra).
        rewrite (nearest_of_format _ _ _ _ Hn1 (format_0 _ _ prec_pos)).
        rewrite (nearest_of_format _ _ _ _ Hn2 (format_0 _ _ prec_pos)). lra.
Qed.

(** * Durations that are not positive finite numbers *)

(** X10: what the calculation does with a duration that is zero, not a number
    or infinite, for an [int] target that fits a float.  A zero duration (of
    either sign) raises [ZeroDivisionError]; a NaN goes through the
    arithmetic and makes [int] raise [ValueError]; an infinite duration makes
    every quotient zero and the result -121. *)
Theorem degenerate_durations (t : Z) :
  Z.abs t <= 2 ^ 1000 ->
  (forall s, target_video_bitrate (Py.Int t) (Py.Float (S754_zero s))
             = Py.Err Py.ZeroDivisionError) /\
  target_video_bitrate (Py.Int t) (Py.Float S754_nan) = Py.Err Py.ValueError /\
  (forall s, target_video_bitrate (Py.Int t) (Py.Float (S754_infinity s))
             = Py.Ok (-121)).
Proof.
  intros Ht.
  assert (Hb : exists b, dividend (Py.Int t) = Py.Ok b /\ Py.is_finite b = true).
  { cbn [dividend].
    apply (float_of_int_returns _ (bpow 1023)).
    - apply in_range_bpow; [exact prec_pos |].
      split; [vm_compute; discriminate | reflexivity].
    - rewrite (bpow_IZR 1023) by lia. rewrite <- abs_IZR. apply IZR_le.
      replace (t * 8 * 1024 * 1024) with (t * 2 ^ 23) by (change (2 ^ 23) with 8388608; lia).
      rewrite Z.abs_mul, (Z.abs_eq (2 ^ 23)) by (apply Z.pow_nonneg; lia).
      replace 1023 with (1000 + 23) by lia. rewrite Z.pow_add_r by lia.
      apply Z.mul_le_mono_nonneg_r; [apply Z.pow_nonneg; lia | exact Ht]. }
  destruct Hb as (b & Hb & Hfin).
  split; [| split].
  - intros s. rewrite target_video_bitrate_stages, Hb. reflexivity.
  - rewrite target_video_bitrate_stages, Hb. cbn [Py.rbind Py.is_zero].
    unfold scaled_of.
    destruct b as [sb | sb | | sb mb eb]; try discriminate; reflexivity.
  - intros s. rewrite target_video_bitrate_stages, Hb.
    cbn [Py.rbind Py.is_zero]. unfold scaled_of.
    destruct b as [sb | sb | | sb mb eb]; try discriminate; cbn [SFdiv];
      destruct sb, s; vm_compute; reflexivity.
Qed.

Lemma degenerate_durations_witness :
  target_video_bitrate (Py.Int 80) (Py.Float (S754_zero false))
    = Py.Err Py.ZeroDivisionError /\
  target_video_bitrate (Py.Int 80) (Py.Float S754_nan) = Py.Err Py.ValueError /\
  target_video_bitrate (Py.Int 80) (Py.Float (S754_infinity false))
    = Py.Ok (-121).
Proof.
  destruct (degenerate_durations 80) as (Hz & Hn & Hi).
  - vm_compute. discriminate.
  - split; [apply Hz |]. split; [exact Hn | apply Hi].
Defined.

(** * The reported reduction *)

(** The size in megabytes of a file of [n] bytes. *)
Lemma size_mb_rounds (n : Z) :
  0 <= n < 2 ^ 63 ->
  exists f, Py.int_truediv n (1024 * 1024) = Py.Ok f /\
            rounds_to Py.prec Py.emax (IZR n / 1048576) f /\
            (0 <= float_value f <= bpow 43)%R /\
            (0 < n -> (bpow (- (20)) <= float_value f)%R).
Proof.
  intros Hn.
  assert (Hpos : (0 < 1048576)%R) by lra.
  assert (Hn0 : (0 <= IZR n)%R) by (apply IZR_le; lia).
  assert (Hq : (0 <= IZR n / 1048576 <= bpow 43)%R).
  { split; [apply Rmult_le_pos; [exact Hn0 | lra] |].
    rewrite (bpow_IZR 43) by lia.
    apply Rmult_le_reg_r with 1048576%R; [exact Hpos |].
    unfold Rdiv. rewrite Rmult_assoc, Rinv_l, Rmult_1_r by lra.
    change 1048576%R with (IZR (1024 * 1024)). rewrite <- mult_IZR.
    apply IZR_le. change (2 ^ 43 * (1024 * 1024)) with (2 ^ 63). lia. }
  assert (Hret : exists f, Py.int_truediv n (1024 * 1024) = Py.Ok f).
  { destruct (Z.eq_dec n 0) as [-> | Hne]; [eexists; reflexivity |].
    apply (int_truediv_returns n (1024 * 1024) 43); try lia.
    - change (IZR (1024 * 1024)) with 1048576%R. apply Hq.
    - split; [vm_compute; discriminate | reflexivity]. }
  destruct Hret as [f Hf]. exists f. split; [exact Hf |].
  pose proof (int_truediv_rounds _ _ _ Hf) as Hr.
  change (IZR (1024 * 1024)) with 1048576%R in Hr.
  split; [exact Hr |]. destruct Hr as (_ & _ & Hnear).
  split; [split |].
  - eapply (nearest_nonneg Py.prec Py.emax prec_pos); [| exact Hnear]. apply Hq.
  - eapply nearest_le_format; [exact Hnear | | apply Hq].
    replace (bpow 43) with (IZR 1 * bpow 43)%R by lra.
    exists 1, 43. split; [reflexivity |].
    split; [reflexivity | vm_compute; discriminate].
  - intros Hn1. eapply nearest_ge_format; [exact Hnear | |].
    + replace (bpow (- (20))) with (IZR 1 * bpow (- (20)))%R by lra.
      apply format_dyadic; [reflexivity | lia].
    + rewrite bpow_neg by lia. change (2 ^ 20) with 1048576.
      assert (H1 : (1 <= IZR n)%R) by (apply IZR_le; lia).
      unfold Rdiv. assert (Hi : (0 < / 1048576)%R) by (apply Rinv_0_lt_compat; lra).
      nra.
Qed.

Lemma value_f100 : float_value Sample.f100 = 100%R.
Proof.
  cbn [Sample.f100 float_value]. change (-46) with (- (46)).
  rewrite bpow_neg by lia. change (2 ^ 46) with 70368744177664. lra.
Qed.

Lemma positive_value_finite (f : Py.float) :
  (0 < float_value f)%R -> exists s m e, f = S754_finite s m e.
Proof.
  destruct f as [s | s | | s m e]; cbn [float_value]; try lra. eauto.
Qed.

Lemma in_range_pow (n : Z) :
  -1074 <= n < 1024 -> in_range Py.prec Py.emax (bpow n).
Proof.
  intros Hn. apply in_range_bpow; [exact prec_pos |].
  change (SpecFloat.emin Py.prec Py.emax) with (-1074).
  change Py.emax with 1024. exact Hn.
Qed.

(** X11: the reported reduction for files of [n] and [n'] bytes.  With an
    input of [n > 0] bytes and an output of [n'] bytes, sizes as a file
    system reports them, the percentage [((cur - comp) / cur) * 100] is
    computed without an exception; it lies between 0 and 100 when the output
    is no larger than the input, and it is zero or negative when the output
    is no smaller: the script reports a larger output as a negative
    reduction. *)
Theorem reduction_between_0_and_100 (n n' : Z) :
  0 < n < 2 ^ 63 -> 0 <= n' < 2 ^ 63 ->
  exists cur comp r : Py.float,
    Py.truediv (Py.Int n) (Py.Int (1024 * 1024)) = Py.Ok (Py.Float cur) /\
    Py.truediv (Py.Int n') (Py.Int (1024 * 1024)) = Py.Ok (Py.Float comp) /\
    reduction_percent (Py.Float cur) (Py.Float comp) = Py.Ok (Py.Float r) /\
    Py.is_finite r = true /\
    (n' <= n -> (0 <= float_value r <= 100)%R) /\
    (n <= n' -> (float_value r <= 0)%R).
Proof.
  intros Hn Hn'.
  destruct (size_mb_rounds n ltac:(lia)) as (cur & Hcur & Hrcur & Hbcur & Hlow).
  destruct (size_mb_rounds n' Hn') as (comp & Hcomp & Hrcomp & Hbcomp & _).
  specialize (Hlow ltac:(lia)).
  pose proof (bpow_gt_0 (- (20))) as H20.
  assert (Hcur0 : (0 < float_value cur)%R) by lra.
  destruct (positive_value_finite cur Hcur0) as (sc & mc & ec & Ecur).
  destruct Hrcur as (Hvcur & Hfcur & Hncur).
  destruct Hrcomp as (Hvcomp & Hfcomp & Hncomp).
  (* the difference *)
  set (saved := SFsub Py.prec Py.emax cur comp).
  assert (Hsf : Py.is_finite saved = true).
  { apply (SFsub_finite Py.prec Py.emax prec_pos prec_lt_emax cur comp (bpow 43));
      auto; [apply in_range_pow; lia |]. apply Rabs_le. lra. }
  assert (Hsr : rounds_to Py.prec Py.emax (float_value cur - float_value comp) saved).
  { apply SFsub_rounds; auto using prec_pos. }
  assert (Hsb : (Rabs (float_value saved) <= bpow 43)%R).
  { apply (rounds_to_bounded Py.prec Py.emax prec_pos _ _ _ Hsr);
      [apply in_range_pow; lia |]. apply Rabs_le. lra. }
  (* the ratio *)
  set (ratio := SFdiv Py.prec Py.emax saved cur).
  assert (H63 : (bpow 43 <= bpow 63 * bpow (- (20)))%R).
  { rewrite <- bpow_plus. apply bpow_le. lia. }
  assert (Hq : (Rabs (float_value saved / float_value cur) <= bpow 63)%R).
  { unfold Rdiv. rewrite Rabs_mult, (Rabs_pos_eq (/ float_value cur))
      by (apply Rlt_le, Rinv_0_lt_compat; exact Hcur0).
    apply Rmult_le_reg_r with (float_value cur); [exact Hcur0 |].
    rewrite Rmult_assoc, Rinv_l, Rmult_1_r by lra.
    pose proof (bpow_gt_0 63). nra. }
  assert (Hrf : Py.is_finite ratio = true).
  { apply (SFdiv_finite Py.prec Py.emax prec_pos prec_lt_emax saved cur (bpow 63));
      eauto. apply in_range_pow; lia. }
  assert (Hrr : rounds_to Py.prec Py.emax (float_value saved / float_value cur) ratio).
  { apply SFdiv_rounds; eauto using prec_pos. apply Hsr. }
  assert (Hrb : (Rabs (float_value ratio) <= bpow 63)%R).
  { apply (rounds_to_bounded Py.prec Py.emax prec_pos _ _ _ Hrr);
      [apply in_range_pow; lia | exact Hq]. }
  (* times 100 *)
  set (r := SFmul Py.prec Py.emax ratio Sample.f100).
  assert (H70 : (bpow 63 * 100 <= bpow 70)%R).
  { replace 70 with (63 + 7) by lia. rewrite bpow_plus, (bpow_IZR 7) by lia.
    change (2 ^ 7) with 128. pose proof (bpow_gt_0 63). lra. }
  assert (Hp : (Rabs (float_value ratio * float_value Sample.f100) <= bpow 70)%R).
  { rewrite value_f100, Rabs_mult, (Rabs_pos_eq 100) by lra.
    pose proof (Rabs_pos (float_value ratio)). nra. }
  assert (Hpf : Py.is_finite r = true).
  { apply (SFmul_finite Py.prec Py.emax prec_pos prec_lt_emax ratio Sample.f100
             (bpow 70)); auto; try reflexivity;
      [apply Hrr | apply in_range_pow; lia]. }
  assert (Hpr : rounds_to Py.prec Py.emax
                  (float_value ratio * float_value Sample.f100) r).
  { apply SFmul_rounds; auto using prec_pos, prec_lt_emax; try reflexivity.
    apply Hrr. }
  rewrite value_f100 in Hpr.
  exists cur, comp, r.
  split; [cbn [Py.truediv]; rewrite Hcur; reflexivity |].
  split; [cbn [Py.truediv]; rewrite Hcomp; reflexivity |].
  split.
  { unfold reduction_percent. cbn [Py.sub Py.to_float Py.rbind Py.truediv].
    unfold Py.float_truediv. rewrite Ecur at 1. cbn [Py.is_zero Py.rbind Py.mul Py.to_float].
    replace (Py.float_of_int 100) with (Py.Ok Sample.f100)
      by (vm_compute; reflexivity).
    reflexivity. }
  split; [exact Hpf |].
  destruct Hsr as (_ & _ & Hns). destruct Hrr as (_ & _ & Hnr).
  destruct Hpr as (_ & _ & Hnp).
  assert (Hinv : (0 < / float_value cur)%R) by (apply Rinv_0_lt_compat; exact Hcur0).
  split.
  - intros Hle.
    assert (Hcc : (float_value comp <= float_value cur)%R).
    { destruct (Z.eq_dec n' n) as [-> | Hne].
      - rewrite Hcur in Hcomp. injection Hcomp as <-. lra.
      - eapply nearest_monotone; [| exact Hncomp | exact Hncur].
        unfold Rdiv. apply Rmult_lt_compat_r; [lra |]. apply IZR_lt. lia. }
    assert (Hs : (0 <= float_value saved <= float_value cur)%R).
    { split.
      - eapply (nearest_nonneg Py.prec Py.emax prec_pos); [| exact Hns]. lra.
      - eapply nearest_le_format; [exact Hns | | lra].
        apply valid_format; auto using prec_pos. }
    assert (Hr01 : (0 <= float_value ratio <= 1)%R).
    { split.
      - eapply (nearest_nonneg Py.prec Py.emax prec_pos); [| exact Hnr].
        unfold Rdiv. nra.
      - eapply nearest_le_format; [exact Hnr | apply (format_int 1); reflexivity |].
        apply Rmult_le_reg_r with (float_value cur); [exact Hcur0 |].
        unfold Rdiv. rewrite Rmult_assoc, Rinv_l, Rmult_1_r by lra. lra. }
    split.
    + eapply (nearest_nonneg Py.prec Py.emax prec_pos); [| exact Hnp]. lra.
    + eapply nearest_le_format; [exact Hnp | apply (format_int 100); reflexivity |].
      lra.
  - intros Hle.
    assert (Hcc : (float_value cur <= float_value comp)%R).
    { destruct (Z.eq_dec n' n) as [-> | Hne].
      - rewrite Hcur in Hcomp. injection Hcomp as <-. lra.
      - eapply nearest_monotone; [| exact Hncur | exact Hncomp].
        unfold Rdiv. apply Rmult_lt_compat_r; [lra |]. apply IZR_lt. lia. }
    assert (Hs : (float_value saved <= 0)%R).
    { eapply nearest_le_format; [exact Hns | apply (format_0 _ _ prec_pos) | lra]. }
    assert (Hr0 : (float_value ratio <= 0)%R).
    { eapply nearest_le_format; [exact Hnr | apply (format_0 _ _ prec_pos) |].
      unfold Rdiv. nra. }
    eapply nearest_le_format; [exact Hnp | apply (format_0 _ _ prec_pos) | lra].
Qed.

Lemma reduction_between_0_and_100_witness :
  exists r : Py.float,
    reduction_percent (Py.Float (S754_finite false 7036874417766400 (-45)))
      (Py.Float (S754_finite false 5488762045857792 (-46)))
    = Py.Ok (Py.Float r) /\
    (0 <= float_value r <= 100)%R.
Proof.
  destruct (reduction_between_0_and_100 (200 * Sample.MB) (78 * Sample.MB))
    as (cur & comp & r & Hcur & Hcomp & Hred & _ & Hin & _).
  - vm_compute. split; reflexivity.
  - vm_compute. split; [discriminate | reflexivity].
  - exists r.
    assert (Ecur : cur = S754_finite false 7036874417766400 (-45)).
    { vm_compute in Hcur. injection Hcur as <-. reflexivity. }
    assert (Ecomp : comp = S754_finite false 5488762045857792 (-46)).
    { vm_compute in Hcomp. injection Hcomp as <-. reflexivity. }
    rewrite <- Ecur, <- Ecomp. split; [exact Hred |].
    apply Hin. vm_compute. discriminate.
Defined.

Lemma value_f600 : float_value Sample.f600 = 600%R.
Proof.
  cbn [Sample.f600 float_value]. change (-43) with (- (43)).
  rewrite bpow_neg by lia. change (2 ^ 43) with 8796093022208. lra.
Qed.

Lemma bitrate_at_least_minus_121_witness : -121 <= -115.
Proof.
  apply (bitrate_at_least_minus_121 (Py.Int 80) Sample.f100000 (-115)).
  - exact I.
  - reflexivity.
  - reflexivity.
  - reflexivity.
  - reflexivity.
Defined.

Lemma bitrate_within_budget_witness :
  (IZR (940 + 128) * 1000 * float_value Sample.f600 <= IZR 80 * 8388608)%R.
Proof.
  destruct (bitrate_within_budget 80 5277655813324800 (-43) 940) as [_ H].
  - vm_compute. split; [discriminate | reflexivity].
  - reflexivity.
  - reflexivity.
  - apply H.
    + fold Sample.f600. rewrite value_f600, (bpow_IZR 43) by lia.
      change (2 ^ 43) with 8796093022208. lra.
    + vm_compute. discriminate.
Defined.

Lemma bitrate_antitone_in_duration_witness : -115 <= 940.
Proof.
  apply (bitrate_antitone_in_duration (Py.Int 80) Sample.f600 Sample.f100000
           940 (-115)).
  - exact I.
  - reflexivity.
  - reflexivity.
  - reflexivity.
  - reflexivity.
  - reflexivity.
  - reflexivity.
  - reflexivity.
Defined.

(** * The comparison with the target, in bytes *)

(** Below [2^53] bytes the size in megabytes is exact, and Python compares
    it exactly with an [int] target: the size is [<=] the target when the
    file has at most [t * 1048576] bytes. *)
Lemma fits_iff (n t : Z) :
  0 <= n < 2 ^ 53 ->
  exists cur,
    Py.truediv (Py.Int n) (Py.Int (1024 * 1024)) = Py.Ok (Py.Float cur) /\
    (Py.le (Py.Float cur) (Py.Int t) = true <-> n <= t * 1048576).
Proof.
  intros Hn.
  destruct (size_mb_rounds n) as (cur & Hcur & (Hv & Hf & Hnear) & _ & _).
  { change (2 ^ 63) with (2 ^ 53 * 1024). lia. }
  exists cur. split; [cbn [Py.truediv]; rewrite Hcur; reflexivity |].
  assert (Hval : float_value cur = (IZR n / 1048576)%R).
  { eapply nearest_of_format; [exact Hnear |].
    replace (IZR n / 1048576)%R with (IZR n * bpow (- (20)))%R.
    - apply format_dyadic; [| lia]. rewrite Z.abs_eq; lia.
    - rewrite bpow_neg by lia. reflexivity. }
  rewrite (le_spec (Py.Float cur) (Py.Int t) Hv I Hf I).
  cbn [num_value]. rewrite Hval.
  split; intros H.
  - apply le_IZR. rewrite mult_IZR.
    apply Rmult_le_compat_r with (r := 1048576%R) in H; [| lra].
    unfold Rdiv in H. rewrite Rmult_assoc, Rinv_l, Rmult_1_r in H by lra.
    exact H.
  - apply IZR_le in H. rewrite mult_IZR in H.
    apply Rmult_le_reg_r with 1048576%R; [lra |].
    unfold Rdiv. rewrite Rmult_assoc, Rinv_l, Rmult_1_r by lra. exact H.
Qed.

(** * The early return, the entry point and the encoder's command line *)

Section Entry.

Context {m : machine}.

(** The probe is the first thing [encode] calls. *)
Lemma encode_log (input_file output_file : string)
  (target_size_mb cur : Py.num) (s : state) :
  exists rest,
    st_log (fst (encode input_file output_file target_size_mb cur s)) =
    st_log s ++ EvRun (ffprobe_cmd input_file) :: rest.
Proof.
  rewrite encode_run. cbv zeta.
  destruct (run_process (ffprobe_cmd input_file) (st_world s))
    as [w1 [rc out |]]; [| exists []; reflexivity].
  destruct (rc =? 0); [| eexists; reflexivity].
  destruct (float_of_str (str_strip out)) as [d |]; [| exists []; reflexivity].
  destruct (target_video_bitrate target_size_mb (Py.Float d)) as [v | e];
    [| eexists; reflexivity].
  match goal with
  | |- context [run_encoder _ _ _ _ ?s1] =>
    destruct (run_encoder_log input_file output_file cur v s1)
      as (rest & Hlog & _ & _)
  end.
  cbn [st_log] in Hlog. rewrite Hlog.
  eexists. rewrite <- app_assoc. reflexivity.
Qed.

(** [compress_video] on a file of [n] bytes with an [int] target of [t]
    megabytes. *)
Lemma compress_video_by_size (input_file output_file : string) (t : Z)
  (s : state) (n : Z) :
  stat_size (st_world s) input_file = Some n -> 0 <= n < 2 ^ 53 ->
  let r := compress_video input_file output_file (Py.Int t) s in
  exists cur,
    measured_mb (st_world s) input_file = Py.Ok cur /\
    let head :=
      [EvExists input_file; EvGetsize input_file;
       EvPrint ("Current video size: " ++ format_fixed 2 cur ++ " MB")] in
    (n <= t * 1048576 ->
     r = (logged s (head ++ [EvPrint ("Video is already under " ++ str_int t
                                      ++ " MB. No compression needed!")]),
          Py.Ok tt)) /\
    (t * 1048576 < n ->
     exists rest,
       st_log (fst r) =
       st_log s ++ head ++ EvRun (ffprobe_cmd input_file) :: rest).
Proof.
  intros Hstat Hn. cbv zeta.
  destruct (fits_iff n t Hn) as (cur & Hcur & Hle).
  exists (Py.Float cur).
  assert (Hm : measured_mb (st_world s) input_file = Py.Ok (Py.Float cur)).
  { unfold measured_mb. rewrite Hstat. exact Hcur. }
  split; [exact Hm |]. rewrite compress_video_run, Hstat, Hm. cbv zeta.
  split.
  - intros Hfit. apply Hle in Hfit. rewrite Hfit. reflexivity.
  - intros Hbig.
    destruct (Py.le (Py.Float cur) (Py.Int t)) eqn:E.
    { destruct Hle as [Hl _]. specialize (Hl eq_refl). lia. }
    match goal with
    | |- context [encode _ _ _ _ ?s0] =>
      destruct (encode_log input_file output_file (Py.Int t) (Py.Float cur) s0)
        as (rest & Hlog)
    end.
    exists rest. rewrite Hlog. unfold logged. cbn [st_log].
    rewrite <- app_assoc. reflexivity.
Qed.

(** X12: the early return, in bytes.  For an [int] target of [t] megabytes
    and an input of [n] bytes (below [2^53]), [compress_video] returns at
    once exactly when [n <= t * 1048576]; one byte more and the probe is
    started.  The division by [1024 * 1024] loses nothing here, so the
    comparison of the two floats decides as the byte counts do. *)
Theorem short_circuit_iff_fits (input_file output_file : string) (t : Z)
  (s : state) (n : Z) :
  stat_size (st_world s) input_file = Some n -> 0 <= n < 2 ^ 53 ->
  let r := compress_video input_file output_file (Py.Int t) s in
  exists cur,
    measured_mb (st_world s) input_file = Py.Ok cur /\
    let head :=
      [EvExists input_file; EvGetsize input_file;
       EvPrint ("Current video size: " ++ format_fixed 2 cur ++ " MB")] in
    (n <= t * 1048576 ->
     r = (logged s (head ++ [EvPrint ("Video is already under " ++ str_int t
                                      ++ " MB. No compression needed!")]),
          Py.Ok tt)) /\
    (t * 1048576 < n ->
     exists rest,
       st_log (fst r) =
       st_log s ++ head ++ EvRun (ffprobe_cmd input_file) :: rest).
Proof. exact (compress_video_by_size input_file output_file t s n). Qed.

(** The entry point prints its banner and calls [compress_video] on the two
    fixed paths with a target of 80. *)
Lemma main_run (s : state) :
  main s = compress_video input_video output_video (Py.Int 80) (logged s banner).
Proof.
  unfold main, target_size, str_num.
  repeat (unfold bind at 1; unfold print at 1; unfold emit at 1;
          cbn [st_world st_log]).
  unfold logged, banner. repeat rewrite <- app_assoc. reflexivity.
Qed.

(** X13: run as a script, the file uses a target of 80 MB, not the default
    of 100 MB of [compress_video].  On an input of more than 80 MB and at
    most 100 MB, a call that leaves the target to its default returns at
    once, and the entry point, after its banner, goes on to the probe. *)
Theorem main_overrides_default (s : state) (n : Z) :
  stat_size (st_world s) input_video = Some n ->
  80 * 1048576 < n <= 100 * 1048576 ->
  (exists evs,
     compress_video_default input_video output_video s
       = (logged s evs, Py.Ok tt) /\
     filter is_run evs = []) /\
  (exists evs rest,
     st_log (fst (main s)) =
       st_log s ++ banner ++ evs ++ EvRun (ffprobe_cmd input_video) :: rest /\
     filter is_run evs = []).
Proof.
  intros Hstat Hn. split.
  - destruct (compress_video_by_size input_video output_video 100 s n Hstat)
      as (cur & _ & Hfit & _); [lia |].
    unfold compress_video_default, default_target_size_mb.
    rewrite Hfit by lia. eexists. split; reflexivity.
  - rewrite main_run.
    destruct (compress_video_by_size input_video output_video 80
                (logged s banner) n Hstat)
      as (cur & _ & _ & Hbig); [lia |].
    destruct (Hbig ltac:(lia)) as (rest & Hlog).
    eexists _, rest. rewrite Hlog. unfold logged. cbn [st_log].
    rewrite <- app_assoc. split; reflexivity.
Qed.

End Entry.

Lemma short_circuit_iff_fits_witness :
  compress_video (m := Sample.os Sample.good_tools) "a.mp4" "b.mp4" (Py.Int 80)
    (Sample.start Sample.good_tools Sample.exact_fit) =
  (Sample.at_log Sample.good_tools Sample.exact_fit
     [EvExists "a.mp4"; EvGetsize "a.mp4";
      EvPrint "Current video size: 80.00 MB";
      EvPrint "Video is already under 80 MB. No compression needed!"],
   Py.Ok tt).
Proof.
  destruct (short_circuit_iff_fits (m := Sample.os Sample.good_tools)
              "a.mp4" "b.mp4" 80
              (Sample.start Sample.good_tools Sample.exact_fit)
              (80 * Sample.MB))
    as (cur & Hcur & Hfit & _).
  - reflexivity.
  - vm_compute. split; [discriminate | reflexivity].
  - rewrite Hfit by (vm_compute; discriminate).
    vm_compute in Hcur. injection Hcur as <-. reflexivity.
Defined.

Lemma main_overrides_default_witness :
  exists evs,
    compress_video_default (m := Sample.os Sample.good_tools)
      input_video output_video
      (Sample.start Sample.good_tools promo_90)
    = (Sample.at_log Sample.good_tools promo_90 evs, Py.Ok tt).
Proof.
  destruct (main_overrides_default (m := Sample.os Sample.good_tools)
              (Sample.start Sample.good_tools promo_90) (90 * Sample.MB))
    as [(evs & Hrun & _) _].
  - reflexivity.
  - vm_compute. split; [reflexivity | discriminate].
  - exists evs. exact Hrun.
Defined.

(** ** The encoder's command line *)

Lemma str_int_inj (a b : Z) : str_int a = str_int b -> a = b.
Proof.
  unfold str_int. intros H. apply DecimalZ.to_int_inj.
  assert (Hrt : forall z,
            NilZero.int_of_string (NilZero.string_of_int (Z.to_int z))
            = Some (Z.to_int z)).
  { intros z. apply NilZero.isi; destruct z; cbn [Z.to_int];
      try discriminate; intros E; injection E;
      apply DecimalPos.Unsigned.to_uint_nonnil. }
  pose proof (Hrt a) as Ha. rewrite H, Hrt in Ha. injection Ha as Ha.
  symmetry. exact Ha.
Qed.

Lemma append_char_inj (c : ascii) (s1 s2 : string) :
  (s1 ++ String c "" = s2 ++ String c "")%string -> s1 = s2.
Proof.
  revert s2. induction s1 as [| a s1 IH]; intros [| b s2]; cbn [String.append];
    intros H.
  - reflexivity.
  - injection H as _ H. destruct s2; discriminate H.
  - injection H as _ H. destruct s1; discriminate H.
  - injection H as -> H. f_equal. apply IH. exact H.
Qed.

(** X14: the encoder's command line determines what it was built from.  Two
    calls of the script's command that agree word for word were made for the
    same input, the same output and the same bitrate: [str] of an [int]
    loses nothing, the sign included. *)
Theorem ffmpeg_cmd_injective (input_file output_file : string) (v : Z)
  (input_file' output_file' : string) (v' : Z) :
  ffmpeg_cmd input_file output_file v = ffmpeg_cmd input_file' output_file' v' ->
  input_file = input_file' /\ output_file = output_file' /\ v = v'.
Proof.
  unfold ffmpeg_cmd. intros H.
  injection H as Hi Hv Ho.
  split; [exact Hi |]. split; [exact Ho |].
  apply str_int_inj. apply (append_char_inj "k"). exact Hv.
Qed.

Lemma ffmpeg_cmd_injective_witness : 940 = 940.
Proof.
  apply (ffmpeg_cmd_injective input_video output_video 940
           input_video output_video 940).
  reflexivity.
Defined.

(** * What a normal return means *)

Section Success.

Context {m : machine}.

(** X15: what a normal return of [compress_video] means.  Either the input
    was small enough and the world is untouched, or the encoder exited with 0
    and its output file exists in the world it left: the summary that ends
    the log reports the size measured there. *)
Theorem normal_return_means_done (input_file output_file : string)
  (target_size_mb : Py.num) (s : state) :
  let r := compress_video input_file output_file target_size_mb s in
  snd r = Py.Ok tt ->
  (exists cur,
     measured_mb (st_world s) input_file = Py.Ok cur /\
     Py.le cur target_size_mb = true /\
     st_world (fst r) = st_world s) \/
  (exists cur comp red evs n,
     measured_mb (st_world s) input_file = Py.Ok cur /\
     Py.le cur target_size_mb = false /\
     stat_size (st_world (fst r)) output_file = Some n /\
     measured_mb (st_world (fst r)) output_file = Py.Ok comp /\
     reduction_percent cur comp = Py.Ok red /\
     st_log (fst r) =
       st_log s ++ evs ++ completion_summary output_file cur comp red).
Proof.
  cbv zeta. rewrite compress_video_run.
  destruct (stat_size (st_world s) input_file) as [n |]; [| discriminate].
  destruct (measured_mb (st_world s) input_file) as [cur | e] eqn:Hcur;
    [| discriminate].
  cbv zeta. destruct (Py.le cur target_size_mb) eqn:Hle.
  { intros _. left. exists cur. split; [reflexivity |].
    split; [exact Hle | reflexivity]. }
  rewrite encode_run. cbv zeta. unfold logged. cbn [st_world st_log].
  destruct (run_process (ffprobe_cmd input_file) (st_world s))
    as [w1 [rc out |]]; [| discriminate].
  destruct (rc =? 0); [| discriminate].
  destruct (float_of_str (str_strip out)) as [d |]; [| discriminate].
  destruct (target_video_bitrate target_size_mb (Py.Float d)) as [v | e];
    [| discriminate].
  rewrite run_encoder_run. cbv zeta. cbn [st_world st_log].
  destruct (run_process (ffmpeg_cmd input_file output_file v) w1)
    as [w2 [rc2 out2 |]]; [| discriminate].
  destruct (rc2 =? 0); [| discriminate].
  destruct (measured_mb w2 output_file) as [comp | e] eqn:Hcomp;
    [| discriminate].
  destruct (reduction_percent cur comp) as [red | e] eqn:Hred;
    [| discriminate].
  intros _. right. cbn [fst st_world st_log].
  destruct (measured_mb_exists _ _ _ Hcomp) as [n' Hn'].
  exists cur, comp, red.
  exists (before_encoder input_file cur d v ++
          [EvRun (ffmpeg_cmd input_file output_file v); EvGetsize output_file]),
    n'.
  split; [reflexivity |]. split; [exact Hle |].
  split; [exact Hn' |]. split; [exact Hcomp |]. split; [exact Hred |].
  unfold before_encoder. rewrite <- !app_assoc. reflexivity.
Qed.

End Success.

Lemma normal_return_means_done_witness :
  exists n,
    Sample.stat_size
      (st_world (fst (compress_video (m := Sample.os Sample.good_tools)
         input_video output_video target_size
         (Sample.start Sample.good_tools Sample.promo))))
      output_video = Some n.
Proof.
  destruct (normal_return_means_done (m := Sample.os Sample.good_tools)
              input_video output_video target_size
              (Sample.start Sample.good_tools Sample.promo))
    as [(cur & Hcur & Hle & _) | (cur & comp & red & evs & n & _ & _ & Hn & _)].
  - reflexivity.
  - exfalso. vm_compute in Hcur. injection Hcur as <-.
    vm_compute in Hle. discriminate Hle.
  - exists n. exact Hn.
Defined.

(** * The size in megabytes *)

(** X16: a larger file never measures smaller.  For sizes a file system
    reports, [os.path.getsize(p) / (1024 * 1024)] does not decrease when the
    number of bytes grows, it is never negative, and only an empty file
    measures 0. *)
Theorem size_mb_monotone (n n' : Z) :
  0 <= n -> n <= n' -> n' < 2 ^ 63 ->
  exists f f' : Py.float,
    Py.truediv (Py.Int n) (Py.Int (1024 * 1024)) = Py.Ok (Py.Float f) /\
    Py.truediv (Py.Int n') (Py.Int (1024 * 1024)) = Py.Ok (Py.Float f') /\
    (0 <= float_value f <= float_value f')%R /\
    (0 < n -> (0 < float_value f)%R).
Proof.
  intros Hn Hle Hn'.
  destruct (size_mb_rounds n ltac:(lia)) as (f & Hf & Hrf & Hbf & Hlow).
  destruct (size_mb_rounds n' ltac:(lia)) as (f' & Hf' & Hrf' & _ & _).
  exists f, f'.
  split; [cbn [Py.truediv]; rewrite Hf; reflexivity |].
  split; [cbn [Py.truediv]; rewrite Hf'; reflexivity |].
  split; [split; [apply Hbf |] |].
  - destruct (Z.eq_dec n n') as [<- | Hne].
    + rewrite Hf in Hf'. injection Hf' as <-. lra.
    + destruct Hrf as (_ & _ & Hnf). destruct Hrf' as (_ & _ & Hnf').
      eapply nearest_monotone; [| exact Hnf | exact Hnf'].
      unfold Rdiv. apply Rmult_lt_compat_r; [lra |]. apply IZR_lt. lia.
  - intros H0. specialize (Hlow H0). pose proof (bpow_gt_0 (- (20))). lra.
Qed.

Lemma size_mb_monotone_witness :
  exists f f' : Py.float,
    Py.truediv (Py.Int (78 * Sample.MB)) (Py.Int (1024 * 1024))
      = Py.Ok (Py.Float f) /\
    Py.truediv (Py.Int (200 * Sample.MB)) (Py.Int (1024 * 1024))
      = Py.Ok (Py.Float f') /\
    (0 <= float_value f <= float_value f')%R.
Proof.
  destruct (size_mb_monotone (78 * Sample.MB) (200 * Sample.MB))
    as (f & f' & Hf & Hf' & Hle & _).
  - vm_compute. discriminate.
  - vm_compute. discriminate.
  - vm_compute. reflexivity.
  - exists f, f'. split; [exact Hf |]. split; [exact Hf' | exact Hle].
Defined.

(** * An [int] target and the same target as a [float] *)

Lemma value_f8 : float_value f8 = bpow 3.
Proof.
  cbn [f8 float_value]. change 4503599627370496 with (2 ^ 52).
  rewrite <- bpow_IZR, <- bpow_plus by lia. reflexivity.
Qed.

Lemma value_f1024 : float_value f1024 = bpow 10.
Proof.
  cbn [f1024 float_value]. change 4503599627370496 with (2 ^ 52).
  rewrite <- bpow_IZR, <- bpow_plus by lia. reflexivity.
Qed.

(** Multiplying a float below [2^k] by [2^n] is exact. *)
Lemma mul_pow2_small (x c : Py.float) (n k : Z) :
  valid_binary Py.prec Py.emax x = true ->
  valid_binary Py.prec Py.emax c = true ->
  Py.is_finite x = true -> Py.is_finite c = true ->
  0 <= n -> float_value c = bpow n ->
  (Rabs (float_value x) <= bpow k)%R -> -1074 <= k + n < 1024 ->
  valid_binary Py.prec Py.emax (SFmul Py.prec Py.emax x c) = true /\
  Py.is_finite (SFmul Py.prec Py.emax x c) = true /\
  float_value (SFmul Py.prec Py.emax x c) = (float_value x * bpow n)%R /\
  (Rabs (float_value (SFmul Py.prec Py.emax x c)) <= bpow (k + n))%R.
Proof.
  intros Hvx Hvc Hfx Hfc Hn Hc Hx Hk.
  assert (Hb : (Rabs (float_value x * float_value c) <= bpow (k + n))%R).
  { rewrite Hc, Rabs_mult, (Rabs_pos_eq (bpow n)), bpow_plus
      by (apply Rlt_le, bpow_gt_0).
    apply Rmult_le_compat_r; [apply Rlt_le, bpow_gt_0 | exact Hx]. }
  assert (Hfin : Py.is_finite (SFmul Py.prec Py.emax x c) = true).
  { apply (SFmul_finite Py.prec Py.emax prec_pos prec_lt_emax x c
             (bpow (k + n))); auto. apply in_range_pow. exact Hk. }
  destruct (mul_pow2_exact x c n Hvx Hvc Hfx Hfc Hn Hc Hfin) as [Hv He].
  split; [exact Hv |]. split; [exact Hfin |]. split; [exact He |].
  rewrite He, <- Hc. exact Hb.
Qed.

(** X17: an [int] target and the same target as a [float] give the same
    bitrate.  For an [int] [t] of at most 53 bits, the calculation on
    [float(t)] returns what it returns on [t], or raises what it raises:
    the product [t * 8 * 1024 * 1024] is exact either way. *)
Theorem int_and_float_targets_agree (t : Z) (f d : Py.float) :
  Z.abs t < 2 ^ 53 ->
  Py.float_of_int t = Py.Ok f ->
  target_video_bitrate (Py.Float f) (Py.Float d)
  = target_video_bitrate (Py.Int t) (Py.Float d).
Proof.
  intros Ht Hf.
  assert (HtR : (Rabs (IZR t) <= bpow 53)%R).
  { rewrite (bpow_IZR 53), <- abs_IZR by lia. apply IZR_le. lia. }
  (* [float(t)] is [t] *)
  destruct (float_of_int_returns t (bpow 53)) as (f0 & Hf0 & Hfin);
    [apply in_range_pow; lia | exact HtR |].
  rewrite Hf in Hf0. injection Hf0 as <-.
  destruct (float_of_int_rounds t f Hf Hfin) as (Hvf & _ & Hnf).
  assert (Hval : float_value f = IZR t).
  { eapply nearest_of_format; [exact Hnf | apply format_int; exact Ht]. }
  (* the three products *)
  destruct (mul_pow2_small f f8 3 53 Hvf eq_refl Hfin eq_refl ltac:(lia)
              value_f8 ltac:(rewrite Hval; exact HtR) ltac:(lia))
    as (Hv1 & Hf1 & E1 & B1).
  destruct (mul_pow2_small _ f1024 10 (53 + 3) Hv1 eq_refl Hf1 eq_refl
              ltac:(lia) value_f1024 B1 ltac:(lia))
    as (Hv2 & Hf2 & E2 & B2).
  destruct (mul_pow2_small _ f1024 10 (53 + 3 + 10) Hv2 eq_refl Hf2 eq_refl
              ltac:(lia) value_f1024 B2 ltac:(lia))
    as (Hv3 & Hf3 & E3 & _).
  set (b2 := SFmul Py.prec Py.emax
               (SFmul Py.prec Py.emax (SFmul Py.prec Py.emax f f8) f1024)
               f1024) in *.
  assert (Hb2 : float_value b2 = (IZR t * 8388608)%R).
  { rewrite E3, E2, E1, Hval, (bpow_IZR 3), (bpow_IZR 10) by lia.
    change (2 ^ 3) with 8. change (2 ^ 10) with 1024. lra. }
  (* the product of the integers, converted *)
  assert (H76 : (Rabs (IZR (t * 8 * 1024 * 1024)) <= bpow 76)%R).
  { rewrite !mult_IZR, !Rabs_mult, (Rabs_pos_eq 8), !(Rabs_pos_eq 1024) by lra.
    replace 76 with (53 + 23) by lia. rewrite bpow_plus, (bpow_IZR 23) by lia.
    change (2 ^ 23) with 8388608. pose proof (Rabs_pos (IZR t)). lra. }
  destruct (float_of_int_returns (t * 8 * 1024 * 1024) (bpow 76))
    as (b1 & Hb1 & Hfb1); [apply in_range_pow; lia | exact H76 |].
  destruct (float_of_int_rounds _ b1 Hb1 Hfb1) as (Hvb1 & _ & Hnb1).
  assert (Hb1v : float_value b1 = (IZR t * 8388608)%R).
  { rewrite <- Hb2. eapply nearest_of_format.
    - rewrite Hb2. replace (IZR t * 8388608)%R with (IZR (t * 8 * 1024 * 1024))
        by (rewrite !mult_IZR; lra). exact Hnb1.
    - apply valid_format; auto using prec_pos. }
  rewrite !target_video_bitrate_stages. cbn [dividend]. fold b2. rewrite Hb1.
  destruct (valid_value_inj Py.prec Py.emax prec_pos b1 b2 Hvb1 Hv3 Hfb1 Hf3)
    as [-> | (Hz & _)]; [lra | reflexivity |].
  (* both are zero: the target is 0 *)
  assert (Ht0 : t = 0).
  { apply eq_IZR. rewrite Hb1v in Hz. lra. }
  subst t. vm_compute in Hf. injection Hf as <-.
  vm_compute in Hb1. injection Hb1 as <-. reflexivity.
Qed.

Lemma int_and_float_targets_agree_witness :
  target_video_bitrate
    (Py.Float (S754_finite false 5629499534213120 (-46)))
    (Py.Float Sample.f600)
  = Py.Ok 940.
Proof.
  rewrite (int_and_float_targets_agree 80
             (S754_finite false 5629499534213120 (-46)) Sample.f600).
  - reflexivity.
  - reflexivity.
  - reflexivity.
Defined.


(** * The reduction the script reports *)

(** The three steps of [((cur - comp) / cur) * 100] on the sizes of a file
    of [n] bytes and a file of [n'] bytes: each step returns, and what it
    returns is the correctly rounded difference, quotient and product. *)
Lemma reduction_percent_stages (n n' : Z) (cur comp : Py.float) :
  0 < n < 2 ^ 63 -> 0 <= n' < 2 ^ 63 ->
  Py.int_truediv n (1024 * 1024) = Py.Ok cur ->
  Py.int_truediv n' (1024 * 1024) = Py.Ok comp ->
  let saved := SFsub Py.prec Py.emax cur comp in
  let ratio := SFdiv Py.prec Py.emax saved cur in
  let red := SFmul Py.prec Py.emax ratio Sample.f100 in
  Py.sub (Py.Float cur) (Py.Float comp) = Py.Ok (Py.Float saved) /\
  Py.truediv (Py.Float saved) (Py.Float cur) = Py.Ok (Py.Float ratio) /\
  Py.mul (Py.Float ratio) (Py.Int 100) = Py.Ok (Py.Float red) /\
  reduction_percent (Py.Float cur) (Py.Float comp) = Py.Ok (Py.Float red) /\
  rounds_to Py.prec Py.emax (float_value cur - float_value comp) saved /\
  rounds_to Py.prec Py.emax (float_value saved / float_value cur) ratio /\
  rounds_to Py.prec Py.emax (float_value ratio * 100) red.
Proof.
  intros Hn Hn' Hcur Hcomp saved ratio red.
  destruct (size_mb_rounds n ltac:(lia)) as (cur0 & Hcur0 & Hrcur & Hbcur & Hlow).
  rewrite Hcur in Hcur0. injection Hcur0 as <-.
  destruct (size_mb_rounds n' Hn') as (comp0 & Hcomp0 & Hrcomp & Hbcomp & _).
  rewrite Hcomp in Hcomp0. injection Hcomp0 as <-.
  specialize (Hlow ltac:(lia)).
  pose proof (bpow_gt_0 (- (20))) as H20.
  assert (Hcur0 : (0 < float_value cur)%R) by lra.
  destruct (positive_value_finite cur Hcur0) as (sc & mc & ec & Ecur).
  destruct Hrcur as (Hvcur & Hfcur & _).
  destruct Hrcomp as (Hvcomp & Hfcomp & _).
  (* the difference *)
  assert (Hsf : Py.is_finite saved = true).
  { apply (SFsub_finite Py.prec Py.emax prec_pos prec_lt_emax cur comp (bpow 43));
      auto; [apply in_range_pow; lia |]. apply Rabs_le. lra. }
  assert (Hsr : rounds_to Py.prec Py.emax (float_value cur - float_value comp) saved).
  { apply SFsub_rounds; auto using prec_pos. }
  assert (Hsb : (Rabs (float_value saved) <= bpow 43)%R).
  { apply (rounds_to_bounded Py.prec Py.emax prec_pos _ _ _ Hsr);
      [apply in_range_pow; lia |]. apply Rabs_le. lra. }
  (* the quotient *)
  assert (H63 : (bpow 43 <= bpow 63 * bpow (- (20)))%R).
  { rewrite <- bpow_plus. apply bpow_le. lia. }
  assert (Hq : (Rabs (float_value saved / float_value cur) <= bpow 63)%R).
  { unfold Rdiv. rewrite Rabs_mult, (Rabs_pos_eq (/ float_value cur))
      by (apply Rlt_le, Rinv_0_lt_compat; exact Hcur0).
    apply Rmult_le_reg_r with (float_value cur); [exact Hcur0 |].
    rewrite Rmult_assoc, Rinv_l, Rmult_1_r by lra.
    pose proof (bpow_gt_0 63). nra. }
  assert (Hrf : Py.is_finite ratio = true).
  { apply (SFdiv_finite Py.prec Py.emax prec_pos prec_lt_emax saved cur (bpow 63));
      eauto. apply in_range_pow; lia. }
  assert (Hrr : rounds_to Py.prec Py.emax (float_value saved / float_value cur) ratio).
  { apply SFdiv_rounds; eauto using prec_pos. apply Hsr. }
  assert (Hrb : (Rabs (float_value ratio) <= bpow 63)%R).
  { apply (rounds_to_bounded Py.prec Py.emax prec_pos _ _ _ Hrr);
      [apply in_range_pow; lia | exact Hq]. }
  (* the product *)
  assert (H70 : (bpow 63 * 100 <= bpow 70)%R).
  { replace 70 with (63 + 7) by lia. rewrite bpow_plus, (bpow_IZR 7) by lia.
    change (2 ^ 7) with 128. pose proof (bpow_gt_0 63). lra. }
  assert (Hp : (Rabs (float_value ratio * float_value Sample.f100) <= bpow 70)%R).
  { rewrite value_f100, Rabs_mult, (Rabs_pos_eq 100) by lra.
    pose proof (Rabs_pos (float_value ratio)). nra. }
  assert (Hpf : Py.is_finite red = true).
  { apply (SFmul_finite Py.prec Py.emax prec_pos prec_lt_emax ratio Sample.f100
             (bpow 70)); auto; try reflexivity;
      [apply Hrr | apply in_range_pow; lia]. }
  assert (Hpr : rounds_to Py.prec Py.emax
                  (float_value ratio * float_value Sample.f100) red).
  { apply SFmul_rounds; auto using prec_pos, prec_lt_emax; try reflexivity.
    apply Hrr. }
  rewrite value_f100 in Hpr.
  assert (H100 : Py.float_of_int 100 = Py.Ok Sample.f100)
    by (vm_compute; reflexivity).
  assert (Esub : Py.sub (Py.Float cur) (Py.Float comp) = Py.Ok (Py.Float saved))
    by reflexivity.
  assert (Ediv : Py.truediv (Py.Float saved) (Py.Float cur)
                 = Py.Ok (Py.Float ratio)).
  { cbn [Py.truediv Py.to_float Py.rbind]. unfold Py.float_truediv.
    rewrite Ecur at 1. reflexivity. }
  assert (Emul : Py.mul (Py.Float ratio) (Py.Int 100) = Py.Ok (Py.Float red)).
  { cbn [Py.mul Py.to_float Py.rbind]. rewrite H100. reflexivity. }
  split; [exact Esub |]. split; [exact Ediv |]. split; [exact Emul |].
  split.
  { unfold reduction_percent. rewrite Esub. cbn [Py.rbind].
    rewrite Ediv. cbn [Py.rbind]. exact Emul. }
  split; [exact Hsr |]. split; [exact Hrr | exact Hpr].
Qed.

(** C9: after a successful encode the script ends normally, and the
    percentage it prints is [((cur - comp) / cur) * 100] in Python's float
    arithmetic: [cur] is the size of the input measured before the run,
    [comp] the size of the output file read, after the encoder has exited,
    in the world the encoder left ([w2]); the difference, the quotient and
    the product are each the correctly rounded value of the exact ones.
    The target size does not enter.  The sizes are those a file system
    reports: below [2^63] bytes, and the input not empty. *)
Theorem reduction_is_remeasured {m : machine}
  (input_file output_file : string) (target_size_mb : Py.num) (s : state)
  (cur : Py.num) (w1 : world) (d : Py.float) (v : Z) (w2 : world)
  (out : string) (n n' : Z) :
  reaches_encoder input_file target_size_mb s cur w1 d v ->
  run_process (ffmpeg_cmd input_file output_file v) w1 = (w2, ProcExit 0 out) ->
  stat_size (st_world s) input_file = Some n -> 0 < n < 2 ^ 63 ->
  stat_size w2 output_file = Some n' -> 0 <= n' < 2 ^ 63 ->
  exists original_mb compressed_mb : Py.float,
    cur = Py.Float original_mb /\
    measured_mb w2 output_file = Py.Ok (Py.Float compressed_mb) /\
    rounds_to Py.prec Py.emax (IZR n / 1048576) original_mb /\
    rounds_to Py.prec Py.emax (IZR n' / 1048576) compressed_mb /\
    let saved := SFsub Py.prec Py.emax original_mb compressed_mb in
    let ratio := SFdiv Py.prec Py.emax saved original_mb in
    let reduction := SFmul Py.prec Py.emax ratio Sample.f100 in
    Py.sub cur (Py.Float compressed_mb) = Py.Ok (Py.Float saved) /\
    Py.truediv (Py.Float saved) cur = Py.Ok (Py.Float ratio) /\
    Py.mul (Py.Float ratio) (Py.Int 100) = Py.Ok (Py.Float reduction) /\
    rounds_to Py.prec Py.emax
      (float_value original_mb - float_value compressed_mb) saved /\
    rounds_to Py.prec Py.emax
      (float_value saved / float_value original_mb) ratio /\
    rounds_to Py.prec Py.emax (float_value ratio * 100) reduction /\
    compress_video input_file output_file target_size_mb s =
      ({| st_world := w2;
          st_log := st_log s ++ before_encoder input_file cur d v ++
            EvRun (ffmpeg_cmd input_file output_file v) ::
            EvGetsize output_file ::
            completion_summary output_file cur (Py.Float compressed_mb)
              (Py.Float reduction) |}, Py.Ok tt) /\
    nth_error (completion_summary output_file cur (Py.Float compressed_mb)
                 (Py.Float reduction)) 3 =
      Some (EvPrint ("Size reduction: " ++
                     format_fixed 1 (Py.Float reduction) ++ "%")).
Proof.
  intros Hreach Hrun Hn Hnr Hn' Hnr'.
  pose proof Hreach as (Hcur & _).
  unfold measured_mb in Hcur. rewrite Hn in Hcur. cbn [Py.truediv] in Hcur.
  destruct (Py.int_truediv n (1024 * 1024)) as [fcur | ?] eqn:Efcur;
    [| discriminate].
  cbn [Py.rbind] in Hcur. injection Hcur as <-.
  destruct (size_mb_rounds n' Hnr') as (fcomp & Efcomp & Hrcomp & _).
  destruct (size_mb_rounds n ltac:(lia)) as (fcur' & Efcur' & Hrcur & _).
  rewrite Efcur in Efcur'. injection Efcur' as <-.
  assert (Hcomp : measured_mb w2 output_file = Py.Ok (Py.Float fcomp)).
  { unfold measured_mb. rewrite Hn'. cbn [Py.truediv]. rewrite Efcomp.
    reflexivity. }
  destruct (reduction_percent_stages n n' fcur fcomp Hnr Hnr' Efcur Efcomp)
    as (Esub & Ediv & Emul & Hred & Hsr & Hrr & Hpr).
  exists fcur, fcomp.
  split; [reflexivity |]. split; [exact Hcomp |].
  split; [exact Hrcur |]. split; [exact Hrcomp |]. cbv zeta.
  split; [exact Esub |]. split; [exact Ediv |]. split; [exact Emul |].
  split; [exact Hsr |]. split; [exact Hrr |]. split; [exact Hpr |].
  rewrite (compress_video_reaches_encoder _ output_file _ _ _ _ _ _ Hreach).
  rewrite (run_encoder_success _ _ _ _ _ w2 out (Py.Float fcomp)
             (Py.Float (SFmul Py.prec Py.emax
                (SFdiv Py.prec Py.emax (SFsub Py.prec Py.emax fcur fcomp) fcur)
                Sample.f100))); simpl; auto.
  rewrite <- app_assoc. split; reflexivity.
Qed.

Lemma reduction_is_remeasured_witness :
  nth_error (st_log (fst (compress_video (m := Sample.os Sample.good_tools)
    input_video output_video target_size
    (Sample.start Sample.good_tools Sample.promo)))) 13 =
  Some (EvPrint "Size reduction: 61.0%").
Proof.
  destruct (reduction_is_remeasured (m := Sample.os Sample.good_tools)
    input_video output_video target_size
    (Sample.start Sample.good_tools Sample.promo)
    (Py.Float (S754_finite false 7036874417766400 (-45)))
    Sample.promo Sample.f600 940
    ((output_video, 78 * Sample.MB) :: Sample.promo) ""
    (200 * Sample.MB) (78 * Sample.MB))
    as (fcur & fcomp & Ecur & Hcomp & _ & _ & _ & _ & _ & _ & _ & _ & Hrun & _).
  - repeat split. exists ("600.000000" ++ nl)%string. repeat split.
  - reflexivity.
  - reflexivity.
  - vm_compute. split; reflexivity.
  - reflexivity.
  - vm_compute. split; [discriminate | reflexivity].
  - injection Ecur as <-.
    vm_compute in Hcomp. injection Hcomp as <-.
    rewrite Hrun. reflexivity.
Defined.
